(** * Auratyme: task lifecycle and job scheduling

    A shallow embedding of the job-scheduling and task-binding code of the
    Auratyme backend:

    - [jobs/src/jobs/jobs.service.ts]          the job execution engine (BullMQ queue),
    - [schedules/src/jobs/jobs.repository.ts]  the job store (table [jobs]),
    - [schedules/src/jobs/jobs.service.ts]     the job service facade,
    - [schedules/src/tasks/tasks.repository.ts] the table [tasks],
    - [schedules/src/tasks/tasks.service.ts]   task create / update / remove,
    - [schedules/src/tasks/events.controller.ts] the TASK_DUE / TASK_REPEATED handlers.

    Asynchronous methods are modelled in a state-and-exception monad over a
    [World] that holds the two database tables, the queue of the engine, the
    event bus and the error log.  Everything an operation reads from its
    environment (the clock, the uuid generator, infrastructure failures) is
    passed in an [Env] record. *)

From stdpp Require Import base decidable option list strings gmap.

Local Open Scope Z_scope.
Local Open Scope string_scope.
Local Open Scope list_scope.

(** ** JavaScript values *)

(** An optional, nullable property [p?: A | null]. *)
Inductive field (A : Type) : Type :=
  | Undefined
  | Null
  | Val (a : A).
Arguments Undefined {A}.
Arguments Null {A}.
Arguments Val {A} a.

(** A date-time string.  A well-formed ISO-8601 string is represented by
    the instant it denotes (milliseconds since the epoch), so that
    [new Date(s).getTime()] and [toISOString] are the identity on it; the
    empty string is kept apart because it is falsy. *)
Inductive IsoString : Type :=
  | IsoEmpty
  | Iso (ms : Z).

(** Truthiness of a string: every string but the empty one. *)
Definition truthy (s : string) : bool := negb (String.eqb s "").

(** [a || b] on strings. *)
Definition or_else (a b : string) : string := if truthy a then a else b.

(** A JavaScript object with string values, [Record<string, string>]. *)
Abbreviation Dictionary := (gmap string string).

(** ** Enumerations *)

Inductive TaskStatus : Type := NOT_STARTED | IN_PROGRESS | DONE | FAILED.
Inductive JobType : Type := SINGLE | CRON.

Global Instance TaskStatus_eq_dec : EqDecision TaskStatus.
Proof. solve_decision. Defined.
Global Instance JobType_eq_dec : EqDecision JobType.
Proof. solve_decision. Defined.

Module BrokerTask.
Definition SCHEDULE_SINGLE_JOB : string := "jobs.schedule.single".
Definition SCHEDULE_CRON_JOB : string := "jobs.schedule.cron".
End BrokerTask.

Module TaskEvent.
(** Modelled from the spec: the enum [TaskEvent] of [tasks/enums] is not
    among the sources; the spec names its two events TASK_DUE and
    TASK_REPEATED. *)
Definition DUE : string := "TASK_DUE".
Definition REPEATED : string := "TASK_REPEATED".
End TaskEvent.

(** ** Rows, entities and requests *)

(** A row of the table [tasks] ([database/schemas/tasks.schema.ts]). *)
Record DbTask : Type := mkDbTask {
  id : string;
  name : string;
  description : option string;
  status : TaskStatus;
  dueTo : option Z;
  repeat : option string;
  userId : string;
  priority : Z;
  fixed : bool;
  startTime : option string;
  endTime : option string;
  createdAt : Z;
  updatedAt : Z;
  scheduleId : string
}.

(** A row of the table [jobs]: primary key [id], foreign key [taskId]. *)
Record DbJob : Type := mkDbJob {
  job_id : string;
  job_type : JobType;
  job_taskId : string
}.

(** The domain entity [Task]: dates as strings. *)
Record Task : Type := mkTask {
  t_id : string;
  t_name : string;
  t_description : option string;
  t_status : TaskStatus;
  t_dueTo : option IsoString;
  t_repeat : option string;
  t_userId : string;
  t_priority : Z;
  t_fixed : bool;
  t_startTime : option string;
  t_endTime : option string;
  t_createdAt : IsoString;
  t_updatedAt : IsoString;
  t_scheduleId : string
}.

Record TaskWhere : Type := mkWhere {
  w_id : string;
  w_userId : option string
}.

Record TaskCreateDto : Type := mkCreateDto {
  c_name : string;
  c_scheduleId : string;
  c_userId : string;
  c_description : field string;
  c_status : option TaskStatus;
  c_dueTo : field IsoString;
  c_repeat : field string;
  c_priority : option Z;
  c_fixed : option bool;
  c_startTime : field string;
  c_endTime : field string
}.

Record TaskUpdateFields : Type := mkFields {
  f_name : option string;
  f_description : field string;
  f_priority : option Z;
  f_fixed : option bool;
  f_dueTo : field IsoString;
  f_repeat : field string;
  f_status : option TaskStatus;
  f_scheduleId : option string;
  f_startTime : field string;
  f_endTime : field string
}.

Record TaskUpdateDto : Type := mkUpdateDto {
  u_where : TaskWhere;
  u_fields : option TaskUpdateFields
}.

(** [TasksUpdateFields] of the repository: [dueTo] is a [Date] there. *)
Record TasksUpdateFields : Type := mkDbFields {
  df_description : field string;
  df_dueTo : field Z;
  df_name : option string;
  df_repeat : field string;
  df_scheduleId : option string;
  df_status : option TaskStatus
}.

(** The job entities and requests of [contracts/src/jobs/v1/jobs.ts].  An
    [executionDate], a well-formed date-time string, is represented by the
    instant it denotes. *)
Record SingleJob : Type := mkSingleJob {
  sj_id : string;
  sj_name : string;
  sj_executionDate : Z;
  sj_type : JobType
}.

Record CronJob : Type := mkCronJob {
  cj_id : string;
  cj_name : string;
  cj_cron : string;
  cj_type : JobType
}.

Record JobScheduleSingleRequest : Type := mkScheduleSingle {
  ss_name : string;
  ss_executionDate : Z;
  ss_ackEventName : string;
  ss_payload : Dictionary
}.

Record JobScheduleCronRequest : Type := mkScheduleCron {
  sc_name : string;
  sc_cron : string;
  sc_ackEventName : string;
  sc_payload : Dictionary
}.

Record JobRescheduleSingleRequest : Type := mkRescheduleSingle {
  rs_id : string;
  rs_executionDate : Z
}.

Record JobRescheduleCronRequest : Type := mkRescheduleCron {
  rc_id : string;
  rc_cron : string
}.

(** ** The queue of the engine (BullMQ) *)

Record JobsOptions : Type := mkOpts {
  delay : Z;
  jobId : string
}.

Record Job : Type := mkJob {
  j_id : string;
  j_name : string;
  j_data : Dictionary;
  j_opts : JobsOptions;
  j_timestamp : Z
}.

Record JobScheduler : Type := mkScheduler {
  key : string;
  s_name : string;
  pattern : string;
  template_data : Dictionary
}.

Record Queue : Type := mkQueue {
  q_jobs : gmap string Job;
  q_schedulers : gmap string JobScheduler
}.

(** ** Events and the world *)

Record TaskEventPayload : Type := mkEventPayload {
  ev_task_id : string;
  ev_task_userId : string
}.

Record BusEvent : Type := mkEvent {
  eventName : string;
  payload : TaskEventPayload
}.

Record World : Type := mkWorld {
  tasks : list DbTask;
  schedules : list string;
  jobs : list DbJob;
  queue : Queue;
  bus : list BusEvent;
  errors : list string
}.

(** ** The environment of one call *)

(** The places where the infrastructure (database, Redis, broker) can fail. *)
Inductive Site : Type :=
  | SchedulesFindOne
  | TasksFindOne | TasksCreate | TasksUpdate | TasksRemove
  | JobsFindOne | JobsFindByTaskId | JobsSave | JobsRemove
  | QueueAdd | QueueGetJob | QueueJobRemove
  | QueueUpsertJobScheduler | QueueGetJobScheduler | QueueRemoveJobScheduler
  | BrokerPublish.

Global Instance Site_eq_dec : EqDecision Site.
Proof. solve_decision. Defined.

Record Env : Type := mkEnv {
  now : Z;                 (* new Date().getTime() *)
  taskUuid : string;       (* defaultRandom() of tasks.id *)
  singleUuid : string;     (* uuidv4() in scheduleSingle *)
  cronUuid : string;       (* uuidv4() in scheduleCron *)
  fails : Site -> bool     (* does the call at this site fail? *)
}.

(** ** Exceptions *)

Inductive GrpcStatus : Type := INTERNAL.

Inductive Exception : Type :=
  | Error (message : string)                (* new Error(message) *)
  | Infrastructure (site : Site)            (* raised by a driver *)
  | ForeignKeyViolation
  | UniqueViolation
  | ScheduleNotFoundException (scheduleId : string)
  | TaskNotFoundException (taskId : string)
  | DatabaseException (message : string) (cause : Exception)
  | JobException (message : string) (cause : Exception) (jobId : string)
  | RpcException (message : string) (code : GrpcStatus) (cause : Exception).

(** ** The monad of asynchronous methods *)

Inductive Res (A : Type) : Type :=
  | Ok (a : A)
  | Throw (e : Exception).
Arguments Ok {A} a.
Arguments Throw {A} e.

Definition M (A : Type) : Type := World -> Res A * World.

Definition ret {A} (a : A) : M A := fun w => (Ok a, w).
Definition throw {A} (e : Exception) : M A := fun w => (Throw e, w).
Definition bind {A B} (m : M A) (f : A -> M B) : M B :=
  fun w => match m w with
           | (Ok a, w') => f a w'
           | (Throw e, w') => (Throw e, w')
           end.
Definition try_catch {A} (m : M A) (h : Exception -> M A) : M A :=
  fun w => match m w with
           | (Ok a, w') => (Ok a, w')
           | (Throw e, w') => h e w'
           end.
Definition get : M World := fun w => (Ok w, w).
Definition put (w : World) : M unit := fun _ => (Ok tt, w).

Notation "'do' x <- m ; k" := (bind m (fun x => k))
  (at level 10, x name, m at level 100, k at level 200,
   format "'[v' 'do'  x  <-  m ; '/' k ']'").
Notation "'run' m ; k" := (bind m (fun _ => k))
  (at level 10, m at level 100, k at level 200,
   format "'[v' 'run'  m ; '/' k ']'").

(** A call that fails when the infrastructure does at [site]. *)
Definition guard (env : Env) (site : Site) (e : Exception) : M unit :=
  if fails env site then throw e else ret tt.

(** Updates of one component of the world. *)
Definition set_tasks (ts : list DbTask) (w : World) : World :=
  mkWorld ts (schedules w) (jobs w) (queue w) (bus w) (errors w).
Definition set_jobs (js : list DbJob) (w : World) : World :=
  mkWorld (tasks w) (schedules w) js (queue w) (bus w) (errors w).
Definition set_queue (q : Queue) (w : World) : World :=
  mkWorld (tasks w) (schedules w) (jobs w) q (bus w) (errors w).
Definition set_bus (b : list BusEvent) (w : World) : World :=
  mkWorld (tasks w) (schedules w) (jobs w) (queue w) b (errors w).
Definition set_errors (l : list string) (w : World) : World :=
  mkWorld (tasks w) (schedules w) (jobs w) (queue w) (bus w) l.

Definition modify (f : World -> World) : M unit := fun w => (Ok tt, f w).

(** [logger.error]: the only log level the model keeps. *)
Definition logger_error (message : string) : M unit :=
  modify (fun w => set_errors (errors w ++ [message]) w).

(** ** The tables

    A table is the list of its rows, in the order of their insertion.  The
    constraints that the schemas declare are kept: the primary keys [tasks.id]
    and [jobs.id], and the foreign keys [tasks.scheduleId] and [jobs.taskId]
    (without a cascade: a task that a job refers to cannot be deleted).  A
    statement that fails leaves the tables as they were.  Of the table
    [schedules] the world keeps the ids. *)

(** ** [SchedulesRepository.findOne] *)

Module SchedulesRepository.
Definition findOne (env : Env) (sid : string) : M (option string) :=
  run guard env SchedulesFindOne
        (DatabaseException "Failed to find one schedule" (Infrastructure SchedulesFindOne));
  do w <- get;
  ret (if bool_decide (sid ∈ schedules w) then Some sid else None).
End SchedulesRepository.

(** ** [TasksRepository] ([tasks.repository.ts]) *)

Module TasksRepository.

(** [and(eq(tasksTable.id, where.id),
         where.userId ? eq(tasksTable.userId, where.userId) : undefined)] *)
Definition matches (wh : TaskWhere) (t : DbTask) : bool :=
  bool_decide (id t = w_id wh) &&
  match w_userId wh with
  | Some u => if truthy u then bool_decide (userId t = u) else true
  | None => true
  end.

Definition findOne (env : Env) (wh : TaskWhere) : M (option DbTask) :=
  run guard env TasksFindOne
        (DatabaseException "Failed to find task" (Infrastructure TasksFindOne));
  do w <- get;
  ret (head (filter (fun t => matches wh t = true) (tasks w))).

(** The row that [insert(tasksTable).values(options)] writes: columns left
    undefined take their default. *)
Definition or_null {A} (f : field A) : option A :=
  match f with Val a => Some a | _ => None end.

Definition new_row (env : Env) (dto : TaskCreateDto) (due : option Z) : DbTask :=
  {| id := taskUuid env;
     name := c_name dto;
     description := or_null (c_description dto);
     status := default NOT_STARTED (c_status dto);
     dueTo := due;
     repeat := or_null (c_repeat dto);
     userId := c_userId dto;
     priority := default 0 (c_priority dto);
     fixed := default false (c_fixed dto);
     startTime := or_null (c_startTime dto);
     endTime := or_null (c_endTime dto);
     createdAt := now env;
     updatedAt := now env;
     scheduleId := c_scheduleId dto |}.

Definition create (env : Env) (dto : TaskCreateDto) (due : option Z) : M DbTask :=
  run guard env TasksCreate
        (DatabaseException "Failed to create task" (Infrastructure TasksCreate));
  do w <- get;
  let row := new_row env dto due in
  if bool_decide (id row ∈ id <$> tasks w) then
    throw (DatabaseException "Failed to create task" UniqueViolation)
  else if bool_decide (scheduleId row ∈ schedules w) then
    run put (set_tasks (tasks w ++ [row]) w);
    ret row
  else
    throw (DatabaseException "Failed to create task" ForeignKeyViolation).

(** [set(fields)]: a column whose value is undefined is left alone, null
    clears it; [updatedAt] has [$onUpdateFn(() => new Date())]. *)
Definition patch {A} (f : field A) (old : option A) : option A :=
  match f with
  | Undefined => old
  | Null => None
  | Val a => Some a
  end.

Definition set_fields (env : Env) (f : TasksUpdateFields) (t : DbTask) : DbTask :=
  {| id := id t;
     name := default (name t) (df_name f);
     description := patch (df_description f) (description t);
     status := default (status t) (df_status f);
     dueTo := patch (df_dueTo f) (dueTo t);
     repeat := patch (df_repeat f) (repeat t);
     userId := userId t;
     priority := priority t;
     fixed := fixed t;
     startTime := startTime t;
     endTime := endTime t;
     createdAt := createdAt t;
     updatedAt := now env;
     scheduleId := default (scheduleId t) (df_scheduleId f) |}.

(** drizzle refuses an update in which every value is undefined
    (No values to set). *)
Definition no_values (f : TasksUpdateFields) : bool :=
  match df_description f, df_dueTo f, df_name f,
        df_repeat f, df_scheduleId f, df_status f with
  | Undefined, Undefined, None, Undefined, None, None => true
  | _, _, _, _, _, _ => false
  end.

Definition update (env : Env) (wh : TaskWhere) (f : TasksUpdateFields)
  : M (option DbTask) :=
  run guard env TasksUpdate
        (DatabaseException "Failed to update one task" (Infrastructure TasksUpdate));
  do w <- get;
  if no_values f then
    throw (DatabaseException "Failed to update one task" (Error "No values to set"))
  else
    let hit := filter (fun t => matches wh t = true) (tasks w) in
    run (match df_scheduleId f, hit with
         | Some s, _ :: _ =>
             if bool_decide (s ∈ schedules w) then ret tt
             else throw (DatabaseException "Failed to update one task" ForeignKeyViolation)
         | _, _ => ret tt
         end);
    let upd := fun t => if matches wh t then set_fields env f t else t in
    run put (set_tasks (upd <$> tasks w) w);
    ret (head (set_fields env f <$> hit)).

Definition remove (env : Env) (wh : TaskWhere) : M (option DbTask) :=
  run guard env TasksRemove
        (DatabaseException "Failed to remove one task" (Infrastructure TasksRemove));
  do w <- get;
  let hit := filter (fun t => matches wh t = true) (tasks w) in
  if bool_decide (Exists (fun j => job_taskId j ∈ id <$> hit) (jobs w)) then
    throw (DatabaseException "Failed to remove one task" ForeignKeyViolation)
  else
    run put (set_tasks (filter (fun t => matches wh t = false) (tasks w)) w);
    ret (head hit).

End TasksRepository.

(** ** [JobsRepository] ([jobs.repository.ts]) *)

Module JobsRepository.

Definition findOne (env : Env) (jid : string) : M (option DbJob) :=
  run guard env JobsFindOne
        (DatabaseException "Failed to find one job" (Infrastructure JobsFindOne));
  do w <- get;
  ret (head (filter (fun j => job_id j = jid) (jobs w))).

Definition findByTaskId (env : Env) (taskId : string) : M (list DbJob) :=
  run guard env JobsFindByTaskId
        (DatabaseException "Failed to find job by taskId" (Infrastructure JobsFindByTaskId));
  do w <- get;
  ret (filter (fun j => job_taskId j = taskId) (jobs w)).

Definition save (env : Env) (jid : string) (type : JobType) (taskId : string)
  : M DbJob :=
  run guard env JobsSave
        (DatabaseException "Failed to save job" (Infrastructure JobsSave));
  do w <- get;
  let row := mkDbJob jid type taskId in
  if bool_decide (jid ∈ job_id <$> jobs w) then
    throw (DatabaseException "Failed to save job" UniqueViolation)
  else if bool_decide (taskId ∈ id <$> tasks w) then
    run put (set_jobs (jobs w ++ [row]) w);
    ret row
  else
    throw (DatabaseException "Failed to save job" ForeignKeyViolation).

Definition remove (env : Env) (jid : string) : M bool :=
  run guard env JobsRemove
        (DatabaseException "Failed to save job" (Infrastructure JobsRemove));
  do w <- get;
  run put (set_jobs (filter (fun j => job_id j <> jid) (jobs w)) w);
  ret (bool_decide (jid ∈ job_id <$> jobs w)).

End JobsRepository.

(** ** The queue of the engine

    The part of BullMQ's [Queue] that [jobs.service.ts] calls.  [q_jobs] holds
    the jobs put there with [add], under their job id; [q_schedulers] holds the
    job schedulers under their key.  A job added under an id that is already
    in the queue is not added again.  [add] takes any delay: a job whose
    delay is not positive is due at once. *)

Module Bull.

Definition add (env : Env) (name : string) (data : Dictionary) (opts : JobsOptions)
  : M Job :=
  run guard env QueueAdd (Infrastructure QueueAdd);
  do w <- get;
  let job := mkJob (jobId opts) name data opts (now env) in
  run (match q_jobs (queue w) !! jobId opts with
       | Some _ => ret tt
       | None =>
           put (set_queue (mkQueue (<[jobId opts := job]> (q_jobs (queue w)))
                                   (q_schedulers (queue w))) w)
       end);
  ret job.

Definition getJob (env : Env) (jid : string) : M (option Job) :=
  run guard env QueueGetJob (Infrastructure QueueGetJob);
  do w <- get;
  ret (q_jobs (queue w) !! jid).

(** [job.remove()] *)
Definition remove (env : Env) (job : Job) : M unit :=
  run guard env QueueJobRemove (Infrastructure QueueJobRemove);
  modify (fun w => set_queue (mkQueue (delete (j_id job) (q_jobs (queue w)))
                                      (q_schedulers (queue w))) w).

(** [upsertJobScheduler(key, {pattern}, {name, data})] answers with the next
    job of the scheduler, of which the engine reads the name. *)
Definition upsertJobScheduler (env : Env) (k pat name : string) (data : Dictionary)
  : M Job :=
  run guard env QueueUpsertJobScheduler (Infrastructure QueueUpsertJobScheduler);
  run modify (fun w =>
        set_queue (mkQueue (q_jobs (queue w))
                           (<[k := mkScheduler k name pat data]>
                              (q_schedulers (queue w)))) w);
  ret (mkJob ("repeat:" +:+ k) name data (mkOpts 0 ("repeat:" +:+ k)) (now env)).

Definition getJobScheduler (env : Env) (k : string) : M (option JobScheduler) :=
  run guard env QueueGetJobScheduler (Infrastructure QueueGetJobScheduler);
  do w <- get;
  ret (q_schedulers (queue w) !! k).

Definition removeJobScheduler (env : Env) (k : string) : M bool :=
  run guard env QueueRemoveJobScheduler (Infrastructure QueueRemoveJobScheduler);
  do w <- get;
  run put (set_queue (mkQueue (q_jobs (queue w))
                              (delete k (q_schedulers (queue w)))) w);
  ret (bool_decide (is_Some (q_schedulers (queue w) !! k))).

End Bull.

(** ** The job execution engine ([jobs/src/jobs/jobs.service.ts]) *)

Module Engine.

(** [{...payload, ackEventName}] *)
Definition with_ack (payload : Dictionary) (ack : string) : Dictionary :=
  <["ackEventName" := ack]> payload.

Definition scheduleSingle (env : Env) (dto : JobScheduleSingleRequest) : M SingleJob :=
  let delay := ss_executionDate dto - now env in
  let id := singleUuid env in
  try_catch
    (do job <- Bull.add env (ss_name dto)
                 (with_ack (ss_payload dto) (ss_ackEventName dto))
                 {| delay := delay; jobId := id |};
     ret {| sj_executionDate := ss_executionDate dto;
            sj_id := or_else (j_id job) "no-id";
            sj_name := j_name job;
            sj_type := SINGLE |})
    (fun err => throw (JobException "error while scheduling single job" err id)).

Definition scheduleCron (env : Env) (dto : JobScheduleCronRequest) : M CronJob :=
  let scheudulerId := cronUuid env in
  try_catch
    (do job <- Bull.upsertJobScheduler env scheudulerId (sc_cron dto) (sc_name dto)
                 (with_ack (sc_payload dto) (sc_ackEventName dto));
     ret {| cj_type := CRON;
            cj_cron := sc_cron dto;
            cj_id := scheudulerId;
            cj_name := j_name job |})
    (fun err => throw (JobException "error while scheduling cron job" err scheudulerId)).

Definition rescheduleSingle (env : Env) (dto : JobRescheduleSingleRequest)
  : M SingleJob :=
  try_catch
    (do found <- Bull.getJob env (rs_id dto);
     match found with
     | None =>
         throw (Error "Cannot reschedule single job, because it does not exist")
     | Some job =>
         let newDelay := rs_executionDate dto - now env in
         if bool_decide (newDelay <= 0) then
           throw (Error "Cannot reschedule single job with date in the past")
         else
           run Bull.remove env job;
           run Bull.add env (j_name job) (j_data job)
                 {| delay := newDelay; jobId := jobId (j_opts job) |};
           ret {| sj_type := SINGLE;
                  sj_executionDate := rs_executionDate dto;
                  sj_id := or_else (j_id job) "no-id";
                  sj_name := j_name job |}
     end)
    (fun err =>
       throw (JobException "error while rescheduling single job" err (rs_id dto))).

Definition rescheduleCron (env : Env) (dto : JobRescheduleCronRequest) : M CronJob :=
  try_catch
    (do found <- Bull.getJobScheduler env (rc_id dto);
     match found with
     | None =>
         throw (Error ("Cannot reschedule cron job with id " +:+ rc_id dto
                       +:+ ", because it does not exist"))
     | Some jobScheduler =>
         run Bull.upsertJobScheduler env (key jobScheduler) (rc_cron dto)
               (s_name jobScheduler) (template_data jobScheduler);
         ret {| cj_type := CRON;
                cj_cron := rc_cron dto;
                cj_id := key jobScheduler;
                cj_name := s_name jobScheduler |}
     end)
    (fun err =>
       throw (JobException "error while rescheduling cron job" err (rc_id dto))).

Definition unscheduleSingle (env : Env) (jid : string) : M SingleJob :=
  try_catch
    (do found <- Bull.getJob env jid;
     match found with
     | None =>
         throw (Error "Cannot reschedule single job, because it does not exist")
     | Some job =>
         run Bull.remove env job;
         ret {| sj_type := SINGLE;
                sj_id := or_else (j_id job) "no-id";
                sj_name := j_name job;
                sj_executionDate := j_timestamp job + delay (j_opts job) |}
     end)
    (fun err => throw (JobException "error while unscheduling single job" err jid)).

Definition unscheduleCron (env : Env) (jid : string) : M CronJob :=
  try_catch
    (do found <- Bull.getJobScheduler env jid;
     match found with
     | None =>
         throw (Error "Cannot unschedule cron job, because it does not exist")
     | Some jobScheduler =>
         run Bull.removeJobScheduler env (key jobScheduler);
         ret {| cj_type := CRON;
                cj_cron := or_else (pattern jobScheduler) "no-pattern";
                cj_id := key jobScheduler;
                cj_name := s_name jobScheduler |}
     end)
    (fun err => throw (JobException "error while unscheduling cron job" err jid)).

End Engine.

(** ** The gRPC boundary of the engine ([jobs.controller.ts]) *)

Module JobsController.

Definition message_of (e : Exception) : string :=
  match e with
  | Error m | DatabaseException m _ | JobException m _ _ | RpcException m _ _ => m
  | _ => ""
  end.

(** Every method: call the service, rethrow a failure as an [RpcException]
    with code INTERNAL. *)
Definition rpc {A} (m : M A) : M A :=
  try_catch m (fun err => throw (RpcException (message_of err) INTERNAL err)).

Definition scheduleSingle env dto := rpc (Engine.scheduleSingle env dto).
Definition scheduleCron env dto := rpc (Engine.scheduleCron env dto).
Definition rescheduleSingle env dto := rpc (Engine.rescheduleSingle env dto).
Definition rescheduleCron env dto := rpc (Engine.rescheduleCron env dto).
Definition unscheduleSingle env jid := rpc (Engine.unscheduleSingle env jid).
Definition unscheduleCron env jid := rpc (Engine.unscheduleCron env jid).

End JobsController.

(** ** The job service facade ([schedules/src/jobs/jobs.service.ts]) *)

Module JobsService.

Definition scheduleSingle (env : Env) (payload : JobScheduleSingleRequest)
    (taskId : string) : M SingleJob :=
  do singleJob <- JobsController.scheduleSingle env payload;
  run JobsRepository.save env (sj_id singleJob) SINGLE taskId;
  ret singleJob.

Definition scheduleCron (env : Env) (payload : JobScheduleCronRequest)
    (taskId : string) : M CronJob :=
  do cronJob <- JobsController.scheduleCron env payload;
  run JobsRepository.save env (cj_id cronJob) CRON taskId;
  ret cronJob.

Definition rescheduleSingle (env : Env) (payload : JobRescheduleSingleRequest)
  : M SingleJob :=
  do singleJob <- JobsController.rescheduleSingle env payload;
  ret singleJob.

Definition rescheduleCron (env : Env) (payload : JobRescheduleCronRequest)
  : M CronJob :=
  do cronJob <- JobsController.rescheduleCron env payload;
  ret cronJob.

Definition unscheduleSingle (env : Env) (jid : string) : M SingleJob :=
  do singleJob <- JobsController.unscheduleSingle env jid;
  run JobsRepository.remove env (sj_id singleJob);
  ret singleJob.

Definition unscheduleCron (env : Env) (jid : string) : M CronJob :=
  do cronJob <- JobsController.unscheduleCron env jid;
  run JobsRepository.remove env (cj_id cronJob);
  ret cronJob.

Definition findByTaskId (env : Env) (taskId : string) : M (list DbJob) :=
  JobsRepository.findByTaskId env taskId.

End JobsService.

(** ** [TasksMapper.dbToDomain] *)

Module TasksMapper.
Definition dbToDomain (dbTask : DbTask) : Task :=
  {| t_id := id dbTask;
     t_name := name dbTask;
     t_description := description dbTask;
     t_status := status dbTask;
     t_dueTo := Iso <$> dueTo dbTask;
     t_repeat := repeat dbTask;
     t_userId := userId dbTask;
     t_priority := priority dbTask;
     t_fixed := fixed dbTask;
     t_startTime := startTime dbTask;
     t_endTime := endTime dbTask;
     t_createdAt := Iso (createdAt dbTask);
     t_updatedAt := Iso (updatedAt dbTask);
     t_scheduleId := scheduleId dbTask |}.
End TasksMapper.

(** ** [TasksService] ([tasks.service.ts]) *)

Module TasksService.

(** [{ taskId, taskName, userId }] *)
Definition job_payload (taskId taskName userId : string) : Dictionary :=
  <["taskId" := taskId]> (<["taskName" := taskName]> (<["userId" := userId]> ∅)).

(** [jobs.find((job) => job.type === type)] *)
Definition find_type (type : JobType) (jobs : list DbJob) : option DbJob :=
  head (filter (fun job => job_type job = type) jobs).

(** [x ? new Date(x) : alt] on a date string. *)
Definition truthy_date (f : field IsoString) : option Z :=
  match f with
  | Val (Iso ms) => Some ms
  | _ => None
  end.

(** [x ? ... : ...] on a string that may be null or undefined. *)
Definition truthy_opt (o : option string) : option string :=
  match o with
  | Some s => if truthy s then Some s else None
  | None => None
  end.
Definition truthy_string (f : field string) : option string :=
  truthy_opt (TasksRepository.or_null f).

Definition findOne (env : Env) (wh : TaskWhere) : M Task :=
  do dbTask <- TasksRepository.findOne env wh;
  match dbTask with
  | None => throw (TaskNotFoundException (w_id wh))
  | Some dbTask => ret (TasksMapper.dbToDomain dbTask)
  end.

Definition create (env : Env) (createDto : TaskCreateDto) : M Task :=
  do dbSchedule <- SchedulesRepository.findOne env (c_scheduleId createDto);
  match dbSchedule with
  | None => throw (ScheduleNotFoundException (c_scheduleId createDto))
  | Some _ =>
      do dbTask <- TasksRepository.create env createDto
                     (truthy_date (c_dueTo createDto));
      run (match dueTo dbTask with
           | Some due =>
               run JobsService.scheduleSingle env
                     {| ss_ackEventName := TaskEvent.DUE;
                        ss_executionDate := due;
                        ss_name := BrokerTask.SCHEDULE_SINGLE_JOB;
                        ss_payload := job_payload (id dbTask) (name dbTask)
                                        (userId dbTask) |}
                     (id dbTask);
               ret tt
           | None => ret tt
           end);
      run (match truthy_opt (repeat dbTask) with
           | Some cron =>
               run JobsService.scheduleCron env
                     {| sc_ackEventName := TaskEvent.REPEATED;
                        sc_cron := cron;
                        sc_name := BrokerTask.SCHEDULE_CRON_JOB;
                        sc_payload := job_payload (id dbTask) (name dbTask)
                                        (userId dbTask) |}
                     (id dbTask);
               ret tt
           | None => ret tt
           end);
      ret (TasksMapper.dbToDomain dbTask)
  end.

(** The [fields] object handed to [tasksRepository.update]. *)
Definition db_fields (fields : option TaskUpdateFields) : TasksUpdateFields :=
  match fields with
  | None => mkDbFields Undefined Undefined None Undefined None None
  | Some f =>
      {| df_description := f_description f;
         df_dueTo := match truthy_date (f_dueTo f) with
                     | Some ms => Val ms
                     | None => Undefined
                     end;
         df_name := f_name f;
         df_repeat := f_repeat f;
         df_scheduleId := f_scheduleId f;
         df_status := f_status f |}
  end.

(** [fields?.p] *)
Definition fields_dueTo (fields : option TaskUpdateFields) : field IsoString :=
  match fields with Some f => f_dueTo f | None => Undefined end.
Definition fields_repeat (fields : option TaskUpdateFields) : field string :=
  match fields with Some f => f_repeat f | None => Undefined end.
Definition fields_scheduleId (fields : option TaskUpdateFields) : option string :=
  match fields with Some f => f_scheduleId f | None => None end.

(** The four reconciliation steps of [update], each on the bindings read
    before the first of them. *)
Definition reconcile_dueTo_set (env : Env) (updatedTask : DbTask) (taskId : string)
    (fields : option TaskUpdateFields) (jobs : list DbJob) : M unit :=
  match truthy_date (fields_dueTo fields) with
  | Some due =>
      match find_type SINGLE jobs with
      | None =>
          run JobsService.scheduleSingle env
                {| ss_ackEventName := TaskEvent.DUE;
                   ss_executionDate := due;
                   ss_name := BrokerTask.SCHEDULE_SINGLE_JOB;
                   ss_payload := job_payload taskId (name updatedTask)
                                   (userId updatedTask) |}
                taskId;
          ret tt
      | Some job =>
          run JobsService.rescheduleSingle env
                {| rs_executionDate := due; rs_id := job_id job |};
          ret tt
      end
  | None => ret tt
  end.

Definition reconcile_dueTo_null (env : Env)
    (fields : option TaskUpdateFields) (jobs : list DbJob) : M unit :=
  match fields_dueTo fields with
  | Null =>
      match find_type SINGLE jobs with
      | Some job => run JobsService.unscheduleSingle env (job_id job); ret tt
      | None => ret tt
      end
  | _ => ret tt
  end.

Definition reconcile_repeat_set (env : Env) (updatedTask : DbTask) (taskId : string)
    (fields : option TaskUpdateFields) (jobs : list DbJob) : M unit :=
  match truthy_string (fields_repeat fields) with
  | Some cron =>
      match find_type CRON jobs with
      | None =>
          run JobsService.scheduleCron env
                {| sc_ackEventName := TaskEvent.REPEATED;
                   sc_cron := cron;
                   sc_name := BrokerTask.SCHEDULE_CRON_JOB;
                   sc_payload := job_payload taskId (name updatedTask)
                                   (userId updatedTask) |}
                taskId;
          ret tt
      | Some job =>
          run JobsService.rescheduleCron env
                {| rc_cron := cron; rc_id := job_id job |};
          ret tt
      end
  | None => ret tt
  end.

Definition reconcile_repeat_null (env : Env)
    (fields : option TaskUpdateFields) (jobs : list DbJob) : M unit :=
  match fields_repeat fields with
  | Null =>
      match find_type CRON jobs with
      | Some job => run JobsService.unscheduleCron env (job_id job); ret tt
      | None => ret tt
      end
  | _ => ret tt
  end.

Definition update (env : Env) (updateDto : TaskUpdateDto) : M Task :=
  let wh := u_where updateDto in
  let fields := u_fields updateDto in
  run (match fields_scheduleId fields with
       | Some sid =>
           if truthy sid then
             do dbSchedule <- SchedulesRepository.findOne env sid;
             match dbSchedule with
             | None => throw (ScheduleNotFoundException sid)
             | Some _ => ret tt
             end
           else ret tt
       | None => ret tt
       end);
  do updatedTask <- TasksRepository.update env wh (db_fields fields);
  match updatedTask with
  | None => throw (TaskNotFoundException (w_id wh))
  | Some updatedTask =>
      do jobs <- JobsService.findByTaskId env (w_id wh);
      run reconcile_dueTo_set env updatedTask (w_id wh) fields jobs;
      run reconcile_dueTo_null env fields jobs;
      run reconcile_repeat_set env updatedTask (w_id wh) fields jobs;
      run reconcile_repeat_null env fields jobs;
      ret (TasksMapper.dbToDomain updatedTask)
  end.

(** The two unscheduling steps of [remove]. *)
Definition unschedule_dueTo (env : Env) (task : DbTask) (jobs : list DbJob) : M unit :=
  match dueTo task, find_type SINGLE jobs with
  | Some _, Some job => run JobsService.unscheduleSingle env (job_id job); ret tt
  | _, _ => ret tt
  end.

Definition unschedule_repeat (env : Env) (task : DbTask) (jobs : list DbJob) : M unit :=
  match truthy_opt (repeat task), find_type CRON jobs with
  | Some _, Some job => run JobsService.unscheduleCron env (job_id job); ret tt
  | _, _ => ret tt
  end.

Definition remove (env : Env) (wh : TaskWhere) : M Task :=
  do task <- TasksRepository.findOne env wh;
  match task with
  | None => throw (TaskNotFoundException (w_id wh))
  | Some task =>
      do jobs <- JobsService.findByTaskId env (w_id wh);
      run unschedule_dueTo env task jobs;
      run unschedule_repeat env task jobs;
      run TasksRepository.remove env wh;
      ret (TasksMapper.dbToDomain task)
  end.

End TasksService.

(** ** [EventsService.publish] *)

Module EventsService.
(** Modelled from the spec: [events/events.service.ts] is not among the
    sources.  The spec has [publish(eventName, payload)] fire and forget:
    a failure is logged and never thrown back into the caller. *)
Definition publish (env : Env) (name : string) (p : TaskEventPayload) : M unit :=
  if fails env BrokerPublish then
    logger_error ("Failed to publish " +:+ name)
  else
    modify (fun w => set_bus (bus w ++ [mkEvent name p]) w).
End EventsService.

(** ** [TaskEventsController] ([events.controller.ts]) *)

Record TaskJobPayload : Type := mkJobPayload {
  p_taskId : string;
  p_taskName : string;
  p_userId : string
}.

Module TaskEventsController.

Definition status_fields (s : TaskStatus) : TaskUpdateFields :=
  {| f_name := None; f_description := Undefined; f_priority := None;
     f_fixed := None; f_dueTo := Undefined; f_repeat := Undefined;
     f_status := Some s; f_scheduleId := None;
     f_startTime := Undefined; f_endTime := Undefined |}.

Definition handleDue (env : Env) (payload : TaskJobPayload) : M unit :=
  try_catch
    (do task <- TasksService.findOne env (mkWhere (p_taskId payload) None);
     run (if bool_decide (t_status task = NOT_STARTED) ||
             bool_decide (t_status task = IN_PROGRESS)
          then
            run TasksService.update env
                  {| u_where := mkWhere (t_id task) (Some (t_userId task));
                     u_fields := Some (status_fields FAILED) |};
            ret tt
          else ret tt);
     EventsService.publish env TaskEvent.DUE
       {| ev_task_id := t_id task; ev_task_userId := t_userId task |})
    (fun err =>
       logger_error ("Failed to handle " +:+ TaskEvent.DUE +:+ " event, details: ")).

Definition handleRepetition (env : Env) (payload : TaskJobPayload) : M unit :=
  try_catch
    (do task <- TasksService.findOne env (mkWhere (p_taskId payload) None);
     run TasksService.update env
           {| u_where := mkWhere (t_id task) (Some (t_userId task));
              u_fields := Some (status_fields NOT_STARTED) |};
     EventsService.publish env TaskEvent.REPEATED
       {| ev_task_id := t_id task; ev_task_userId := t_userId task |})
    (fun err =>
       logger_error ("Failed to handle " +:+ TaskEvent.REPEATED +:+ " event, details: ")).

End TaskEventsController.

(** * Queries, the gRPC contract and the controller of the tasks

    The rest of the files above: [TasksRepository.find] and
    [TasksService.find], the mapper between the domain and the gRPC contract
    ([tasks.mapper.ts]), and the gRPC controller of the tasks
    ([tasks.controller.ts]). *)

(** ** [TasksRepository.find] ([tasks.repository.ts]) *)

(** [TasksOrderByFields], the columns that a query can be ordered by, and
    the two directions ['asc'] and ['desc']. *)
Inductive TasksOrderByFields : Type :=
  | by_createdAt | by_updatedAt | by_status | by_name | by_dueTo.
Inductive SortBy : Type := asc | desc.

Global Instance TasksOrderByFields_eq_dec : EqDecision TasksOrderByFields.
Proof. solve_decision. Defined.
Global Instance SortBy_eq_dec : EqDecision SortBy.
Proof. solve_decision. Defined.

(** [Status | Status[]] *)
Inductive StatusFilter : Type :=
  | OneStatus (s : TaskStatus)
  | StatusOf (l : list TaskStatus).

(** [DateTimeFilter], as [getTimestampFilter] reads it: a date-time string,
    or an object with the optional ends [start] and [end] of a range. *)
Inductive DateTimeFilter : Type :=
  | DateTime (value : IsoString)
  | DateTimeRange (start end_ : option IsoString).

(** The properties of [where] that [find] reads. *)
Record TasksFindWhere : Type := mkFindWhere {
  fw_name : option string;
  fw_id : option string;
  fw_userId : option string;
  fw_status : option StatusFilter;
  fw_dueTo : option DateTimeFilter;
  fw_repeat : field string;
  fw_createdAt : option DateTimeFilter;
  fw_updatedAt : option DateTimeFilter;
  fw_scheduleId : option string
}.

(** [TasksFindOptions = FindOptions<..., TasksOrderByFields>] *)
Record TasksFindOptions : Type := mkFindOptions {
  fo_limit : option Z;
  fo_page : option Z;
  fo_orderBy : option TasksOrderByFields;
  fo_sortBy : option SortBy;
  fo_where : option TasksFindWhere
}.

(** What a query takes from outside the table: the two default ends of a
    range, [new Date(getDefaultStartDateString())] (the start of today in the
    time zone of the process) and [new Date(getDefaultEndDateString())] (the
    end of the day seven days later); the order in which the database hands
    out the rows selected, for a column and a direction; and the error with
    which the statement fails, if it does. *)
Record Query : Type := mkQuery {
  defaultStartDate : Z;
  defaultEndDate : Z;
  ordered : TasksOrderByFields -> SortBy -> list DbTask -> list DbTask;
  select_error : option Exception
}.

Inductive TimestampColumn : Type := col_createdAt | col_updatedAt | col_dueTo.

Module TasksRepository'.

(** A condition of the query, [SQL | undefined]. *)
Definition Filter : Type := option (DbTask -> bool).

(** [tasksTable[column]]: [dueTo] can be null. *)
Definition value_of (column : TimestampColumn) (t : DbTask) : option Z :=
  match column with
  | col_createdAt => Some (createdAt t)
  | col_updatedAt => Some (updatedAt t)
  | col_dueTo => dueTo t
  end.

Definition getStatusFilter (status_ : option StatusFilter) : Filter :=
  match status_ with
  | Some (StatusOf l) => Some (fun t => bool_decide (status t ∈ l))
  | Some (OneStatus s) => Some (fun t => bool_decide (status t = s))
  | None => None
  end.

(** [value.start ? new Date(value.start) : defaultStartDate] *)
Definition date_or (d : Z) (s : option IsoString) : Z :=
  match s with
  | Some (Iso ms) => ms
  | _ => d
  end.

(** A comparison with a column that is null holds for no value. *)
Definition getTimestampFilter (q : Query) (column : TimestampColumn)
    (value : option DateTimeFilter) : Filter :=
  match value with
  | Some (DateTime (Iso ms)) =>
      Some (fun t => bool_decide (value_of column t = Some ms))
  | Some (DateTime IsoEmpty) => None
  | Some (DateTimeRange start end_) =>
      Some (fun t =>
              match value_of column t with
              | Some c => bool_decide (date_or (defaultStartDate q) start <= c) &&
                          bool_decide (c <= date_or (defaultEndDate q) end_)
              | None => false
              end)
  | None => None
  end.

(** [x ? eq(column, x) : undefined] on a string. *)
Definition eq_if_truthy (column : DbTask -> string) (x : option string) : Filter :=
  match TasksService.truthy_opt x with
  | Some v => Some (fun t => bool_decide (column t = v))
  | None => None
  end.

(** [and(f1, ..., fn)]: every condition that is defined holds. *)
Definition and_ (filters : list Filter) (t : DbTask) : bool :=
  forallb (fun f => match f with Some p => p t | None => true end) filters.

(** The condition of [find]. *)
Definition condition (q : Query) (where_ : option TasksFindWhere) : DbTask -> bool :=
  let name_ := where_ ≫= fw_name in
  let id_ := where_ ≫= fw_id in
  let userId_ := where_ ≫= fw_userId in
  let status_ := where_ ≫= fw_status in
  let dueTo_ := where_ ≫= fw_dueTo in
  let repeat_ := TasksService.truthy_string
                   (match where_ with Some wh => fw_repeat wh | None => Undefined end) in
  let createdAt_ := where_ ≫= fw_createdAt in
  let updatedAt_ := where_ ≫= fw_updatedAt in
  let scheduleId_ := where_ ≫= fw_scheduleId in
  let dueToFilter := getTimestampFilter q col_dueTo dueTo_ in
  let createdAtFilter := getTimestampFilter q col_createdAt createdAt_ in
  let updatedAtFilter := getTimestampFilter q col_updatedAt updatedAt_ in
  let statusFilter := getStatusFilter status_ in
  and_ [ eq_if_truthy name name_;
         eq_if_truthy id id_;
         eq_if_truthy userId userId_;
         statusFilter;
         dueToFilter;
         match repeat_ with
         | Some v => Some (fun t => bool_decide (repeat t = Some v))
         | None => None
         end;
         eq_if_truthy scheduleId scheduleId_;
         createdAtFilter;
         updatedAtFilter ].

(** [select().from(tasksTable).where(...).limit(limit).offset(page * limit)
    .orderBy(...)]: the rows selected are ordered, then [page * limit] of them
    are skipped and at most [limit] returned.  The database refuses a
    negative limit and a negative offset. *)
Definition find (q : Query) (options : TasksFindOptions) : M (list DbTask) :=
  let limit := default 100 (fo_limit options) in
  let page := default 0 (fo_page options) in
  let orderBy := default by_createdAt (fo_orderBy options) in
  let sortBy := default desc (fo_sortBy options) in
  let where_ := fo_where options in
  try_catch
    (match select_error q with
     | Some err => throw err
     | None =>
         if bool_decide (limit < 0) then
           throw (Error "LIMIT must not be negative")
         else if bool_decide (page * limit < 0) then
           throw (Error "OFFSET must not be negative")
         else
           do w <- get;
           let selected := filter (fun t => condition q where_ t = true) (tasks w) in
           ret (take (Z.to_nat limit)
                  (drop (Z.to_nat (page * limit)) (ordered q orderBy sortBy selected)))
     end)
    (fun err => throw (DatabaseException "Failed to find tasks" err)).

End TasksRepository'.

(** ** [TasksService.find] ([tasks.service.ts]) *)

(** [TasksFindDto]: the paging and the order are the properties of its
    [options]. *)
Record TasksFindDtoOptions : Type := mkFindDtoOptions {
  fdo_limit : option Z;
  fdo_page : option Z;
  fdo_orderBy : option TasksOrderByFields;
  fdo_sortBy : option SortBy
}.

Record TasksFindDto : Type := mkFindDto {
  fd_options : option TasksFindDtoOptions;
  fd_where : option TasksFindWhere
}.

Module TasksService'.

(** [tasksRepository.find(findDto)] hands the dto itself to the repository,
    which reads the properties [limit], [page], [orderBy], [sortBy] and
    [where] of its argument.  A dto has the property [where]; it has no
    property [limit], [page], [orderBy] or [sortBy] (they are inside its
    property [options]), so the repository reads undefined for these. *)
Definition as_options (findDto : TasksFindDto) : TasksFindOptions :=
  {| fo_limit := None;
     fo_page := None;
     fo_orderBy := None;
     fo_sortBy := None;
     fo_where := fd_where findDto |}.

Definition find (q : Query) (findDto : TasksFindDto) : M (list Task) :=
  do dbTasks <- TasksRepository'.find q (as_options findDto);
  ret (TasksMapper.dbToDomain <$> dbTasks).

End TasksService'.

(** ** The gRPC contract of the tasks ([contracts], [tasks.ts]) *)

(** The enums of the contract are numeric; a member is falsy when its number
    is 0. *)
Module ClientTaskStatus.
Inductive t : Type := NOT_STARTED | IN_PROGRESS | DONE | FAILED.
Definition value (s : t) : Z :=
  match s with NOT_STARTED => 0 | IN_PROGRESS => 1 | DONE => 2 | FAILED => 3 end.
End ClientTaskStatus.

Module TasksOrderBy.
Inductive t : Type := NAME | CREATED_AT | UPDATED_AT | DUE_TO | STATUS.
Definition value (o : t) : Z :=
  match o with
  | NAME => 0 | CREATED_AT => 1 | UPDATED_AT => 2 | DUE_TO => 3 | STATUS => 4
  end.
End TasksOrderBy.

(** [SortType] of the common contract, of which the mappers name the
    members [ASC] and [DESC]. *)
Module SortType.
Inductive t : Type := ASC | DESC.
End SortType.

Global Instance ClientTaskStatus_eq_dec : EqDecision ClientTaskStatus.t.
Proof. solve_decision. Defined.
Global Instance TasksOrderBy_eq_dec : EqDecision TasksOrderBy.t.
Proof. solve_decision. Defined.
Global Instance SortType_eq_dec : EqDecision SortType.t.
Proof. solve_decision. Defined.

(** Truthiness of a number. *)
Definition truthy_number (n : Z) : bool := negb (Z.eqb n 0).

(** The [Task] of the contract: the strings that are nullable in the domain
    are plain strings here. *)
Record ClientTask : Type := mkClientTask {
  ct_id : string;
  ct_userId : string;
  ct_scheduleId : string;
  ct_name : string;
  ct_description : string;
  ct_dueTo : IsoString;
  ct_repeat : string;
  ct_status : ClientTaskStatus.t;
  ct_createdAt : IsoString;
  ct_updatedAt : IsoString;
  ct_priority : Z;
  ct_fixed : bool;
  ct_startTime : option string;
  ct_endTime : option string
}.

Record ClientFindOptions : Type := mkClientFindOptions {
  cfo_limit : option Z;
  cfo_page : option Z;
  cfo_orderBy : option TasksOrderBy.t;
  cfo_sortBy : option SortType.t
}.

Record ClientFindWhere : Type := mkClientFindWhere {
  cfw_userId : option string
}.

Record TasksFindRequest : Type := mkFindRequest {
  fr_options : option ClientFindOptions;
  fr_where : option ClientFindWhere
}.

Record TaskCreateRequest : Type := mkCreateRequest {
  cr_userId : string;
  cr_scheduleId : string;
  cr_name : string;
  cr_description : field string;
  cr_dueTo : field IsoString;
  cr_repeat : field string;
  cr_status : option ClientTaskStatus.t;
  cr_priority : option Z;
  cr_fixed : option bool;
  cr_startTime : field string;
  cr_endTime : field string
}.

(** [UpdateFields] of the contract: [description], [dueTo] and [repeat] are
    strings or absent, never null. *)
Record ClientUpdateFields : Type := mkClientUpdateFields {
  cuf_name : option string;
  cuf_description : option string;
  cuf_scheduleId : option string;
  cuf_dueTo : option IsoString;
  cuf_repeat : option string;
  cuf_status : option ClientTaskStatus.t;
  cuf_priority : option Z;
  cuf_fixed : option bool;
  cuf_startTime : field string;
  cuf_endTime : field string
}.

Record TaskUpdateRequest : Type := mkUpdateRequest {
  ur_where : TaskWhere;
  ur_fields : option ClientUpdateFields
}.

(** ** [TasksMapper] ([tasks.mapper.ts]) *)

Module TasksMapper'.

Definition clientOrderByToDomain (clientOrderBy : TasksOrderBy.t) : TasksOrderByFields :=
  match clientOrderBy with
  | TasksOrderBy.NAME => by_name
  | TasksOrderBy.CREATED_AT => by_createdAt
  | TasksOrderBy.UPDATED_AT => by_updatedAt
  | TasksOrderBy.DUE_TO => by_dueTo
  | TasksOrderBy.STATUS => by_status
  end.

Definition domainOrderByToClient (orderBy : TasksOrderByFields) : TasksOrderBy.t :=
  match orderBy with
  | by_name => TasksOrderBy.NAME
  | by_createdAt => TasksOrderBy.CREATED_AT
  | by_status => TasksOrderBy.STATUS
  | by_dueTo => TasksOrderBy.DUE_TO
  | by_updatedAt => TasksOrderBy.UPDATED_AT
  end.

Definition domainToClientStatus (status_ : TaskStatus) : ClientTaskStatus.t :=
  match status_ with
  | NOT_STARTED => ClientTaskStatus.NOT_STARTED
  | IN_PROGRESS => ClientTaskStatus.IN_PROGRESS
  | DONE => ClientTaskStatus.DONE
  | FAILED => ClientTaskStatus.FAILED
  end.

Definition clientToDomainStatus (clientStatus : ClientTaskStatus.t) : TaskStatus :=
  match clientStatus with
  | ClientTaskStatus.NOT_STARTED => NOT_STARTED
  | ClientTaskStatus.IN_PROGRESS => IN_PROGRESS
  | ClientTaskStatus.DONE => DONE
  | ClientTaskStatus.FAILED => FAILED
  end.

(** [s?.length === 0 ? null : s] on a string of the contract. *)
Definition null_if_empty (s : string) : option string :=
  if bool_decide (String.length s = 0%nat) then None else Some s.
Definition null_if_empty_date (s : IsoString) : option IsoString :=
  match s with
  | IsoEmpty => None
  | Iso ms => Some (Iso ms)
  end.

Definition clientToDomain (clientTask : ClientTask) : Task :=
  {| t_id := ct_id clientTask;
     t_name := ct_name clientTask;
     t_description := null_if_empty (ct_description clientTask);
     t_status := clientToDomainStatus (ct_status clientTask);
     t_dueTo := null_if_empty_date (ct_dueTo clientTask);
     t_repeat := null_if_empty (ct_repeat clientTask);
     t_userId := ct_userId clientTask;
     t_priority := ct_priority clientTask;
     t_fixed := ct_fixed clientTask;
     t_startTime := ct_startTime clientTask;
     t_endTime := ct_endTime clientTask;
     t_createdAt := ct_createdAt clientTask;
     t_updatedAt := ct_updatedAt clientTask;
     t_scheduleId := ct_scheduleId clientTask |}.

(** [x === null ? '' : x] *)
Definition domainToClient (task : Task) : ClientTask :=
  {| ct_id := t_id task;
     ct_userId := t_userId task;
     ct_scheduleId := t_scheduleId task;
     ct_name := t_name task;
     ct_description := default "" (t_description task);
     ct_dueTo := default IsoEmpty (t_dueTo task);
     ct_repeat := default "" (t_repeat task);
     ct_status := domainToClientStatus (t_status task);
     ct_createdAt := t_createdAt task;
     ct_updatedAt := t_updatedAt task;
     ct_priority := t_priority task;
     ct_fixed := t_fixed task;
     ct_startTime := Some (default "" (t_startTime task));
     ct_endTime := Some (default "" (t_endTime task)) |}.

(** [request?.options?.orderBy ? clientOrderByToDomain(...) : undefined] *)
Definition orderBy_of_request (o : option TasksOrderBy.t) : option TasksOrderByFields :=
  match o with
  | Some ob =>
      if truthy_number (TasksOrderBy.value ob) then Some (clientOrderByToDomain ob)
      else None
  | None => None
  end.

Definition findRequestToFindDto (request : option TasksFindRequest) : TasksFindDto :=
  let options := request ≫= fr_options in
  {| fd_options :=
       Some {| fdo_limit := options ≫= cfo_limit;
               fdo_orderBy := orderBy_of_request (options ≫= cfo_orderBy);
               fdo_page := options ≫= cfo_page;
               fdo_sortBy :=
                 Some (if bool_decide (options ≫= cfo_sortBy = Some SortType.ASC)
                       then asc else desc) |};
     fd_where :=
       Some {| fw_name := None; fw_id := None;
               fw_userId := (request ≫= fr_where) ≫= cfw_userId;
               fw_status := None; fw_dueTo := None; fw_repeat := Undefined;
               fw_createdAt := None; fw_updatedAt := None;
               fw_scheduleId := None |} |}.

(** The properties of the [where] of a dto other than [userId] do not reach
    the request. *)
Definition findDtoToFindRequest (dto : option TasksFindDto) : TasksFindRequest :=
  let options := dto ≫= fd_options in
  {| fr_options :=
       Some {| cfo_limit := options ≫= fdo_limit;
               cfo_orderBy := domainOrderByToClient <$> (options ≫= fdo_orderBy);
               cfo_sortBy :=
                 Some (if bool_decide (options ≫= fdo_sortBy = Some asc)
                       then SortType.ASC else SortType.DESC);
               cfo_page := options ≫= fdo_page |};
     fr_where := Some {| cfw_userId := (dto ≫= fd_where) ≫= fw_userId |} |}.

(** [status || ClientTaskStatus.NOT_STARTED] *)
Definition status_or_NOT_STARTED (s : option ClientTaskStatus.t) : ClientTaskStatus.t :=
  match s with
  | Some s => if truthy_number (ClientTaskStatus.value s) then s
              else ClientTaskStatus.NOT_STARTED
  | None => ClientTaskStatus.NOT_STARTED
  end.

Definition createRequestToCreateDto (request : TaskCreateRequest) : TaskCreateDto :=
  {| c_name := cr_name request;
     c_scheduleId := cr_scheduleId request;
     c_userId := cr_userId request;
     c_description := cr_description request;
     c_status := Some (clientToDomainStatus (status_or_NOT_STARTED (cr_status request)));
     c_dueTo := cr_dueTo request;
     c_repeat := cr_repeat request;
     c_priority := cr_priority request;
     c_fixed := cr_fixed request;
     c_startTime := cr_startTime request;
     c_endTime := cr_endTime request |}.

(** A property that is absent or a string. *)
Definition optional {A} (o : option A) : field A :=
  match o with
  | Some a => Val a
  | None => Undefined
  end.

(** [{...request, fields: {...request.fields, status: ..., ...}}]: the dto
    always has [fields], and its [fields] always have a [status]. *)
Definition updateRequestToUpdateDto (request : TaskUpdateRequest) : TaskUpdateDto :=
  let fields := ur_fields request in
  {| u_where := ur_where request;
     u_fields :=
       Some {| f_name := fields ≫= cuf_name;
               f_description := optional (fields ≫= cuf_description);
               f_priority := fields ≫= cuf_priority;
               f_fixed := fields ≫= cuf_fixed;
               f_dueTo := optional (fields ≫= cuf_dueTo);
               f_repeat := optional (fields ≫= cuf_repeat);
               f_status :=
                 Some (clientToDomainStatus
                         (status_or_NOT_STARTED (fields ≫= cuf_status)));
               f_scheduleId := fields ≫= cuf_scheduleId;
               f_startTime :=
                 match fields with Some f => cuf_startTime f | None => Undefined end;
               f_endTime :=
                 match fields with Some f => cuf_endTime f | None => Undefined end |} |}.

End TasksMapper'.

(** ** [TasksController] ([tasks.controller.ts]) *)

(** The exceptions that leave the controller. *)
Inductive GrpcException : Type :=
  | GrpcNotFoundException (message : string)
  | GrpcInternalException (message : string) (cause : Exception).

(** What a method of the controller ends with. *)
Inductive Reply (A : Type) : Type :=
  | Answer (a : A)
  | Failure (e : GrpcException).
Arguments Answer {A} a.
Arguments Failure {A} e.

Module TasksController.

(** [try { return f(await m) } catch (err) { throw h(err) }] *)
Definition respond {A B} (m : M A) (f : A -> B) (h : Exception -> GrpcException)
    (w : World) : Reply B * World :=
  match m w with
  | (Ok a, w') => (Answer (f a), w')
  | (Throw err, w') => (Failure (h err), w')
  end.

Definition find (q : Query) (payload : option TasksFindRequest)
  : World -> Reply (list ClientTask) * World :=
  respond (TasksService'.find q (TasksMapper'.findRequestToFindDto payload))
    (fun tasks_ => TasksMapper'.domainToClient <$> tasks_)
    (fun err => GrpcInternalException "unknown error occured while finding tasks" err).

Definition findOne (env : Env) (payload : TaskWhere)
  : World -> Reply ClientTask * World :=
  respond (TasksService.findOne env payload) TasksMapper'.domainToClient
    (fun err =>
       match err with
       | TaskNotFoundException _ => GrpcNotFoundException "task not found"
       | _ => GrpcInternalException "unknown error occured while finding one task" err
       end).

Definition create (env : Env) (payload : TaskCreateRequest)
  : World -> Reply ClientTask * World :=
  respond (TasksService.create env (TasksMapper'.createRequestToCreateDto payload))
    TasksMapper'.domainToClient
    (fun err =>
       match err with
       | ScheduleNotFoundException _ => GrpcNotFoundException "schedule not found"
       | _ => GrpcInternalException "unknown error occured while creating task" err
       end).

Definition update (env : Env) (payload : TaskUpdateRequest)
  : World -> Reply ClientTask * World :=
  respond (TasksService.update env (TasksMapper'.updateRequestToUpdateDto payload))
    TasksMapper'.domainToClient
    (fun err =>
       match err with
       | TaskNotFoundException _ => GrpcNotFoundException "task not found"
       | ScheduleNotFoundException _ => GrpcNotFoundException "schedule not found"
       | _ => GrpcInternalException "unknown error occured while updating task" err
       end).

Definition remove (env : Env) (payload : TaskWhere)
  : World -> Reply ClientTask * World :=
  respond (TasksService.remove env payload) TasksMapper'.domainToClient
    (fun err =>
       match err with
       | TaskNotFoundException _ => GrpcNotFoundException "task not found"
       | _ => GrpcInternalException "unknown error occured while updating schedule" err
       end).

End TasksController.

(** * Specifications

    The predicates, the sample data and the second definitions that the
    theorems below are stated with. *)

(** ** Outcomes and invariants of a method *)

(** [wp m Q w]: run from [w], the method [m] ends, with a value or an
    exception, in a result and a world that satisfy [Q]. *)
Definition wp {A} (m : M A) (Q : Res A -> World -> Prop) (w : World) : Prop :=
  Q (m w).1 (m w).2.

(** [preserves I m]: started in a world that satisfies [I], the method [m]
    ends in one that does, whether it returns or throws. *)
Definition preserves {A} (I : World -> Prop) (m : M A) : Prop :=
  forall w, I w -> wp m (fun _ w' => I w') w.

Class JobQueueBlind (I : World -> Prop) : Prop :=
  job_queue_blind : forall m w,
    I w -> I (set_queue (mkQueue m (q_schedulers (queue w))) w).
Class SchedulersBlind (I : World -> Prop) : Prop :=
  schedulers_blind : forall m w,
    I w -> I (set_queue (mkQueue (q_jobs (queue w)) m) w).
Class JobsBlind (I : World -> Prop) : Prop :=
  jobs_blind : forall js w, I w -> I (set_jobs js w).
Class TasksBlind (I : World -> Prop) : Prop :=
  tasks_blind : forall ts w, I w -> I (set_tasks ts w).

(** ** Environments *)

(** A healthy environment: no call fails. *)
Definition healthy (env : Env) : Prop := forall site, fails env site = false.

(** The environment in which the update of a task row fails. *)
Definition update_fails (env : Env) : Env :=
  {| now := now env; taskUuid := taskUuid env; singleUuid := singleUuid env;
     cronUuid := cronUuid env;
     fails := fun site => if decide (site = TasksUpdate) then true else fails env site |}.

(** ** The engine *)

(** The queue keeps every job under its own id, which is also the [jobId]
    of its options, and every scheduler under its own key. *)
Definition queue_wf (q : Queue) : Prop :=
  map_Forall (fun k job => j_id job = k /\ jobId (j_opts job) = k) (q_jobs q) /\
  map_Forall (fun k s => key s = k) (q_schedulers q).

Module EngineSpec.

(** The two failures of [rescheduleSingle] the spec names; the code raises
    both as a [JobException] and tells them apart by its cause. *)
Definition JobNotFoundError (jid : string) : Exception :=
  JobException "error while rescheduling single job"
    (Error "Cannot reschedule single job, because it does not exist") jid.
Definition InvalidScheduleError (jid : string) : Exception :=
  JobException "error while rescheduling single job"
    (Error "Cannot reschedule single job with date in the past") jid.

(** The same logical job, fired after [d] milliseconds from [t]. *)
Definition delayed (d t : Z) (job : Job) : Job :=
  {| j_id := j_id job;
     j_name := j_name job;
     j_data := j_data job;
     j_opts := {| delay := d; jobId := jobId (j_opts job) |};
     j_timestamp := t |}.

(** [rescheduleSingle] as the spec words it. *)
Definition rescheduleSingle (env : Env) (dto : JobRescheduleSingleRequest)
    (w : World) : Res SingleJob * World :=
  match q_jobs (queue w) !! rs_id dto with
  | None => (Throw (JobNotFoundError (rs_id dto)), w)
  | Some job =>
      if bool_decide (rs_executionDate dto <= now env) then
        (Throw (InvalidScheduleError (rs_id dto)), w)
      else
        (Ok {| sj_id := rs_id dto;
               sj_name := j_name job;
               sj_executionDate := rs_executionDate dto;
               sj_type := SINGLE |},
         set_queue
           (mkQueue (<[rs_id dto := delayed (rs_executionDate dto - now env)
                                      (now env) job]> (q_jobs (queue w)))
                    (q_schedulers (queue w))) w)
  end.

End EngineSpec.

(** The reading of C5 in which the request identifies the recurring job: a
    second call with the same request adds no recurring job. *)
Definition scheduleCron_keyed_by_caller : Prop :=
  forall env1 env2 dto w,
    healthy env1 -> healthy env2 ->
    let w1 := (Engine.scheduleCron env1 dto w).2 in
    let w2 := (Engine.scheduleCron env2 dto w1).2 in
    size (q_schedulers (queue w2)) = size (q_schedulers (queue w1)).

(** ** Sample data *)

Module Sample.

(** A healthy environment at time 1000. *)
Definition env : Env :=
  {| now := 1000; taskUuid := "t1"; singleUuid := "j1"; cronUuid := "c1";
     fails := fun _ => false |}.

(** The same, a little later and with other uuids. *)
Definition env' : Env :=
  {| now := 2000; taskUuid := "t2"; singleUuid := "j2"; cronUuid := "c2";
     fails := fun _ => false |}.

Definition empty : World :=
  {| tasks := []; schedules := ["s1"]; jobs := [];
     queue := mkQueue ∅ ∅; bus := []; errors := [] |}.

(** A task due at 5000 that repeats. *)
Definition dto : TaskCreateDto :=
  {| c_name := "water the plants"; c_scheduleId := "s1"; c_userId := "u1";
     c_description := Undefined; c_status := None;
     c_dueTo := Val (Iso 5000); c_repeat := Val "0 8 * * *";
     c_priority := None; c_fixed := None;
     c_startTime := Undefined; c_endTime := Undefined |}.

(** The world after that task has been created. *)
Definition created : World := Eval vm_compute in (TasksService.create env dto empty).2.

Definition with_dueTo (d : field IsoString) : TaskUpdateFields :=
  {| f_name := None; f_description := Undefined; f_priority := None;
     f_fixed := None; f_dueTo := d; f_repeat := Undefined;
     f_status := None; f_scheduleId := None;
     f_startTime := Undefined; f_endTime := Undefined |}.

End Sample.

(** ** The event handlers *)

(** The bus and the error log are as given. *)
Definition bus_is (b : list BusEvent) (e : list string) (w : World) : Prop :=
  bus w = b /\ errors w = e.

(** A row with a new status, touched at time [at_]. *)
Definition with_status (s : TaskStatus) (at_ : Z) (t : DbTask) : DbTask :=
  {| id := id t; name := name t; description := description t;
     status := s;
     dueTo := dueTo t; repeat := repeat t; userId := userId t;
     priority := priority t; fixed := fixed t;
     startTime := startTime t; endTime := endTime t;
     createdAt := createdAt t;
     updatedAt := at_;
     scheduleId := scheduleId t |}.

(** The rows after the row(s) selected by [wh] got the status [s]. *)
Definition transition (wh : TaskWhere) (s : TaskStatus) (at_ : Z)
    (ts : list DbTask) : list DbTask :=
  (fun t => if TasksRepository.matches wh t then with_status s at_ t else t) <$> ts.

Definition status_update (task : Task) (s : TaskStatus) : TaskUpdateDto :=
  {| u_where := mkWhere (t_id task) (Some (t_userId task));
     u_fields := Some (TaskEventsController.status_fields s) |}.

Definition due_failure : string :=
  "Failed to handle " +:+ TaskEvent.DUE +:+ " event, details: ".
Definition repeated_failure : string :=
  "Failed to handle " +:+ TaskEvent.REPEATED +:+ " event, details: ".

(** ** The two tables and the bindings of a task *)

(** The job store is [js] and the schedulers of the queue are [m]. *)
Definition store_is (js : list DbJob) (m : gmap string JobScheduler) (w : World) : Prop :=
  jobs w = js /\ q_schedulers (queue w) = m.

(** The job store is [js]. *)
Definition jobs_are (js : list DbJob) (w : World) : Prop := jobs w = js.

(** The bindings of a task in the job store: what [findByTaskId] returns. *)
Definition task_jobs (taskId : string) (w : World) : list DbJob :=
  filter (fun j => job_taskId j = taskId) (jobs w).

(** The column [dueTo] of the table is [l]. *)
Definition dueTo_column_is (l : list (option Z)) (w : World) : Prop :=
  dueTo <$> tasks w = l.

(** Every row of the table [tasks] satisfies [P]. *)
Definition rows_satisfy (P : DbTask -> Prop) (w : World) : Prop :=
  Forall P (tasks w).

(** Neither the job store nor the queue of the engine has changed. *)
Definition jobs_untouched (js : list DbJob) (q : Queue) (w : World) : Prop :=
  jobs w = js /\ queue w = q.

(** The bindings of one type that a task has in the job store. *)
Definition bindings (type : JobType) (taskId : string) (w : World) : list DbJob :=
  filter (fun j => job_type j = type) (task_jobs taskId w).

(** A binding that [remove] can unschedule: the column of the task that
    gave rise to it is set, and the engine has its job under its id. *)
Definition binding_live (task : DbTask) (q : Queue) (b : DbJob) : Prop :=
  match job_type b with
  | SINGLE =>
      is_Some (dueTo task) /\ job_id b <> "" /\
      exists job, q_jobs q !! job_id b = Some job /\ j_id job = job_id b
  | CRON =>
      is_Some (TasksService.truthy_opt (repeat task)) /\
      exists s, q_schedulers q !! job_id b = Some s /\ key s = job_id b
  end.

(** The engine has the job of a binding under its id; the columns of the
    task are not looked at. *)
Definition binding_held (q : Queue) (b : DbJob) : Prop :=
  match job_type b with
  | SINGLE =>
      job_id b <> "" /\
      exists job, q_jobs q !! job_id b = Some job /\ j_id job = job_id b
  | CRON => exists s, q_schedulers q !! job_id b = Some s /\ key s = job_id b
  end.




(** The rows of the table [tasks] are [ts]. *)
Definition tasks_are (ts : list DbTask) (w : World) : Prop := tasks w = ts.

(** ** The invariant of the job store *)

(** No task has two bindings of one type. *)
Definition unique_bindings (w : World) : Prop :=
  forall type taskId, (length (bindings type taskId w) <= 1)%nat.

(** The foreign key of the table [jobs]: every binding is of a task that
    exists. *)
Definition foreign_keys (w : World) : Prop :=
  forall j, j ∈ jobs w -> job_taskId j ∈ id <$> tasks w.

Definition store_ok (w : World) : Prop := unique_bindings w /\ foreign_keys w.

(** The invariant, and no binding of [type] for [taskId] if [C] holds. *)
Definition store_ok_and (type : JobType) (taskId : string) (C : Prop) (w : World) : Prop :=
  store_ok w /\ (C -> bindings type taskId w = []).

(** The two tables are as given. *)
Definition db_is (ts : list DbTask) (js : list DbJob) (w : World) : Prop :=
  tasks w = ts /\ jobs w = js.

(** ** Sequences of operations *)

Inductive Operation : Type :=
  | Create (createDto : TaskCreateDto)
  | Update (updateDto : TaskUpdateDto)
  | Remove (where_ : TaskWhere).

(** The world after one operation, whether it returned or threw. *)
Definition step (env : Env) (op : Operation) (w : World) : World :=
  match op with
  | Create createDto => (TasksService.create env createDto w).2
  | Update updateDto => (TasksService.update env updateDto w).2
  | Remove where_ => (TasksService.remove env where_ w).2
  end.

(** The worlds seen between the operations of a sequence of calls. *)
Fixpoint history (calls : list (Env * Operation)) (w : World) : list World :=
  match calls with
  | [] => []
  | (env, op) :: calls => step env op w :: history calls (step env op w)
  end.

(** ** The gRPC boundary of the engine *)

(** A call of the controller of the engine returns, or throws an
    [RpcException] with the code INTERNAL and the message [message], caused by
    a [JobException] with the same message. *)
Definition controller_failure {A} (message : string) (r : Res A) : Prop :=
  match r with
  | Ok _ => True
  | Throw e =>
      exists cause jid, e = RpcException message INTERNAL (JobException message cause jid)
  end.

(** ** More sample data *)

(** The world after the task of the sample has been created and the engine
    has lost its queue. *)
Definition queue_lost : World := set_queue (mkQueue ∅ ∅) Sample.created.

(** ** What an operation does to the rows of the table [tasks] *)

(** The rows after [update] has written: the rows selected are patched. *)
Definition updated (env : Env) (dto : TaskUpdateDto) (ts : list DbTask) : list DbTask :=
  (fun t => if TasksRepository.matches (u_where dto) t
            then TasksRepository.set_fields env (TasksService.db_fields (u_fields dto)) t
            else t) <$> ts.

(** The columns that no [update] writes. *)
Definition same_fixed_columns (t t' : DbTask) : Prop :=
  id t' = id t /\ userId t' = userId t /\ createdAt t' = createdAt t /\
  priority t' = priority t /\ fixed t' = fixed t /\
  startTime t' = startTime t /\ endTime t' = endTime t.

(** The rows of the users other than [u]. *)
Definition rows_of_others (u : string) (w : World) : list DbTask :=
  filter (fun t => userId t <> u) (tasks w).

(** An operation that the user [u] asks for: the task created is theirs,
    the task to update or to remove is selected with their id. *)
Definition acts_for (u : string) (op : Operation) : Prop :=
  match op with
  | Create createDto => c_userId createDto = u
  | Update updateDto => w_userId (u_where updateDto) = Some u
  | Remove where_ => w_userId where_ = Some u
  end.

(** ** What the event handlers can reach *)

(** From [w] to [w'], nothing but the status and the time of update of rows
    of the table [tasks] has changed in the database and in the queue. *)
Definition only_status_written (w w' : World) : Prop :=
  jobs w' = jobs w /\ queue w' = queue w /\ schedules w' = schedules w /\
  Forall2 (fun t t' => t' = with_status (status t') (updatedAt t') t)
    (tasks w) (tasks w').

(** The schedules are [ss]. *)
Definition schedules_are (ss : list string) (w : World) : Prop := schedules w = ss.

(** ** Queries *)

(** The [where] that the mapper of the controller builds: the id of a user
    and nothing else. *)
Definition where_userId (u : option string) : TasksFindWhere :=
  {| fw_name := None; fw_id := None; fw_userId := u; fw_status := None;
     fw_dueTo := None; fw_repeat := Undefined; fw_createdAt := None;
     fw_updatedAt := None; fw_scheduleId := None |}.

(** A database that answers, and hands out the rows selected in the order
    of the table. *)
Definition table_order : Query :=
  {| defaultStartDate := 0; defaultEndDate := 691199999;
     ordered := fun _ _ rows => rows; select_error := None |}.

(** ** What an update through the controller cannot do *)

(** A row has kept what it had in its nullable columns [description],
    [dueTo] and [repeat]: none of them has become null. *)
Definition nothing_cleared (t t' : DbTask) : Prop :=
  (is_Some (description t) -> is_Some (description t')) /\
  (is_Some (dueTo t) -> is_Some (dueTo t')) /\
  (is_Some (repeat t) -> is_Some (repeat t')).

(** The job store still begins with the bindings [js]. *)
Definition bindings_kept (js : list DbJob) (w : World) : Prop := js `prefix_of` jobs w.

(** ** The jobs that [create] schedules *)

(** The job of the engine for the due date of a row. *)
Definition due_job (env : Env) (row : DbTask) (due : Z) : Job :=
  {| j_id := singleUuid env;
     j_name := BrokerTask.SCHEDULE_SINGLE_JOB;
     j_data := Engine.with_ack (TasksService.job_payload (id row) (name row) (userId row))
                 TaskEvent.DUE;
     j_opts := {| delay := due - now env; jobId := singleUuid env |};
     j_timestamp := now env |}.

(** The scheduler of the engine for the repetition of a row. *)
Definition repeat_scheduler (env : Env) (row : DbTask) (cron : string) : JobScheduler :=
  {| key := cronUuid env;
     s_name := BrokerTask.SCHEDULE_CRON_JOB;
     pattern := cron;
     template_data :=
       Engine.with_ack (TasksService.job_payload (id row) (name row) (userId row))
         TaskEvent.REPEATED |}.

(** The world after [create] has written the row and scheduled its jobs. *)
Definition with_task (env : Env) (row : DbTask) (w : World) : World :=
  {| tasks := tasks w ++ [row];
     schedules := schedules w;
     jobs := jobs w
             ++ match dueTo row with
                | Some _ => [mkDbJob (singleUuid env) SINGLE (id row)]
                | None => []
                end
             ++ match TasksService.truthy_opt (repeat row) with
                | Some _ => [mkDbJob (cronUuid env) CRON (id row)]
                | None => []
                end;
     queue :=
       {| q_jobs := match dueTo row with
                    | Some due => <[singleUuid env := due_job env row due]> (q_jobs (queue w))
                    | None => q_jobs (queue w)
                    end;
          q_schedulers := match TasksService.truthy_opt (repeat row) with
                          | Some cron => <[cronUuid env := repeat_scheduler env row cron]>
                                           (q_schedulers (queue w))
                          | None => q_schedulers (queue w)
                          end |};
     bus := bus w;
     errors := errors w |}.

(** A task without a due date, and the world after it has been created. *)
Definition call_home : TaskCreateDto :=
  {| c_name := "call home"; c_scheduleId := "s1"; c_userId := "u1";
     c_description := Undefined; c_status := None;
     c_dueTo := Undefined; c_repeat := Undefined;
     c_priority := None; c_fixed := None;
     c_startTime := Undefined; c_endTime := Undefined |}.

Definition undated : World :=
  Eval vm_compute in (TasksService.create Sample.env call_home Sample.empty).2.

(** The rows of one page of a query of the repository. *)
Definition page_of (q : Query) (where_ : option TasksFindWhere)
    (orderBy : option TasksOrderByFields) (sortBy : option SortBy)
    (limit : Z) (page : nat) (w : World) : list DbTask :=
  match (TasksRepository'.find q
           {| fo_limit := Some limit; fo_page := Some (Z.of_nat page);
              fo_orderBy := orderBy; fo_sortBy := sortBy; fo_where := where_ |} w).1 with
  | Ok rows => rows
  | Throw _ => []
  end.


(** * Reasoning about asynchronous methods *)

Section wp_rules.
Context {A B : Type}.
Implicit Types (Q : Res B -> World -> Prop) (w : World).

Lemma wp_ret (a : B) Q w : Q (Ok a) w -> wp (ret a) Q w.
Proof. done. Qed.

Lemma wp_throw e Q w : Q (Throw e) w -> wp (throw e) Q w.
Proof. done. Qed.

Lemma wp_bind (m : M A) (f : A -> M B) Q w :
  wp m (fun r w' => match r with
                    | Ok a => wp (f a) Q w'
                    | Throw e => Q (Throw e) w'
                    end) w ->
  wp (bind m f) Q w.
Proof. unfold wp, bind. by destruct (m w) as [[a|e] w']. Qed.

Lemma wp_try_catch (m : M B) (h : Exception -> M B) Q w :
  wp m (fun r w' => match r with
                    | Ok a => Q (Ok a) w'
                    | Throw e => wp (h e) Q w'
                    end) w ->
  wp (try_catch m h) Q w.
Proof. unfold wp, try_catch. by destruct (m w) as [[a|e] w']. Qed.

Lemma wp_mono (m : M B) (Q Q' : Res B -> World -> Prop) w :
  wp m Q w -> (forall r w', Q r w' -> Q' r w') -> wp m Q' w.
Proof. unfold wp. auto. Qed.
End wp_rules.

Lemma wp_get (Q : Res World -> World -> Prop) w : Q (Ok w) w -> wp get Q w.
Proof. done. Qed.

Lemma wp_put w' (Q : Res unit -> World -> Prop) w : Q (Ok tt) w' -> wp (put w') Q w.
Proof. done. Qed.

Lemma wp_modify f (Q : Res unit -> World -> Prop) w : Q (Ok tt) (f w) -> wp (modify f) Q w.
Proof. done. Qed.

Lemma wp_guard env site e (Q : Res unit -> World -> Prop) w :
  (fails env site = true -> Q (Throw e) w) ->
  (fails env site = false -> Q (Ok tt) w) ->
  wp (guard env site e) Q w.
Proof. unfold wp, guard. destruct (fails env site); auto. Qed.

(** One step of symbolic execution. *)
Ltac wp_step :=
  lazymatch goal with
  | |- wp (bind _ _) _ _ => apply wp_bind
  | |- wp (try_catch _ _) _ _ => apply wp_try_catch
  | |- wp (ret _) _ _ => apply wp_ret
  | |- wp (throw _) _ _ => apply wp_throw
  | |- wp get _ _ => apply wp_get
  | |- wp (put _) _ _ => apply wp_put
  | |- wp (modify _) _ _ => apply wp_modify
  | |- wp (logger_error _) _ _ => apply wp_modify
  | |- wp (guard _ _ _) _ _ => apply wp_guard; intros ?
  end.
Ltac wp_steps := repeat (wp_step; cbn beta iota).

(** * The job execution engine *)

Lemma or_else_truthy a b : a <> "" -> or_else a b = a.
Proof.
  intros Ha. unfold or_else, truthy.
  destruct (String.eqb_spec a ""); [done|done].
Qed.

(** C3. [rescheduleSingle] of the engine: with the queue reachable, a job id
    that is not in the queue gives the not-found failure and a date that is
    not in the future gives the invalid-schedule failure, both with the queue
    as it was; otherwise the job is removed and put back under the same id
    with its name and payload, only its delay changed. *)
Theorem rescheduleSingle_refines_spec env dto w :
  healthy env ->
  queue_wf (queue w) ->
  rs_id dto <> "" ->
  Engine.rescheduleSingle env dto w = EngineSpec.rescheduleSingle env dto w.
Proof.
  intros Henv [Hjobs _] Hid.
  unfold Engine.rescheduleSingle, EngineSpec.rescheduleSingle,
    try_catch, bind, Bull.getJob, Bull.remove, Bull.add, guard, get, put, modify, ret.
  rewrite !Henv. cbn.
  destruct (q_jobs (queue w) !! rs_id dto) as [job|] eqn:Hjob; cbn; [|done].
  destruct (Hjobs _ _ Hjob) as [Hj1 Hj2].
  rewrite (bool_decide_ext (rs_executionDate dto - now env <= 0)
             (rs_executionDate dto <= now env)) by lia.
  case_bool_decide; cbn; [done|].
  rewrite Hj1, Hj2, lookup_delete_eq. cbn.
  rewrite insert_delete_eq, or_else_truthy by done.
  unfold EngineSpec.delayed. by rewrite Hj1, Hj2.
Qed.

(** ** The sample data *)

Lemma healthy_sample : healthy Sample.env.
Proof. by intros site. Qed.

Lemma healthy_sample' : healthy Sample.env'.
Proof. by intros site. Qed.

Lemma queue_wf_created : queue_wf (queue Sample.created).
Proof. split; (eapply bool_decide_unpack; vm_compute; reflexivity). Qed.

Lemma rescheduleSingle_refines_spec_witness :
  Engine.rescheduleSingle Sample.env' (mkRescheduleSingle "j1" 9000) Sample.created
  = EngineSpec.rescheduleSingle Sample.env' (mkRescheduleSingle "j1" 9000) Sample.created.
Proof.
  apply (rescheduleSingle_refines_spec Sample.env' (mkRescheduleSingle "j1" 9000)
           Sample.created healthy_sample' queue_wf_created).
  discriminate.
Defined.

(** C4. [scheduleSingle] of the engine has no check of the date: at time
    1000, asked for a job to run at 400, it puts a job with delay -600 in the
    queue and returns its handle. *)
Theorem scheduleSingle_past_date_is_enqueued :
  let dto := {| ss_name := "jobs.schedule.single"; ss_executionDate := 400;
                ss_ackEventName := "TASK_DUE"; ss_payload := ∅ |} in
  let r := Engine.scheduleSingle Sample.env dto Sample.empty in
  r.1 = Ok {| sj_id := "j1"; sj_name := "jobs.schedule.single";
              sj_executionDate := 400; sj_type := SINGLE |} /\
  q_jobs (queue r.2) !! "j1" =
    Some {| j_id := "j1"; j_name := "jobs.schedule.single";
            j_data := <["ackEventName" := "TASK_DUE"]> ∅;
            j_opts := {| delay := -600; jobId := "j1" |};
            j_timestamp := 1000 |}.
Proof. split; vm_compute; reflexivity. Qed.

(** [scheduleSingle] never looks at the sign of the delay: whenever the
    queue takes the job, the call succeeds. *)
Lemma scheduleSingle_any_date env dto w :
  fails env QueueAdd = false ->
  q_jobs (queue w) !! singleUuid env = None ->
  Engine.scheduleSingle env dto w =
    (Ok {| sj_id := or_else (singleUuid env) "no-id"; sj_name := ss_name dto;
           sj_executionDate := ss_executionDate dto; sj_type := SINGLE |},
     set_queue
       (mkQueue (<[singleUuid env :=
                     {| j_id := singleUuid env; j_name := ss_name dto;
                        j_data := Engine.with_ack (ss_payload dto) (ss_ackEventName dto);
                        j_opts := {| delay := ss_executionDate dto - now env;
                                     jobId := singleUuid env |};
                        j_timestamp := now env |}]> (q_jobs (queue w)))
                (q_schedulers (queue w))) w).
Proof.
  intros Hadd Hfresh.
  unfold Engine.scheduleSingle, try_catch, bind, Bull.add, guard, get, put, ret.
  rewrite Hadd. cbn. by rewrite Hfresh.
Qed.

(** What [scheduleCron] does when the queue takes the scheduler. *)
Lemma scheduleCron_eq env dto w :
  fails env QueueUpsertJobScheduler = false ->
  Engine.scheduleCron env dto w =
    (Ok {| cj_id := cronUuid env; cj_name := sc_name dto;
           cj_cron := sc_cron dto; cj_type := CRON |},
     set_queue
       (mkQueue (q_jobs (queue w))
                (<[cronUuid env :=
                     {| key := cronUuid env; s_name := sc_name dto;
                        pattern := sc_cron dto;
                        template_data :=
                          Engine.with_ack (sc_payload dto) (sc_ackEventName dto) |}]>
                   (q_schedulers (queue w)))) w).
Proof.
  intros Hup.
  unfold Engine.scheduleCron, try_catch, bind, Bull.upsertJobScheduler,
    guard, modify, ret.
  by rewrite Hup.
Qed.

(** C5, as stated, fails: the request carries no key, every call draws a new
    uuid, and two calls with one and the same request leave two recurring
    jobs in the queue. *)
Lemma scheduleCron_not_keyed_by_caller : ~ scheduleCron_keyed_by_caller.
Proof.
  intros H.
  specialize (H Sample.env Sample.env'
                {| sc_name := "jobs.schedule.cron"; sc_cron := "0 8 * * *";
                   sc_ackEventName := "TASK_REPEATED"; sc_payload := ∅ |}
                Sample.empty healthy_sample healthy_sample').
  vm_compute in H. discriminate H.
Qed.

(** C5, amended. [scheduleCron] files the recurring job under a key that the
    engine draws itself, by upsert: the second of two calls returns its own
    key, under which the queue then holds its name, pattern and payload; when
    the two keys are equal it has replaced the first scheduler, and when they
    differ the first scheduler is still there beside it. *)
Theorem scheduleCron_upserts_generated_key env1 env2 dto1 dto2 w :
  fails env1 QueueUpsertJobScheduler = false ->
  fails env2 QueueUpsertJobScheduler = false ->
  let sched := fun env dto =>
    {| key := cronUuid env; s_name := sc_name dto; pattern := sc_cron dto;
       template_data := Engine.with_ack (sc_payload dto) (sc_ackEventName dto) |} in
  let w1 := (Engine.scheduleCron env1 dto1 w).2 in
  let r2 := Engine.scheduleCron env2 dto2 w1 in
  r2.1 = Ok {| cj_id := cronUuid env2; cj_name := sc_name dto2;
               cj_cron := sc_cron dto2; cj_type := CRON |} /\
  q_schedulers (queue r2.2) !! cronUuid env2 = Some (sched env2 dto2) /\
  (cronUuid env1 = cronUuid env2 ->
   q_schedulers (queue r2.2) =
     <[cronUuid env2 := sched env2 dto2]> (q_schedulers (queue w))) /\
  (cronUuid env1 <> cronUuid env2 ->
   q_schedulers (queue r2.2) !! cronUuid env1 = Some (sched env1 dto1)).
Proof.
  intros H1 H2. cbn zeta.
  rewrite (scheduleCron_eq env1 dto1 w H1). cbn [snd].
  rewrite (scheduleCron_eq env2 dto2 _ H2). cbn.
  split; [done|]. split; [by rewrite lookup_insert_eq|].
  split.
  - intros ->. by rewrite insert_insert_eq.
  - intros Hne. rewrite lookup_insert_ne by done. by rewrite lookup_insert_eq.
Qed.

Lemma scheduleCron_upserts_generated_key_witness :
  let dto := {| sc_name := "jobs.schedule.cron"; sc_cron := "0 8 * * *";
                sc_ackEventName := "TASK_REPEATED"; sc_payload := ∅ |} in
  let w1 := (Engine.scheduleCron Sample.env dto Sample.empty).2 in
  (Engine.scheduleCron Sample.env' dto w1).1 =
    Ok {| cj_id := "c2"; cj_name := "jobs.schedule.cron";
          cj_cron := "0 8 * * *"; cj_type := CRON |}.
Proof.
  intros dto w1.
  exact (proj1 (scheduleCron_upserts_generated_key Sample.env Sample.env' dto dto
                  Sample.empty eq_refl eq_refl)).
Defined.

(** * Invariants of asynchronous methods *)

Section preserves_rules.
Context (I : World -> Prop).

Lemma preserves_ret {A} (a : A) : preserves I (ret a).
Proof. by intros w Hw. Qed.

Lemma preserves_throw {A} e : preserves I (@throw A e).
Proof. by intros w Hw. Qed.

Lemma preserves_get : preserves I get.
Proof. by intros w Hw. Qed.

Lemma preserves_guard env site e : preserves I (guard env site e).
Proof. intros w Hw. by apply wp_guard. Qed.

Lemma preserves_bind {A B} (m : M A) (f : A -> M B) :
  preserves I m -> (forall a, preserves I (f a)) -> preserves I (bind m f).
Proof.
  intros Hm Hf w Hw. apply wp_bind. eapply wp_mono; [by apply Hm|].
  intros [a|e] w' Hw'; [by apply Hf|done].
Qed.

Lemma preserves_try_catch {A} (m : M A) h :
  preserves I m -> (forall e, preserves I (h e)) -> preserves I (try_catch m h).
Proof.
  intros Hm Hh w Hw. apply wp_try_catch. eapply wp_mono; [by apply Hm|].
  intros [a|e] w' Hw'; [done|by apply Hh].
Qed.

(** After [get], the value read is the world at hand. *)
Lemma preserves_get_bind {A} (f : World -> M A) :
  (forall w, I w -> wp (f w) (fun _ w' => I w') w) -> preserves I (bind get f).
Proof. intros Hf w Hw. apply wp_bind. by apply Hf. Qed.

Lemma preserves_modify f :
  (forall w, I w -> I (f w)) -> preserves I (modify f).
Proof. intros Hf w Hw. by apply Hf. Qed.

(** Use of a preserved invariant in the middle of a proof by [wp]. *)
Lemma wp_bind_preserved {A B} (m : M A) (f : A -> M B) Q w :
  preserves I m -> I w ->
  (forall a w', I w' -> wp (f a) Q w') ->
  (forall e w', I w' -> Q (Throw e) w') ->
  wp (bind m f) Q w.
Proof.
  intros Hm Hw Hok Hthrow. apply wp_bind. eapply wp_mono; [by apply Hm|].
  intros [a|e] w' Hw'; [by apply Hok|by apply Hthrow].
Qed.

End preserves_rules.

Create HintDb pres discriminated.
#[export] Hint Resolve preserves_ret preserves_throw preserves_get
  preserves_guard : pres.

(** Decompose a method along its binds and case distinctions. *)
Ltac pres_step :=
  lazymatch goal with
  | |- preserves _ (bind get _) => apply preserves_get_bind; intros ? ?
  | |- preserves _ (bind _ _) => apply preserves_bind; [|intros ?]
  | |- preserves _ (try_catch _ _) => apply preserves_try_catch; [|intros ?]
  | |- preserves _ (match ?x with _ => _ end) => destruct x eqn:?
  | |- preserves _ (if ?x then _ else _) => destruct x eqn:?
  | |- preserves _ (let _ := _ in _) => cbn zeta
  end.
Ltac pres := repeat pres_step; eauto with pres.

(** ** Invariants that do not look at a component of the world *)

#[export] Hint Extern 0 (JobQueueBlind _) => (by apply _) : pres.
#[export] Hint Extern 0 (SchedulersBlind _) => (by apply _) : pres.
#[export] Hint Extern 0 (JobsBlind _) => (by apply _) : pres.
#[export] Hint Extern 0 (TasksBlind _) => (by apply _) : pres.

Section job_queue_blind.
Context (I : World -> Prop) `{!JobQueueBlind I}.

Lemma preserves_Bull_add env name data opts : preserves I (Bull.add env name data opts).
Proof.
  unfold Bull.add. apply preserves_bind; [pres|intros _].
  apply preserves_get_bind; intros w Hw.
  apply wp_bind. destruct (q_jobs (queue w) !! jobId opts); cbn; wp_steps; [done|].
  by apply job_queue_blind.
Qed.

Lemma preserves_Bull_getJob env jid : preserves I (Bull.getJob env jid).
Proof. unfold Bull.getJob. pres_step; [pres|]. pres_step. done. Qed.

Lemma preserves_Bull_remove env job : preserves I (Bull.remove env job).
Proof.
  unfold Bull.remove. pres. apply preserves_modify.
  intros w Hw. by apply job_queue_blind.
Qed.

Hint Resolve preserves_Bull_add preserves_Bull_getJob preserves_Bull_remove : pres.

Lemma preserves_Engine_scheduleSingle env dto : preserves I (Engine.scheduleSingle env dto).
Proof. unfold Engine.scheduleSingle. pres. Qed.

Lemma preserves_Engine_rescheduleSingle env dto :
  preserves I (Engine.rescheduleSingle env dto).
Proof. unfold Engine.rescheduleSingle. pres. Qed.

Lemma preserves_Engine_unscheduleSingle env jid :
  preserves I (Engine.unscheduleSingle env jid).
Proof. unfold Engine.unscheduleSingle. pres. Qed.

End job_queue_blind.

Section schedulers_blind.
Context (I : World -> Prop) `{!SchedulersBlind I}.

Lemma preserves_Bull_upsertJobScheduler env k pat name data :
  preserves I (Bull.upsertJobScheduler env k pat name data).
Proof.
  unfold Bull.upsertJobScheduler. pres_step; [pres|]. pres_step; [|pres].
  apply preserves_modify. intros w Hw. by apply schedulers_blind.
Qed.

Lemma preserves_Bull_getJobScheduler env k : preserves I (Bull.getJobScheduler env k).
Proof. unfold Bull.getJobScheduler. pres_step; [pres|]. pres_step. done. Qed.

Lemma preserves_Bull_removeJobScheduler env k :
  preserves I (Bull.removeJobScheduler env k).
Proof.
  unfold Bull.removeJobScheduler. pres_step; [pres|]. pres_step.
  wp_steps. by apply schedulers_blind.
Qed.

Hint Resolve preserves_Bull_upsertJobScheduler preserves_Bull_getJobScheduler
  preserves_Bull_removeJobScheduler : pres.

Lemma preserves_Engine_scheduleCron env dto : preserves I (Engine.scheduleCron env dto).
Proof. unfold Engine.scheduleCron. pres. Qed.

Lemma preserves_Engine_rescheduleCron env dto :
  preserves I (Engine.rescheduleCron env dto).
Proof. unfold Engine.rescheduleCron. pres. Qed.

Lemma preserves_Engine_unscheduleCron env jid :
  preserves I (Engine.unscheduleCron env jid).
Proof. unfold Engine.unscheduleCron. pres. Qed.

End schedulers_blind.

Lemma preserves_rpc I {A} (m : M A) : preserves I m -> preserves I (JobsController.rpc m).
Proof. intros Hm. unfold JobsController.rpc. pres. Qed.

#[export] Hint Resolve preserves_Engine_scheduleSingle preserves_Engine_rescheduleSingle
  preserves_Engine_unscheduleSingle preserves_Engine_scheduleCron
  preserves_Engine_rescheduleCron preserves_Engine_unscheduleCron
  preserves_rpc : pres.

Lemma preserves_JobsService_rescheduleSingle I `{!JobQueueBlind I} env dto :
  preserves I (JobsService.rescheduleSingle env dto).
Proof.
  unfold JobsService.rescheduleSingle. pres.
Qed.

Lemma preserves_JobsService_rescheduleCron I `{!SchedulersBlind I} env dto :
  preserves I (JobsService.rescheduleCron env dto).
Proof.
  unfold JobsService.rescheduleCron. pres.
Qed.

(** ** The repositories *)

Lemma preserves_SchedulesRepository_findOne I env sid :
  preserves I (SchedulesRepository.findOne env sid).
Proof. unfold SchedulesRepository.findOne. pres_step; [pres|]. pres_step. done. Qed.

Lemma preserves_TasksRepository_findOne I env wh :
  preserves I (TasksRepository.findOne env wh).
Proof. unfold TasksRepository.findOne. pres_step; [pres|]. pres_step. done. Qed.

Lemma preserves_JobsRepository_findByTaskId I env taskId :
  preserves I (JobsRepository.findByTaskId env taskId).
Proof. unfold JobsRepository.findByTaskId. pres_step; [pres|]. pres_step. done. Qed.

Lemma preserves_JobsRepository_save I `{!JobsBlind I} env jid type taskId :
  preserves I (JobsRepository.save env jid type taskId).
Proof.
  unfold JobsRepository.save. pres_step; [pres|]. pres_step.
  cbn zeta. repeat case_bool_decide; wp_steps; try done. by apply jobs_blind.
Qed.

Lemma preserves_JobsRepository_remove I `{!JobsBlind I} env jid :
  preserves I (JobsRepository.remove env jid).
Proof.
  unfold JobsRepository.remove. pres_step; [pres|]. pres_step.
  wp_steps. by apply jobs_blind.
Qed.

Lemma preserves_TasksRepository_create I `{!TasksBlind I} env dto due :
  preserves I (TasksRepository.create env dto due).
Proof.
  unfold TasksRepository.create. pres_step; [pres|]. pres_step.
  cbn zeta. repeat case_bool_decide; wp_steps; try done. by apply tasks_blind.
Qed.

Lemma preserves_TasksRepository_update I `{!TasksBlind I} env wh f :
  preserves I (TasksRepository.update env wh f).
Proof.
  unfold TasksRepository.update. pres_step; [pres|].
  apply preserves_get_bind; intros w Hw.
  destruct (TasksRepository.no_values f); [by wp_steps|].
  cbn zeta. apply wp_bind.
  destruct (df_scheduleId f) as [s|],
    (filter (fun t => TasksRepository.matches wh t = true) (tasks w)) as [|t ts];
    try case_bool_decide; wp_steps; try done; by apply tasks_blind.
Qed.

Lemma preserves_TasksRepository_remove I `{!TasksBlind I} env wh :
  preserves I (TasksRepository.remove env wh).
Proof.
  unfold TasksRepository.remove. pres_step; [pres|]. pres_step.
  cbn zeta. case_bool_decide; wp_steps; try done. by apply tasks_blind.
Qed.

#[export] Hint Resolve preserves_SchedulesRepository_findOne
  preserves_TasksRepository_findOne preserves_JobsRepository_findByTaskId
  preserves_JobsRepository_save preserves_JobsRepository_remove
  preserves_TasksRepository_create preserves_TasksRepository_remove : pres.

(** ** The facade and the task service, for an invariant blind to the job
    store and to the queue *)

Section store_blind.
Context (I : World -> Prop).
Context `{!JobQueueBlind I, !SchedulersBlind I, !JobsBlind I}.

Lemma preserves_JobsService_scheduleSingle env req taskId :
  preserves I (JobsService.scheduleSingle env req taskId).
Proof. unfold JobsService.scheduleSingle. pres. Qed.

Lemma preserves_JobsService_scheduleCron env req taskId :
  preserves I (JobsService.scheduleCron env req taskId).
Proof. unfold JobsService.scheduleCron. pres. Qed.

Lemma preserves_JobsService_unscheduleSingle env jid :
  preserves I (JobsService.unscheduleSingle env jid).
Proof. unfold JobsService.unscheduleSingle. pres. Qed.

Lemma preserves_JobsService_unscheduleCron env jid :
  preserves I (JobsService.unscheduleCron env jid).
Proof. unfold JobsService.unscheduleCron. pres. Qed.

Hint Resolve preserves_JobsService_scheduleSingle preserves_JobsService_scheduleCron
  preserves_JobsService_unscheduleSingle preserves_JobsService_unscheduleCron
  preserves_JobsService_rescheduleSingle preserves_JobsService_rescheduleCron : pres.

Lemma preserves_reconcile env updatedTask taskId fields jobs :
  preserves I (TasksService.reconcile_dueTo_set env updatedTask taskId fields jobs) /\
  preserves I (TasksService.reconcile_dueTo_null env fields jobs) /\
  preserves I (TasksService.reconcile_repeat_set env updatedTask taskId fields jobs) /\
  preserves I (TasksService.reconcile_repeat_null env fields jobs).
Proof.
  unfold TasksService.reconcile_dueTo_set, TasksService.reconcile_dueTo_null,
    TasksService.reconcile_repeat_set, TasksService.reconcile_repeat_null.
  repeat split; pres.
Qed.

(** [update] keeps whatever the update of the row keeps. *)
Lemma preserves_TasksService_update env dto :
  preserves I (TasksRepository.update env (u_where dto)
                 (TasksService.db_fields (u_fields dto))) ->
  preserves I (TasksService.update env dto).
Proof.
  intros Hrow. unfold TasksService.update. cbn zeta.
  apply preserves_bind; [pres|intros _].
  apply preserves_bind; [done|intros [updatedTask|]]; [|pres].
  apply preserves_bind; [unfold JobsService.findByTaskId; pres|intros jobs].
  destruct (preserves_reconcile env updatedTask (w_id (u_where dto))
              (u_fields dto) jobs) as (H1 & H2 & H3 & H4).
  pres.
Qed.

End store_blind.

(** * The event handlers *)

Global Instance bus_is_job_queue_blind b e : JobQueueBlind (bus_is b e).
Proof. by intros m w [? ?]. Qed.
Global Instance bus_is_schedulers_blind b e : SchedulersBlind (bus_is b e).
Proof. by intros m w [? ?]. Qed.
Global Instance bus_is_jobs_blind b e : JobsBlind (bus_is b e).
Proof. by intros m w [? ?]. Qed.
Global Instance bus_is_tasks_blind b e : TasksBlind (bus_is b e).
Proof. by intros m w [? ?]. Qed.

(** [update] publishes nothing and logs no error. *)
Lemma update_keeps_bus env dto w :
  bus_is (bus w) (errors w) (TasksService.update env dto w).2.
Proof.
  apply (preserves_TasksService_update (bus_is (bus w) (errors w))); [|done].
  by apply preserves_TasksRepository_update, _.
Qed.

Lemma findOne_eq env wh w :
  fails env TasksFindOne = false ->
  TasksService.findOne env wh w =
    (match head (filter (fun t => TasksRepository.matches wh t = true) (tasks w)) with
     | Some t => Ok (TasksMapper.dbToDomain t)
     | None => Throw (TaskNotFoundException (w_id wh))
     end, w).
Proof.
  intros Hf. unfold TasksService.findOne, TasksRepository.findOne, bind, guard, get, ret.
  rewrite Hf. cbn. by destruct (head _).
Qed.

Lemma findOne_world env wh w : (TasksService.findOne env wh w).2 = w.
Proof.
  unfold TasksService.findOne, TasksRepository.findOne, bind, guard, get, ret, throw.
  destruct (fails env TasksFindOne); cbn; [done|]. by destruct (head _).
Qed.

(** [update] with nothing but a status: the row changes, no job does. *)
Lemma update_status_eq env wh s w :
  healthy env ->
  filter (fun t => TasksRepository.matches wh t = true) (tasks w) <> [] ->
  exists task,
    TasksService.update env
      {| u_where := wh; u_fields := Some (TaskEventsController.status_fields s) |} w
    = (Ok task, set_tasks (transition wh s (now env) (tasks w)) w).
Proof.
  intros Henv Hhit.
  unfold TasksService.update, TasksRepository.update, JobsService.findByTaskId,
    JobsRepository.findByTaskId, bind, guard, get, put, ret.
  rewrite !Henv. cbn.
  destruct (filter _ (tasks w)) as [|t ts] eqn:Hfilter; [done|]. cbn.
  eexists. reflexivity.
Qed.

#[local] Arguments TasksService.update : simpl never.

Lemma matches_self t :
  TasksRepository.matches (mkWhere (id t) (Some (userId t))) t = true.
Proof.
  unfold TasksRepository.matches. cbn.
  rewrite bool_decide_eq_true_2 by done. cbn.
  destruct (truthy (userId t)); [|done]. by rewrite bool_decide_eq_true_2.
Qed.

Lemma found_is_hit wh t (ts : list DbTask) :
  head (filter (fun x => TasksRepository.matches wh x = true) ts) = Some t ->
  filter (fun x => TasksRepository.matches (mkWhere (id t) (Some (userId t))) x = true) ts
    <> [].
Proof.
  intros Hhead Hnil.
  apply head_Some_elem_of, list_elem_of_filter in Hhead as [_ Hin].
  eapply (filter_nil_not_elem_of _ _ t) in Hnil; [done|].
  apply matches_self.
Qed.

(** What [handleDue] does for a task that exists, in a healthy
    environment. *)
Lemma handleDue_eq env payload w t :
  healthy env ->
  head (filter (fun x => TasksRepository.matches (mkWhere (p_taskId payload) None) x
                         = true) (tasks w)) = Some t ->
  TaskEventsController.handleDue env payload w =
    (Ok tt,
     set_bus (bus w ++ [mkEvent TaskEvent.DUE (mkEventPayload (id t) (userId t))])
       (match status t with
        | NOT_STARTED | IN_PROGRESS =>
            set_tasks (transition (mkWhere (id t) (Some (userId t))) FAILED (now env)
                         (tasks w)) w
        | DONE | FAILED => w
        end)).
Proof.
  intros Henv Hfound.
  unfold TaskEventsController.handleDue, try_catch, bind.
  rewrite findOne_eq by done. rewrite Hfound. cbn.
  destruct (update_status_eq env (mkWhere (id t) (Some (userId t))) FAILED w Henv)
    as [task Hupdate]; [by eapply found_is_hit|].
  unfold EventsService.publish.
  destruct (status t); cbn;
    repeat (case_bool_decide; try done); cbn;
    rewrite ?Hupdate; cbn; by rewrite Henv.
Qed.

(** C7. The TASK_DUE handler, in a healthy environment and for a task that
    exists: a task that is NOT_STARTED or IN_PROGRESS becomes FAILED, a task
    that is FAILED or DONE is not updated at all (no row changes, so neither
    its status nor its updatedAt), and in both cases the event TASK_DUE with
    the payload [{task: {id, userId}}] is put on the bus.  So a second
    acknowledgement for a task that is FAILED or DONE changes no row and puts
    the event on the bus once more. *)
Theorem handleDue_updates_only_active_tasks env env' payload w t :
  healthy env -> healthy env' ->
  head (filter (fun x => TasksRepository.matches (mkWhere (p_taskId payload) None) x
                         = true) (tasks w)) = Some t ->
  let event := {| eventName := TaskEvent.DUE;
                  payload := {| ev_task_id := id t; ev_task_userId := userId t |} |} in
  let first := TaskEventsController.handleDue env payload w in
  let second := TaskEventsController.handleDue env' payload first.2 in
  first =
    (Ok tt,
     set_bus (bus w ++ [event])
       (match status t with
        | NOT_STARTED | IN_PROGRESS =>
            set_tasks (transition (mkWhere (id t) (Some (userId t))) FAILED (now env)
                         (tasks w)) w
        | DONE | FAILED => w
        end)) /\
  (status t = FAILED \/ status t = DONE ->
   tasks first.2 = tasks w /\
   second = (Ok tt, set_bus (bus w ++ [event; event]) w)).
Proof.
  intros Henv Henv' Hfound event first second.
  split; [by apply handleDue_eq|].
  intros Hstatus. subst second first.
  rewrite (handleDue_eq env payload w t) by done.
  destruct Hstatus as [Hs|Hs]; rewrite Hs; cbn [snd];
    (split; [done|]);
    rewrite (handleDue_eq env' payload _ t) by done;
    rewrite Hs; cbn; by rewrite <- app_assoc.
Qed.

Lemma handleDue_updates_only_active_tasks_witness :
  TaskEventsController.handleDue Sample.env' (mkJobPayload "t1" "water the plants" "u1")
    Sample.created =
  (Ok tt,
   set_bus [mkEvent "TASK_DUE" (mkEventPayload "t1" "u1")]
     (set_tasks (transition (mkWhere "t1" (Some "u1")) FAILED 2000 (tasks Sample.created))
        Sample.created)).
Proof.
  exact (proj1 (handleDue_updates_only_active_tasks Sample.env' Sample.env'
                  (mkJobPayload "t1" "water the plants" "u1") Sample.created
                  (mkDbTask "t1" "water the plants" None NOT_STARTED (Some 5000)
                     (Some "0 8 * * *") "u1" 0 false None None 1000 1000 "s1")
                  healthy_sample' healthy_sample' eq_refl)).
Defined.

(** C9. The TASK_REPEATED handler, in a healthy environment and for a task
    that exists: whatever its status, the task is set to NOT_STARTED and the
    event TASK_REPEATED with the payload [{task: {id, userId}}] is put on the
    bus. *)
Theorem handleRepetition_resets_status env payload w t :
  healthy env ->
  head (filter (fun x => TasksRepository.matches (mkWhere (p_taskId payload) None) x
                         = true) (tasks w)) = Some t ->
  let event := {| eventName := TaskEvent.REPEATED;
                  payload := {| ev_task_id := id t; ev_task_userId := userId t |} |} in
  TaskEventsController.handleRepetition env payload w =
    (Ok tt,
     set_bus (bus w ++ [event])
       (set_tasks (transition (mkWhere (id t) (Some (userId t))) NOT_STARTED (now env)
                     (tasks w)) w)).
Proof.
  intros Henv Hfound event.
  unfold TaskEventsController.handleRepetition, try_catch, bind.
  rewrite findOne_eq by done. rewrite Hfound. cbn.
  destruct (update_status_eq env (mkWhere (id t) (Some (userId t))) NOT_STARTED w Henv)
    as [task Hupdate]; [by eapply found_is_hit|].
  unfold EventsService.publish.
  by rewrite Hupdate, Henv.
Qed.

Lemma handleRepetition_resets_status_witness :
  TaskEventsController.handleRepetition Sample.env'
    (mkJobPayload "t1" "water the plants" "u1") Sample.created =
  (Ok tt,
   set_bus [mkEvent "TASK_REPEATED" (mkEventPayload "t1" "u1")]
     (set_tasks (transition (mkWhere "t1" (Some "u1")) NOT_STARTED 2000
                   (tasks Sample.created))
        Sample.created)).
Proof.
  exact (handleRepetition_resets_status Sample.env'
           (mkJobPayload "t1" "water the plants" "u1") Sample.created
           (mkDbTask "t1" "water the plants" None NOT_STARTED (Some 5000)
              (Some "0 8 * * *") "u1" 0 false None None 1000 1000 "s1")
           healthy_sample' eq_refl).
Defined.

Lemma handleDue_catches env payload w :
  let wh := mkWhere (p_taskId payload) None in
  let due := TaskEventsController.handleDue env payload w in
  due.1 = Ok tt /\
  (forall e, (TasksService.findOne env wh w).1 = Throw e ->
     due.2 = set_errors (errors w ++ [due_failure]) w) /\
  (forall task e,
     (TasksService.findOne env wh w).1 = Ok task ->
     t_status task = NOT_STARTED \/ t_status task = IN_PROGRESS ->
     (TasksService.update env (status_update task FAILED) w).1 = Throw e ->
     bus due.2 = bus w /\ errors due.2 = (errors w ++ [due_failure])%list) /\
  (fails env BrokerPublish = true ->
     bus due.2 = bus w /\ exists m, errors due.2 = (errors w ++ [m])%list).
Proof.
  cbn zeta.
  unfold TaskEventsController.handleDue, try_catch, bind, EventsService.publish.
  pose proof (findOne_world env (mkWhere (p_taskId payload) None) w) as Hw.
  destruct (TasksService.findOne env _ w) as [[task|e] w1]; cbn in Hw; subst w1;
    cbn [fst snd].
  2:{ repeat split; try done; intros; simplify_eq; eauto. }
  fold (status_update task FAILED).
  pose proof (update_keeps_bus env (status_update task FAILED) w) as [Hb He].
  destruct (bool_decide (t_status task = NOT_STARTED)
            || bool_decide (t_status task = IN_PROGRESS)) eqn:Hactive.
  - destruct (TasksService.update env _ w) as [[t1|e1] w1] eqn:Hupdate;
      destruct (fails env BrokerPublish) eqn:Hpub;
      cbn [fst snd] in *; cbn; rewrite ?Hb, ?He;
      repeat split; try done; intros; simplify_eq; eauto;
      match goal with H : (TasksService.update _ _ _).1 = _ |- _ =>
        by rewrite Hupdate in H end.
  - destruct (fails env BrokerPublish) eqn:Hpub; cbn;
      repeat split; try done; intros; simplify_eq; eauto.
    all: exfalso;
      match goal with H : _ \/ _ |- _ => destruct H as [Hs|Hs] end;
      rewrite Hs in Hactive; cbn in Hactive;
      by rewrite bool_decide_eq_true_2, ?orb_true_r in Hactive.
Qed.

Lemma handleRepetition_catches env payload w :
  let wh := mkWhere (p_taskId payload) None in
  let rep := TaskEventsController.handleRepetition env payload w in
  rep.1 = Ok tt /\
  (forall e, (TasksService.findOne env wh w).1 = Throw e ->
     rep.2 = set_errors (errors w ++ [repeated_failure]) w) /\
  (forall task e,
     (TasksService.findOne env wh w).1 = Ok task ->
     (TasksService.update env (status_update task NOT_STARTED) w).1 = Throw e ->
     bus rep.2 = bus w /\ errors rep.2 = (errors w ++ [repeated_failure])%list) /\
  (fails env BrokerPublish = true ->
     bus rep.2 = bus w /\ exists m, errors rep.2 = (errors w ++ [m])%list).
Proof.
  cbn zeta.
  unfold TaskEventsController.handleRepetition, try_catch, bind, EventsService.publish.
  pose proof (findOne_world env (mkWhere (p_taskId payload) None) w) as Hw.
  destruct (TasksService.findOne env _ w) as [[task|e] w1]; cbn in Hw; subst w1;
    cbn [fst snd].
  2:{ repeat split; try done; intros; simplify_eq; eauto. }
  fold (status_update task NOT_STARTED).
  pose proof (update_keeps_bus env (status_update task NOT_STARTED) w) as [Hb He].
  destruct (TasksService.update env _ w) as [[t1|e1] w1] eqn:Hupdate;
    destruct (fails env BrokerPublish) eqn:Hpub;
    cbn [fst snd] in *; cbn; rewrite ?Hb, ?He;
    repeat split; try done; intros; simplify_eq; eauto;
    match goal with H : (TasksService.update _ _ _).1 = _ |- _ =>
      by rewrite Hupdate in H end.
Qed.

(** C10. Both handlers return normally, whatever happens inside them.  When
    the lookup of the task throws, or when the update of the status throws,
    nothing is put on the bus and the failure is logged by the handler; when
    the broker refuses the event the bus is as before and one line is
    logged. *)
Theorem handlers_catch_every_error env payload w :
  let wh := mkWhere (p_taskId payload) None in
  let due := TaskEventsController.handleDue env payload w in
  let rep := TaskEventsController.handleRepetition env payload w in
  (due.1 = Ok tt /\ rep.1 = Ok tt) /\
  (forall e, (TasksService.findOne env wh w).1 = Throw e ->
     due.2 = set_errors (errors w ++ [due_failure]) w /\
     rep.2 = set_errors (errors w ++ [repeated_failure]) w) /\
  (forall task e,
     (TasksService.findOne env wh w).1 = Ok task ->
     t_status task = NOT_STARTED \/ t_status task = IN_PROGRESS ->
     (TasksService.update env (status_update task FAILED) w).1 = Throw e ->
     bus due.2 = bus w /\ errors due.2 = (errors w ++ [due_failure])%list) /\
  (forall task e,
     (TasksService.findOne env wh w).1 = Ok task ->
     (TasksService.update env (status_update task NOT_STARTED) w).1 = Throw e ->
     bus rep.2 = bus w /\ errors rep.2 = (errors w ++ [repeated_failure])%list) /\
  (fails env BrokerPublish = true ->
     (bus due.2 = bus w /\ exists m, errors due.2 = (errors w ++ [m])%list) /\
     (bus rep.2 = bus w /\ exists m, errors rep.2 = (errors w ++ [m])%list)).
Proof.
  destruct (handleDue_catches env payload w) as (D1 & D2 & D3 & D4).
  destruct (handleRepetition_catches env payload w) as (R1 & R2 & R3 & R4).
  cbn zeta in *. repeat split; eauto;
    first [by apply D2 | by apply R2 | by eapply D3 | by eapply R3
          | by apply D4 | by apply R4 | idtac].
Qed.

Lemma handlers_catch_every_error_witness :
  let env := update_fails Sample.env' in
  let payload := mkJobPayload "t1" "water the plants" "u1" in
  let due := TaskEventsController.handleDue env payload Sample.created in
  due.1 = Ok tt /\
  bus due.2 = bus Sample.created /\
  errors due.2 = (errors Sample.created ++ [due_failure])%list.
Proof.
  intros env payload due.
  pose (task := TasksMapper.dbToDomain
                  (mkDbTask "t1" "water the plants" None NOT_STARTED (Some 5000)
                     (Some "0 8 * * *") "u1" 0 false None None 1000 1000 "s1")).
  pose (e := DatabaseException "Failed to update one task" (Infrastructure TasksUpdate)).
  split.
  - exact (proj1 (proj1 (handlers_catch_every_error env payload Sample.created))).
  - exact (proj1 (proj2 (proj2 (handlers_catch_every_error env payload Sample.created)))
             task e eq_refl (or_introl eq_refl) eq_refl).
Defined.

(** * The job store *)

(** ** What the calls on the table [jobs] do *)

Lemma wp_findByTaskId env taskId (Q : Res (list DbJob) -> World -> Prop) w :
  (forall e, Q (Throw e) w) ->
  Q (Ok (filter (fun j => job_taskId j = taskId) (jobs w))) w ->
  wp (JobsService.findByTaskId env taskId) Q w.
Proof.
  intros Hthrow Hok.
  unfold JobsService.findByTaskId, JobsRepository.findByTaskId. by wp_steps.
Qed.

Lemma wp_JobsRepository_save env jid type taskId (Q : Res DbJob -> World -> Prop) w :
  (forall e, Q (Throw e) w) ->
  (jid ∉ job_id <$> jobs w -> taskId ∈ id <$> tasks w ->
   Q (Ok (mkDbJob jid type taskId))
     (set_jobs (jobs w ++ [mkDbJob jid type taskId]) w)) ->
  wp (JobsRepository.save env jid type taskId) Q w.
Proof.
  intros Hthrow Hok. unfold JobsRepository.save. wp_steps; [done|].
  cbn zeta. repeat case_bool_decide; wp_steps; auto.
Qed.

Lemma wp_JobsRepository_remove env jid (Q : Res bool -> World -> Prop) w :
  (forall e, Q (Throw e) w) ->
  (forall b, Q (Ok b) (set_jobs (filter (fun j => job_id j <> jid) (jobs w)) w)) ->
  wp (JobsRepository.remove env jid) Q w.
Proof.
  intros Hthrow Hok. unfold JobsRepository.remove. by wp_steps.
Qed.

(** ** Lists of bindings *)

Lemma job_id_inj (js : list DbJob) j1 j2 :
  NoDup (job_id <$> js) -> j1 ∈ js -> j2 ∈ js -> job_id j1 = job_id j2 -> j1 = j2.
Proof.
  induction js as [|j js IH]; intros Hnodup H1 H2 Heq; [by apply not_elem_of_nil in H1|].
  rewrite fmap_cons in Hnodup. apply NoDup_cons in Hnodup as [Hnotin Hnodup].
  apply elem_of_cons in H1 as [->|H1], H2 as [->|H2]; [done| | |by apply IH].
  - exfalso. apply Hnotin. rewrite Heq. by apply list_elem_of_fmap_2.
  - exfalso. apply Hnotin. rewrite <- Heq. by apply list_elem_of_fmap_2.
Qed.

Lemma find_type_Some type (js : list DbJob) job :
  TasksService.find_type type js = Some job -> job ∈ js /\ job_type job = type.
Proof.
  intros Hhead. unfold TasksService.find_type in Hhead.
  apply head_Some_elem_of in Hhead.
  apply list_elem_of_filter in Hhead as [Htype Hin]. done.
Qed.

(** A row of another type, added at the end, is not found. *)
Lemma find_type_app_other type (P : DbJob -> Prop) `{!forall j, Decision (P j)}
    (js : list DbJob) row :
  job_type row <> type ->
  TasksService.find_type type (filter P (js ++ [row]))
  = TasksService.find_type type (filter P js).
Proof.
  intros Hrow. unfold TasksService.find_type.
  rewrite !filter_app. rewrite (filter_cons P row), filter_nil.
  destruct (decide (P row)); [|by rewrite app_nil_r].
  rewrite filter_cons_False, filter_nil by done. by rewrite app_nil_r.
Qed.

(** Taking out the row of a binding of another type leaves the bindings of
    this type as they were. *)
Lemma filter_type_remove_other type (P : DbJob -> Prop) `{!forall j, Decision (P j)}
    (js : list DbJob) other :
  NoDup (job_id <$> js) -> other ∈ js -> job_type other <> type ->
  filter (fun j => job_type j = type)
    (filter P (filter (fun j => job_id j <> job_id other) js))
  = filter (fun j => job_type j = type) (filter P js).
Proof.
  intros Hnodup Hin Hother.
  assert (forall j, j ∈ js -> job_type j = type -> job_id j <> job_id other) as Hne.
  { intros j Hj Hty Hid. apply Hother. by rewrite <- (job_id_inj js j other). }
  clear Hnodup Hin. induction js as [|j js IH]; [done|].
  rewrite (filter_cons _ j).
  destruct (decide (job_id j <> job_id other)) as [Hid|Hid].
  - rewrite !(filter_cons P j). destruct (decide (P j)).
    + rewrite !(filter_cons _ j). rewrite IH; [done|].
      intros j' Hj'. apply Hne. by apply list_elem_of_further.
    + apply IH. intros j' Hj'. apply Hne. by apply list_elem_of_further.
  - rewrite IH by (intros j' Hj'; apply Hne; by apply list_elem_of_further).
    rewrite (filter_cons P j). destruct (decide (P j)); [|done].
    rewrite filter_cons_False; [done|].
    intros Hty. apply Hid. apply Hne; [apply list_elem_of_here|done].
Qed.

(** ** Rescheduling leaves the job store alone *)

Global Instance store_is_job_queue_blind js m : JobQueueBlind (store_is js m).
Proof. by intros q w [? ?]. Qed.
Global Instance store_is_tasks_blind js m : TasksBlind (store_is js m).
Proof. by intros ts w [? ?]. Qed.

Global Instance jobs_are_job_queue_blind js : JobQueueBlind (jobs_are js).
Proof. by intros q w ?. Qed.
Global Instance jobs_are_schedulers_blind js : SchedulersBlind (jobs_are js).
Proof. by intros q w ?. Qed.
Global Instance jobs_are_tasks_blind js : TasksBlind (jobs_are js).
Proof. by intros ts w ?. Qed.

Lemma rescheduleSingle_keeps_store env dto w :
  store_is (jobs w) (q_schedulers (queue w)) (JobsService.rescheduleSingle env dto w).2.
Proof. by apply (preserves_JobsService_rescheduleSingle (store_is _ _)). Qed.

Lemma rescheduleCron_keeps_store env dto w :
  jobs (JobsService.rescheduleCron env dto w).2 = jobs w.
Proof. by apply (preserves_JobsService_rescheduleCron (jobs_are _)). Qed.

(** [unscheduleCron] of the engine answers with the id it was asked for. *)
Lemma wp_unscheduleCron_id env jid w :
  map_Forall (fun k s => key s = k) (q_schedulers (queue w)) ->
  wp (JobsController.unscheduleCron env jid)
     (fun r w' => jobs w' = jobs w /\
                  match r with Ok cron => cj_id cron = jid | Throw _ => True end) w.
Proof.
  intros Hkeys.
  unfold JobsController.unscheduleCron, JobsController.rpc, Engine.unscheduleCron,
    Bull.getJobScheduler, Bull.removeJobScheduler.
  wp_steps; [done|].
  destruct (q_schedulers (queue w) !! jid) as [s|] eqn:Hs; wp_steps; try done.
  split; [done|]. by apply (Hkeys jid s).
Qed.

Lemma update_keeps_single_binding env dto w due job :
  NoDup (job_id <$> jobs w) ->
  queue_wf (queue w) ->
  TasksService.fields_dueTo (u_fields dto) = Val (Iso due) ->
  TasksService.find_type SINGLE (task_jobs (w_id (u_where dto)) w) = Some job ->
  TasksService.find_type SINGLE
    (task_jobs (w_id (u_where dto)) (TasksService.update env dto w).2) = Some job.
Proof.
  intros Hnodup [_ Hkeys] Hdue Hjob.
  set (K := fun w' => TasksService.find_type SINGLE
                        (task_jobs (w_id (u_where dto)) w') = Some job).
  assert (forall w', jobs w' = jobs w -> K w') as Hsame.
  { intros w' Hw'. unfold K, task_jobs. by rewrite Hw'. }
  change (wp (TasksService.update env dto) (fun _ w' => K w') w).
  unfold TasksService.update. cbn zeta.
  eapply (wp_bind_preserved (fun w' => w' = w));
    [pres|done|intros _ w' ->|intros e w' ->; by apply Hsame].
  eapply (wp_bind_preserved (store_is (jobs w) (q_schedulers (queue w))));
    [by apply preserves_TasksRepository_update, _|done| |];
    [|intros e w1 [Hj1 _]; by apply Hsame].
  intros [updatedTask|] w1 [Hj1 Hs1]; [|by apply wp_throw, Hsame].
  apply wp_bind, wp_findByTaskId; [intros e; by apply Hsame|].
  rewrite Hj1. unfold task_jobs in Hjob.
  set (jobs0 := filter (fun j => job_taskId j = w_id (u_where dto)) (jobs w)) in *.
  (* dueTo is set: the job is rescheduled *)
  eapply (wp_bind_preserved (store_is (jobs w) (q_schedulers (queue w))));
    [|done| |intros e w2 [Hj2 _]; by apply Hsame].
  { unfold TasksService.reconcile_dueTo_set. rewrite Hdue. cbn [TasksService.truthy_date]. rewrite Hjob.
    pres. by apply preserves_JobsService_rescheduleSingle, _. }
  intros _ w2 [Hj2 Hs2].
  unfold TasksService.reconcile_dueTo_null. rewrite Hdue.
  apply wp_bind, wp_ret.
  unfold TasksService.reconcile_repeat_set, TasksService.reconcile_repeat_null.
  destruct (TasksService.fields_repeat (u_fields dto)) as [| |cron] eqn:Hrep;
    cbn [TasksService.truthy_string TasksService.truthy_opt TasksRepository.or_null].
  - wp_steps. by apply Hsame.
  - apply wp_bind, wp_ret.
    destruct (TasksService.find_type CRON jobs0) as [other|] eqn:Hother;
      [|wp_steps; by apply Hsame].
    apply find_type_Some in Hother as [Hin Hcron].
    apply list_elem_of_filter in Hin as [_ Hin].
    unfold JobsService.unscheduleCron. apply wp_bind, wp_bind, wp_bind.
    eapply wp_mono; [apply wp_unscheduleCron_id; by rewrite Hs2|].
    intros [cronJob|e] w3 [Hj3 Hid]; [|by apply Hsame; congruence].
    subst. apply wp_bind, wp_JobsRepository_remove; [intros e; apply Hsame; congruence|].
    intros b. wp_steps. unfold K, task_jobs, TasksService.find_type. cbn.
    rewrite Hid, Hj3, Hj2, filter_type_remove_other; try done.
    by rewrite Hcron.
  - destruct (truthy cron); [|wp_steps; by apply Hsame].
    destruct (TasksService.find_type CRON jobs0) as [other|].
    + eapply (wp_bind_preserved (jobs_are (jobs w))); [|done| |].
      * pres. by apply preserves_JobsService_rescheduleCron, _.
      * intros _ w3 Hj3. wp_steps. by apply Hsame.
      * intros e w3 Hj3. by apply Hsame.
    + apply wp_bind. unfold JobsService.scheduleCron. apply wp_bind.
      eapply (wp_bind_preserved (jobs_are (jobs w))); [pres|done| |].
      * intros cronJob w3 Hj3.
        apply wp_bind, wp_JobsRepository_save; [intros e; by apply Hsame|].
        intros _ _. wp_steps. unfold K, task_jobs. cbn.
        rewrite Hj3, find_type_app_other; done.
      * intros e w3 Hj3. by apply Hsame.
Qed.

(** C6. The facade's [rescheduleSingle] and [rescheduleCron] write nothing to
    the job store; so an [update] that gives a task with a SINGLE binding a new
    [dueTo] leaves that binding, with its job id, where it was. *)
Theorem reschedule_leaves_job_store env w :
  (forall dto, jobs (JobsService.rescheduleSingle env dto w).2 = jobs w) /\
  (forall dto, jobs (JobsService.rescheduleCron env dto w).2 = jobs w) /\
  (forall dto due job,
     NoDup (job_id <$> jobs w) ->
     queue_wf (queue w) ->
     TasksService.fields_dueTo (u_fields dto) = Val (Iso due) ->
     TasksService.find_type SINGLE (task_jobs (w_id (u_where dto)) w) = Some job ->
     TasksService.find_type SINGLE
       (task_jobs (w_id (u_where dto)) (TasksService.update env dto w).2) = Some job).
Proof.
  split; [|split].
  - intros dto. by destruct (rescheduleSingle_keeps_store env dto w).
  - intros dto. apply rescheduleCron_keeps_store.
  - intros dto due job. apply update_keeps_single_binding.
Qed.

Lemma nodup_created : NoDup (job_id <$> jobs Sample.created).
Proof. eapply bool_decide_unpack. vm_compute. reflexivity. Qed.

Lemma reschedule_leaves_job_store_witness :
  let dto := {| u_where := mkWhere "t1" (Some "u1");
                u_fields := Some (Sample.with_dueTo (Val (Iso 9000))) |} in
  TasksService.find_type SINGLE
    (task_jobs "t1" (TasksService.update Sample.env' dto Sample.created).2)
  = Some (mkDbJob "j1" SINGLE "t1").
Proof.
  intros dto.
  exact (proj2 (proj2 (reschedule_leaves_job_store Sample.env' Sample.created))
           dto 9000 (mkDbJob "j1" SINGLE "t1")
           nodup_created queue_wf_created eq_refl eq_refl).
Defined.

(** * The tri-state [dueTo] of [update] *)

Global Instance dueTo_column_job_queue_blind l : JobQueueBlind (dueTo_column_is l).
Proof. by intros q w ?. Qed.
Global Instance dueTo_column_schedulers_blind l : SchedulersBlind (dueTo_column_is l).
Proof. by intros q w ?. Qed.
Global Instance dueTo_column_jobs_blind l : JobsBlind (dueTo_column_is l).
Proof. by intros q w ?. Qed.

(** [update] hands [undefined] to the repository for every [dueTo] that is
    not a non-empty string, null included: the column is never cleared. *)
Lemma update_never_clears_dueTo env dto w :
  TasksService.truthy_date (TasksService.fields_dueTo (u_fields dto)) = None ->
  dueTo <$> tasks (TasksService.update env dto w).2 = dueTo <$> tasks w.
Proof.
  intros Hdue.
  apply (preserves_TasksService_update (dueTo_column_is (dueTo <$> tasks w)));
    [|done].
  assert (df_dueTo (TasksService.db_fields (u_fields dto)) = Undefined) as Hdf.
  { unfold TasksService.db_fields, TasksService.fields_dueTo in *.
    destruct (u_fields dto) as [f|]; [|done]. cbn. by rewrite Hdue. }
  generalize dependent (TasksService.db_fields (u_fields dto)). intros f Hdf.
  unfold TasksRepository.update. apply preserves_bind; [pres|intros _].
  apply preserves_get_bind; intros w' Hw'.
  destruct (TasksRepository.no_values f); [by wp_steps|].
  cbn zeta. apply wp_bind.
  assert (dueTo_column_is (dueTo <$> tasks w)
            (set_tasks ((fun t => if TasksRepository.matches (u_where dto) t
                                  then TasksRepository.set_fields env f t else t)
                        <$> tasks w') w')) as Hrows.
  { unfold dueTo_column_is in *. cbn. rewrite <- Hw', <- list_fmap_compose.
    apply list_fmap_ext. intros i t _. cbn.
    destruct (TasksRepository.matches (u_where dto) t); [|done].
    cbn. by rewrite Hdf. }
  destruct (df_scheduleId f) as [s|],
    (filter (fun t => TasksRepository.matches (u_where dto) t = true) (tasks w'))
      as [|t ts];
    try case_bool_decide; wp_steps; done.
Qed.

(** C1, at an input that clears [dueTo]: the task created with a due date of
    5000 and a SINGLE binding is updated with [dueTo: null] (and the status
    that the mapper of the controller always sends).  The call succeeds and
    the job is unscheduled, in the engine and in the job store, but the row,
    and the task returned, still have the due date 5000. *)
Theorem update_null_dueTo_is_not_cleared :
  let dto := {| u_where := mkWhere "t1" (Some "u1");
                u_fields := Some {| f_name := None; f_description := Undefined;
                                    f_priority := None; f_fixed := None;
                                    f_dueTo := Null; f_repeat := Undefined;
                                    f_status := Some NOT_STARTED;
                                    f_scheduleId := None;
                                    f_startTime := Undefined;
                                    f_endTime := Undefined |} |} in
  let r := TasksService.update Sample.env' dto Sample.created in
  (exists task, r.1 = Ok task /\ t_dueTo task = Some (Iso 5000)) /\
  dueTo <$> tasks r.2 = [Some 5000] /\
  jobs r.2 = [mkDbJob "c1" CRON "t1"] /\
  q_jobs (queue r.2) !! "j1" = None.
Proof.
  cbn zeta. split; [|split; [|split]].
  - eexists. split; vm_compute; reflexivity.
  - vm_compute. reflexivity.
  - vm_compute. reflexivity.
  - vm_compute. reflexivity.
Qed.

(** The sibling field [repeat] is cleared by the same call shape. *)
Lemma update_null_repeat_is_cleared :
  let dto := {| u_where := mkWhere "t1" (Some "u1");
                u_fields := Some {| f_name := None; f_description := Undefined;
                                    f_priority := None; f_fixed := None;
                                    f_dueTo := Undefined; f_repeat := Null;
                                    f_status := None; f_scheduleId := None;
                                    f_startTime := Undefined;
                                    f_endTime := Undefined |} |} in
  let r := TasksService.update Sample.env' dto Sample.created in
  repeat <$> tasks r.2 = [None] /\
  jobs r.2 = [mkDbJob "j1" SINGLE "t1"].
Proof. split; vm_compute; reflexivity. Qed.

(** The two cases in which [update] does keep the three states apart. *)

Global Instance rows_satisfy_job_queue_blind P : JobQueueBlind (rows_satisfy P).
Proof. by intros q w ?. Qed.
Global Instance rows_satisfy_schedulers_blind P : SchedulersBlind (rows_satisfy P).
Proof. by intros q w ?. Qed.
Global Instance rows_satisfy_jobs_blind P : JobsBlind (rows_satisfy P).
Proof. by intros q w ?. Qed.
Global Instance jobs_untouched_tasks_blind js q : TasksBlind (jobs_untouched js q).
Proof. by intros ts w [? ?]. Qed.

(** A [dueTo] that is a timestamp: when [update] returns, the rows selected
    and the task returned have it. *)
Lemma update_value_sets_dueTo env dto w ms task :
  TasksService.fields_dueTo (u_fields dto) = Val (Iso ms) ->
  (TasksService.update env dto w).1 = Ok task ->
  t_dueTo task = Some (Iso ms) /\
  rows_satisfy (fun t => TasksRepository.matches (u_where dto) t = true ->
                         dueTo t = Some ms)
    (TasksService.update env dto w).2.
Proof.
  intros Hdue.
  set (P := fun t => TasksRepository.matches (u_where dto) t = true -> dueTo t = Some ms).
  set (Q := fun (r : Res Task) w' =>
              match r with
              | Ok task => t_dueTo task = Some (Iso ms) /\ rows_satisfy P w'
              | Throw _ => True
              end).
  assert (wp (TasksService.update env dto) Q w) as Hwp.
  { unfold TasksService.update. cbn zeta.
    eapply (wp_bind_preserved (fun w' => w' = w));
      [pres|done|intros _ w' ->|by intros e w' ->].
    assert (df_dueTo (TasksService.db_fields (u_fields dto)) = Val ms) as Hdf.
    { unfold TasksService.db_fields, TasksService.fields_dueTo in *.
      destruct (u_fields dto) as [f|]; [|done]. cbn. by rewrite Hdue. }
    generalize dependent (TasksService.db_fields (u_fields dto)). intros f Hdf.
    apply wp_bind. unfold TasksRepository.update. wp_steps; [done|].
    destruct (TasksRepository.no_values f); [by wp_steps|]. cbn zeta.
    set (w1 := set_tasks _ w).
    assert (rows_satisfy P w1) as Hrows.
    { unfold rows_satisfy, w1. cbn [tasks set_tasks].
      apply Forall_fmap, Forall_forall. intros t _. unfold P, compose.
      destruct (TasksRepository.matches (u_where dto) t) eqn:Hm.
      - intros _. cbn. by rewrite Hdf.
      - intros Hm'. by rewrite Hm in Hm'. }
    assert (forall r, wp (match r with
                          | Some updatedTask =>
                              do jobs <- JobsService.findByTaskId env (w_id (u_where dto));
                              run TasksService.reconcile_dueTo_set env updatedTask
                                    (w_id (u_where dto)) (u_fields dto) jobs;
                              run TasksService.reconcile_dueTo_null env (u_fields dto) jobs;
                              run TasksService.reconcile_repeat_set env updatedTask
                                    (w_id (u_where dto)) (u_fields dto) jobs;
                              run TasksService.reconcile_repeat_null env (u_fields dto) jobs;
                              ret (TasksMapper.dbToDomain updatedTask)
                          | None => throw (TaskNotFoundException (w_id (u_where dto)))
                          end)
                         (fun r' w' =>
                            match r with
                            | Some t => dueTo t = Some ms -> Q r' w'
                            | None => Q r' w'
                            end) w1) as Hrest.
    { intros [updatedTask|]; [|by apply wp_throw].
      eapply (wp_bind_preserved (rows_satisfy P));
        [unfold JobsService.findByTaskId; pres|done| |done].
      intros jobs0 w2 Hw2.
      destruct (preserves_reconcile (rows_satisfy P) env updatedTask
                  (w_id (u_where dto)) (u_fields dto) jobs0) as (H1 & H2 & H3 & H4).
      eapply (wp_bind_preserved (rows_satisfy P)); [done|done| |done].
      intros _ w3 Hw3.
      eapply (wp_bind_preserved (rows_satisfy P)); [done|done| |done].
      intros _ w4 Hw4.
      eapply (wp_bind_preserved (rows_satisfy P)); [done|done| |done].
      intros _ w5 Hw5.
      eapply (wp_bind_preserved (rows_satisfy P)); [done|done| |done].
      intros _ w6 Hw6. apply wp_ret. intros Hset. split; [|done].
      cbn. by rewrite Hset. }
    apply wp_bind.
    destruct (df_scheduleId f) as [s|],
      (filter (fun t => TasksRepository.matches (u_where dto) t = true) (tasks w))
        as [|t ts] eqn:Hhit;
      try case_bool_decide; wp_steps; try done; fold w1.
    all: eapply wp_mono; [apply Hrest|]; cbn.
    all: intros r' w'; try done.
    all: intros HQ; apply HQ; cbn; by rewrite Hdf. }
  unfold wp, Q in Hwp. intros Htask. by rewrite Htask in Hwp.
Qed.

(** A patch that mentions neither [dueTo] nor [repeat]: no job is touched,
    in the job store or in the engine. *)
Lemma update_undefined_touches_no_job env dto w :
  TasksService.fields_dueTo (u_fields dto) = Undefined ->
  TasksService.fields_repeat (u_fields dto) = Undefined ->
  jobs_untouched (jobs w) (queue w) (TasksService.update env dto w).2.
Proof.
  intros Hdue Hrepeat.
  change (wp (TasksService.update env dto)
            (fun _ w' => jobs_untouched (jobs w) (queue w) w') w).
  unfold TasksService.update. cbn zeta.
  eapply (wp_bind_preserved (fun w' => w' = w));
    [pres|done|intros _ w' ->|by intros e w' ->].
  eapply (wp_bind_preserved (jobs_untouched (jobs w) (queue w)));
    [by apply preserves_TasksRepository_update, _|done| |done].
  intros [updatedTask|] w1 Hw1; [|by apply wp_throw].
  eapply (wp_bind_preserved (jobs_untouched (jobs w) (queue w)));
    [unfold JobsService.findByTaskId; pres|done| |done].
  intros jobs0 w2 Hw2.
  unfold TasksService.reconcile_dueTo_set, TasksService.reconcile_dueTo_null,
    TasksService.reconcile_repeat_set, TasksService.reconcile_repeat_null.
  rewrite Hdue, Hrepeat. cbn. by wp_steps.
Qed.

(** * Removing a task *)

(** ** The calls of [remove] in a healthy environment *)





(** ** Bindings of a task *)






Lemma filter_none {A} (P : A -> Prop) `{!forall x, Decision (P x)} (l : list A) :
  (forall x, x ∈ l -> ~ P x) -> filter P l = [].
Proof.
  induction l as [|x l IH]; intros Hnot; [done|].
  rewrite filter_cons_False by (apply Hnot, list_elem_of_here).
  apply IH. intros y Hy. by apply Hnot, list_elem_of_further.
Qed.


#[export] Hint Resolve preserves_JobsService_scheduleSingle
  preserves_JobsService_scheduleCron preserves_JobsService_unscheduleSingle
  preserves_JobsService_unscheduleCron preserves_JobsService_rescheduleSingle
  preserves_JobsService_rescheduleCron : pres.

Global Instance tasks_are_job_queue_blind ts : JobQueueBlind (tasks_are ts).
Proof. by intros q w ?. Qed.
Global Instance tasks_are_schedulers_blind ts : SchedulersBlind (tasks_are ts).
Proof. by intros q w ?. Qed.
Global Instance tasks_are_jobs_blind ts : JobsBlind (tasks_are ts).
Proof. by intros q w ?. Qed.


(** A binding can be unscheduled by [remove] when the engine has its job
    and, besides, the column of the task that it came from is set. *)
Lemma binding_live_held task q b :
  binding_live task q b <->
  binding_held q b /\
  match job_type b with
  | SINGLE => is_Some (dueTo task)
  | CRON => is_Some (TasksService.truthy_opt (repeat task))
  end.
Proof. unfold binding_live, binding_held. destruct (job_type b); tauto. Qed.






(** * At most one binding of each type for a task *)

(** ** Lists of bindings, again *)

Lemma sublist_filter_mono {A} (P : A -> Prop) `{!forall x, Decision (P x)} (l1 l2 : list A) :
  l1 `sublist_of` l2 -> filter P l1 `sublist_of` filter P l2.
Proof.
  induction 1 as [|x l1 l2 _ IH|x l1 l2 _ IH]; [done| |].
  - rewrite !filter_cons. destruct (decide (P x)); [by apply sublist_skip|done].
  - rewrite filter_cons. destruct (decide (P x)); [by apply sublist_cons|done].
Qed.

Lemma bindings_sublist type taskId w w' :
  jobs w' `sublist_of` jobs w ->
  bindings type taskId w' `sublist_of` bindings type taskId w.
Proof. intros Hsub. unfold bindings, task_jobs. by do 2 apply sublist_filter_mono. Qed.

Lemma bindings_added type taskId w w' row :
  jobs w' = jobs w ++ [row] ->
  bindings type taskId w' =
    bindings type taskId w ++
    (if decide (job_taskId row = taskId /\ job_type row = type) then [row] else []).
Proof.
  intros Hjobs. unfold bindings, task_jobs. rewrite Hjobs, !filter_app. f_equal.
  rewrite (filter_cons _ row), filter_nil.
  destruct (decide (job_taskId row = taskId)) as [Ht|Ht].
  - rewrite (filter_cons _ row), filter_nil.
    destruct (decide (job_type row = type)) as [Hy|Hy].
    + by rewrite decide_True.
    + by rewrite decide_False by (by intros [_ ?]).
  - rewrite filter_nil. by rewrite decide_False by (by intros [? _]).
Qed.

(** ** What keeps the invariant *)

(** Rows taken out of the job store. *)
Lemma store_ok_and_removed type taskId C w w' :
  tasks w' = tasks w -> jobs w' `sublist_of` jobs w ->
  store_ok_and type taskId C w -> store_ok_and type taskId C w'.
Proof.
  intros Htasks Hsub [[Huniq Hfk] Hnone]. split; [split|].
  - intros ty tid. etrans; [|apply (Huniq ty tid)].
    by apply sublist_length, bindings_sublist.
  - intros j Hj. rewrite Htasks. apply Hfk. by eapply elem_of_sublist.
  - intros HC. apply sublist_nil_r. rewrite <- (Hnone HC). by apply bindings_sublist.
Qed.

(** Rows of tasks rewritten, or added, with every id kept. *)
Lemma store_ok_and_tasks type taskId C w w' :
  id <$> tasks w ⊆ id <$> tasks w' -> jobs w' = jobs w ->
  store_ok_and type taskId C w -> store_ok_and type taskId C w'.
Proof.
  intros Hids Hjobs [[Huniq Hfk] Hnone].
  assert (forall ty tid, bindings ty tid w' = bindings ty tid w) as Hsame.
  { intros ty tid. unfold bindings, task_jobs. by rewrite Hjobs. }
  split; [split|].
  - intros ty tid. rewrite Hsame. apply Huniq.
  - intros j Hj. apply Hids, Hfk. by rewrite <- Hjobs.
  - intros HC. rewrite Hsame. by apply Hnone.
Qed.

(** A binding added for a task that had none of that type. *)
Lemma store_ok_and_added type taskId C w w' jid type' :
  tasks w' = tasks w -> jobs w' = jobs w ++ [mkDbJob jid type' taskId] ->
  taskId ∈ id <$> tasks w ->
  bindings type' taskId w = [] ->
  type' <> type ->
  store_ok_and type taskId C w -> store_ok_and type taskId C w'.
Proof.
  intros Htasks Hjobs Htask Hfree Hother [[Huniq Hfk] Hnone]. split; [split|].
  - intros ty tid. rewrite (bindings_added ty tid w w' _ Hjobs). cbn.
    case_decide as Hrow; [|rewrite app_nil_r; apply Huniq].
    destruct Hrow as [<- <-]. by rewrite Hfree.
  - intros j Hj. rewrite Htasks. rewrite Hjobs in Hj.
    apply elem_of_app in Hj as [Hj|Hj]; [by apply Hfk|].
    apply list_elem_of_singleton in Hj. by subst.
  - intros HC. rewrite (bindings_added type taskId w w' _ Hjobs). cbn.
    rewrite decide_False by (by intros [_ ?]). rewrite app_nil_r. by apply Hnone.
Qed.

(** ** What the facade does to the two tables *)

Global Instance db_is_job_queue_blind ts js : JobQueueBlind (db_is ts js).
Proof. by intros q w [? ?]. Qed.
Global Instance db_is_schedulers_blind ts js : SchedulersBlind (db_is ts js).
Proof. by intros q w [? ?]. Qed.

Section facade_effects.
Context (env : Env) (w : World).

(** Scheduling writes at most one row, a binding of the task. *)
Lemma wp_JobsService_scheduleSingle req taskId (Q : Res SingleJob -> World -> Prop) :
  (forall r w', tasks w' = tasks w -> jobs w' = jobs w -> Q r w') ->
  (forall r jid w',
     tasks w' = tasks w -> jobs w' = jobs w ++ [mkDbJob jid SINGLE taskId] ->
     taskId ∈ id <$> tasks w -> Q r w') ->
  wp (JobsService.scheduleSingle env req taskId) Q w.
Proof.
  intros Hsame Hadded. unfold JobsService.scheduleSingle.
  eapply (wp_bind_preserved (db_is (tasks w) (jobs w))); [pres|done| |].
  - intros job w1 [Ht Hj].
    apply wp_bind, wp_JobsRepository_save; [intros e; by apply Hsame|].
    intros _ Htask. wp_steps. eapply Hadded; cbn; by rewrite ?Ht, ?Hj in *.
  - intros e w1 [Ht Hj]. by apply Hsame.
Qed.

Lemma wp_JobsService_scheduleCron req taskId (Q : Res CronJob -> World -> Prop) :
  (forall r w', tasks w' = tasks w -> jobs w' = jobs w -> Q r w') ->
  (forall r jid w',
     tasks w' = tasks w -> jobs w' = jobs w ++ [mkDbJob jid CRON taskId] ->
     taskId ∈ id <$> tasks w -> Q r w') ->
  wp (JobsService.scheduleCron env req taskId) Q w.
Proof.
  intros Hsame Hadded. unfold JobsService.scheduleCron.
  eapply (wp_bind_preserved (db_is (tasks w) (jobs w))); [pres|done| |].
  - intros job w1 [Ht Hj].
    apply wp_bind, wp_JobsRepository_save; [intros e; by apply Hsame|].
    intros _ Htask. wp_steps. eapply Hadded; cbn; by rewrite ?Ht, ?Hj in *.
  - intros e w1 [Ht Hj]. by apply Hsame.
Qed.

(** Unscheduling only takes rows out. *)
Lemma wp_JobsService_unscheduleSingle jid (Q : Res SingleJob -> World -> Prop) :
  (forall r w', tasks w' = tasks w -> jobs w' `sublist_of` jobs w -> Q r w') ->
  wp (JobsService.unscheduleSingle env jid) Q w.
Proof.
  intros Hless. unfold JobsService.unscheduleSingle.
  eapply (wp_bind_preserved (db_is (tasks w) (jobs w))); [pres|done| |].
  - intros job w1 [Ht Hj].
    apply wp_bind, wp_JobsRepository_remove; [intros e; apply Hless; by rewrite ?Hj|].
    intros b. wp_steps. apply Hless; cbn; [done|]. rewrite Hj. apply sublist_filter.
  - intros e w1 [Ht Hj]. apply Hless; by rewrite ?Hj.
Qed.

Lemma wp_JobsService_unscheduleCron jid (Q : Res CronJob -> World -> Prop) :
  (forall r w', tasks w' = tasks w -> jobs w' `sublist_of` jobs w -> Q r w') ->
  wp (JobsService.unscheduleCron env jid) Q w.
Proof.
  intros Hless. unfold JobsService.unscheduleCron.
  eapply (wp_bind_preserved (db_is (tasks w) (jobs w))); [pres|done| |].
  - intros job w1 [Ht Hj].
    apply wp_bind, wp_JobsRepository_remove; [intros e; apply Hless; by rewrite ?Hj|].
    intros b. wp_steps. apply Hless; cbn; [done|]. rewrite Hj. apply sublist_filter.
  - intros e w1 [Ht Hj]. apply Hless; by rewrite ?Hj.
Qed.

(** Rescheduling writes to neither table. *)
Lemma wp_JobsService_rescheduleSingle dto (Q : Res SingleJob -> World -> Prop) :
  (forall r w', tasks w' = tasks w -> jobs w' = jobs w -> Q r w') ->
  wp (JobsService.rescheduleSingle env dto) Q w.
Proof.
  intros Hsame. eapply wp_mono.
  - by apply (preserves_JobsService_rescheduleSingle (db_is (tasks w) (jobs w))).
  - intros r w' [Ht Hj]. by apply Hsame.
Qed.

Lemma wp_JobsService_rescheduleCron dto (Q : Res CronJob -> World -> Prop) :
  (forall r w', tasks w' = tasks w -> jobs w' = jobs w -> Q r w') ->
  wp (JobsService.rescheduleCron env dto) Q w.
Proof.
  intros Hsame. eapply wp_mono.
  - by apply (preserves_JobsService_rescheduleCron (db_is (tasks w) (jobs w))).
  - intros r w' [Ht Hj]. by apply Hsame.
Qed.

End facade_effects.

(** ** [update] keeps the invariant *)

Lemma wp_TasksRepository_update env wh f (Q : Res (option DbTask) -> World -> Prop) w :
  (forall e, Q (Throw e) w) ->
  (forall r ts, id <$> ts = id <$> tasks w -> Q (Ok r) (set_tasks ts w)) ->
  wp (TasksRepository.update env wh f) Q w.
Proof.
  intros Hthrow Hok. unfold TasksRepository.update. wp_steps; [done|].
  destruct (TasksRepository.no_values f); [by wp_steps|].
  cbn zeta.
  assert (forall r, Q (Ok r)
            (set_tasks ((fun t => if TasksRepository.matches wh t
                                  then TasksRepository.set_fields env f t else t)
                        <$> tasks w) w)) as Hrows.
  { intros r. apply Hok. rewrite <- list_fmap_compose. apply list_fmap_ext.
    intros i t _. cbn. by destruct (TasksRepository.matches wh t). }
  apply wp_bind.
  destruct (df_scheduleId f) as [s|],
    (filter (fun t => TasksRepository.matches wh t = true) (tasks w)) as [|t ts];
    try case_bool_decide; wp_steps; done.
Qed.

Lemma find_type_None_bindings type taskId w :
  TasksService.find_type type (task_jobs taskId w) = None ->
  bindings type taskId w = [].
Proof.
  unfold TasksService.find_type, bindings. by destruct (filter _ _).
Qed.

Section reconcile.
Context (env : Env) (updatedTask : DbTask) (taskId : string).
Context (fields : option TaskUpdateFields) (jobs0 : list DbJob).

Lemma wp_reconcile_dueTo_set C w :
  store_ok_and CRON taskId C w ->
  (TasksService.find_type SINGLE jobs0 = None -> bindings SINGLE taskId w = []) ->
  wp (TasksService.reconcile_dueTo_set env updatedTask taskId fields jobs0)
     (fun _ w' => store_ok_and CRON taskId C w') w.
Proof.
  intros Hok Hfree. unfold TasksService.reconcile_dueTo_set.
  destruct (TasksService.truthy_date _) as [due|]; [|by wp_steps].
  destruct (TasksService.find_type SINGLE jobs0) as [job|].
  - apply wp_bind, wp_JobsService_rescheduleSingle. intros [r|e] w' Ht Hj;
      wp_steps; apply (store_ok_and_tasks _ _ _ w); try done; by rewrite Ht.
  - apply wp_bind, wp_JobsService_scheduleSingle.
    + intros [r|e] w' Ht Hj;
        wp_steps; apply (store_ok_and_tasks _ _ _ w); try done; by rewrite Ht.
    + intros [r|e] jid w' Ht Hj Htask; wp_steps;
        by apply (store_ok_and_added CRON taskId C w w' jid SINGLE); auto.
Qed.

Lemma wp_reconcile_dueTo_null type C w :
  store_ok_and type taskId C w ->
  wp (TasksService.reconcile_dueTo_null env fields jobs0)
     (fun _ w' => store_ok_and type taskId C w') w.
Proof.
  intros Hok. unfold TasksService.reconcile_dueTo_null.
  destruct (TasksService.fields_dueTo fields); try by wp_steps.
  destruct (TasksService.find_type SINGLE jobs0) as [job|]; [|by wp_steps].
  apply wp_bind, wp_JobsService_unscheduleSingle. intros [r|e] w' Ht Hj;
    wp_steps; by apply (store_ok_and_removed _ _ _ w).
Qed.

Lemma wp_reconcile_repeat_set w :
  store_ok_and CRON taskId (TasksService.find_type CRON jobs0 = None) w ->
  wp (TasksService.reconcile_repeat_set env updatedTask taskId fields jobs0)
     (fun _ w' => store_ok w') w.
Proof.
  intros [Hok Hfree]. unfold TasksService.reconcile_repeat_set.
  assert (forall w', tasks w' = tasks w -> jobs w' = jobs w -> store_ok w') as Hsame.
  { intros w' Ht Hj.
    apply (store_ok_and_tasks SINGLE taskId False w); try done; by rewrite Ht. }
  destruct (TasksService.truthy_string _) as [cron|]; [|by wp_steps].
  destruct (TasksService.find_type CRON jobs0) as [job|].
  - apply wp_bind, wp_JobsService_rescheduleCron. intros [r|e] w' Ht Hj;
      wp_steps; by apply Hsame.
  - apply wp_bind, wp_JobsService_scheduleCron.
    + intros [r|e] w' Ht Hj; wp_steps; by apply Hsame.
    + intros [r|e] jid w' Ht Hj Htask; wp_steps;
        by apply (store_ok_and_added SINGLE taskId False w w' jid CRON); auto.
Qed.

Lemma wp_reconcile_repeat_null w :
  store_ok w ->
  wp (TasksService.reconcile_repeat_null env fields jobs0) (fun _ w' => store_ok w') w.
Proof.
  intros Hok. unfold TasksService.reconcile_repeat_null.
  destruct (TasksService.fields_repeat fields); try by wp_steps.
  destruct (TasksService.find_type CRON jobs0) as [job|]; [|by wp_steps].
  apply wp_bind, wp_JobsService_unscheduleCron. intros [r|e] w' Ht Hj;
    wp_steps; by apply (store_ok_and_removed SINGLE taskId False w).
Qed.

End reconcile.

Lemma update_keeps_store_ok env dto w :
  store_ok w -> store_ok (TasksService.update env dto w).2.
Proof.
  intros Hok.
  change (wp (TasksService.update env dto) (fun _ w' => store_ok w') w).
  unfold TasksService.update. cbn zeta.
  eapply (wp_bind_preserved (fun w' => w' = w));
    [pres|done|intros _ w' ->|by intros e w' ->].
  apply wp_bind, wp_TasksRepository_update; [done|].
  intros [updatedTask|] ts Hids; [|by apply wp_throw;
    apply (store_ok_and_tasks SINGLE "" False w); cbn; rewrite ?Hids].
  set (w1 := set_tasks ts w).
  assert (store_ok w1) as Hok1.
  { apply (store_ok_and_tasks SINGLE "" False w); cbn; by rewrite ?Hids. }
  apply wp_bind, wp_findByTaskId; [done|].
  set (taskId := w_id (u_where dto)). set (jobs0 := task_jobs taskId w1).
  apply wp_bind. eapply wp_mono.
  { apply (wp_reconcile_dueTo_set env updatedTask taskId (u_fields dto) jobs0
             (TasksService.find_type CRON jobs0 = None)).
    - split; [done|]. apply find_type_None_bindings.
    - apply find_type_None_bindings. }
  intros [[]|e] w2 Hok2; [|by destruct Hok2].
  apply wp_bind. eapply wp_mono; [by apply wp_reconcile_dueTo_null|].
  intros [[]|e] w3 Hok3; [|by destruct Hok3].
  apply wp_bind. eapply wp_mono; [by apply wp_reconcile_repeat_set|].
  intros [[]|e] w4 Hok4; [|done].
  apply wp_bind. eapply wp_mono; [by apply (wp_reconcile_repeat_null env taskId)|].
  intros [[]|e] w5 Hok5; [|done].
  by apply wp_ret.
Qed.

(** ** [create] keeps the invariant *)

Lemma store_ok_same w w' :
  tasks w' = tasks w -> jobs w' = jobs w -> store_ok w -> store_ok w'.
Proof.
  intros Ht Hj Hok.
  apply (store_ok_and_tasks SINGLE "" False w); try done; by rewrite Ht.
Qed.

Lemma store_ok_removed w w' :
  tasks w' = tasks w -> jobs w' `sublist_of` jobs w -> store_ok w -> store_ok w'.
Proof. intros Ht Hj Hok. by apply (store_ok_and_removed SINGLE "" False w). Qed.

Lemma wp_TasksRepository_create env dto due (Q : Res DbTask -> World -> Prop) w :
  (forall e, Q (Throw e) w) ->
  (let row := TasksRepository.new_row env dto due in
   id row ∉ id <$> tasks w -> Q (Ok row) (set_tasks (tasks w ++ [row]) w)) ->
  wp (TasksRepository.create env dto due) Q w.
Proof.
  intros Hthrow Hok. unfold TasksRepository.create. wp_steps; [done|].
  cbn zeta in *. repeat case_bool_decide; wp_steps; auto.
Qed.

(** A task that is not in the table has no binding. *)
Lemma fresh_task_has_no_binding type taskId w :
  foreign_keys w -> taskId ∉ id <$> tasks w -> bindings type taskId w = [].
Proof.
  intros Hfk Hfresh. unfold bindings, task_jobs.
  rewrite (filter_none (fun j => job_taskId j = taskId)); [done|].
  intros j Hj Htask. apply Hfresh. rewrite <- Htask. by apply Hfk.
Qed.

Lemma create_keeps_store_ok env dto w :
  store_ok w -> store_ok (TasksService.create env dto w).2.
Proof.
  intros Hok.
  change (wp (TasksService.create env dto) (fun _ w' => store_ok w') w).
  unfold TasksService.create.
  eapply (wp_bind_preserved (fun w' => w' = w));
    [pres|done|intros [dbSchedule|] w' ->|by intros e w' ->];
    [|by apply wp_throw].
  apply wp_bind, wp_TasksRepository_create; [done|].
  intros row Hfresh. set (w1 := set_tasks (tasks w ++ [row]) w).
  assert (store_ok_and CRON (id row) True w1) as Hok1.
  { apply (store_ok_and_tasks CRON (id row) True w); cbn; [|done|].
    - rewrite fmap_app. intros x Hx. apply elem_of_app. by left.
    - split; [done|]. intros _. apply fresh_task_has_no_binding; [apply Hok|done]. }
  assert (bindings SINGLE (id row) w1 = []) as Hfree1.
  { change (bindings SINGLE (id row) w = []).
    apply fresh_task_has_no_binding; [apply Hok|done]. }
  assert (id row ∈ id <$> tasks w1) as Hrow.
  { cbn. rewrite fmap_app. apply elem_of_app. right. apply list_elem_of_here. }
  apply wp_bind with
    (Q := fun r w' => store_ok w').
  assert (wp match dueTo row with
             | Some due0 =>
                 run JobsService.scheduleSingle env
                       {| ss_name := BrokerTask.SCHEDULE_SINGLE_JOB;
                          ss_executionDate := due0;
                          ss_ackEventName := TaskEvent.DUE;
                          ss_payload := TasksService.job_payload (id row) (name row)
                                          (userId row) |} (id row);
                 ret tt
             | None => ret tt
             end
            (fun _ w' => store_ok_and CRON (id row) True w') w1) as Hsingle.
  { destruct (dueTo row) as [due0|]; [|by wp_steps].
    apply wp_bind, wp_JobsService_scheduleSingle.
    - intros [r|e] w' Ht Hj; wp_steps;
        apply (store_ok_and_tasks _ _ _ w1); try done; by rewrite Ht.
    - intros [r|e] jid w' Ht Hj Htask; wp_steps;
        by apply (store_ok_and_added CRON (id row) True w1 w' jid SINGLE). }
  eapply wp_mono; [exact Hsingle|].
  intros [[]|e] w2 [Hok2 Hfree2]; [|done].
  apply wp_bind.
  destruct (TasksService.truthy_opt (repeat row)) as [cron|]; [|by wp_steps].
  apply wp_bind, wp_JobsService_scheduleCron.
  - intros [r|e] w' Ht Hj; wp_steps; by apply (store_ok_same w2).
  - intros [r|e] jid w' Ht Hj Htask; wp_steps;
      by apply (store_ok_and_added SINGLE (id row) False w2 w' jid CRON); auto.
Qed.

(** ** [remove] keeps the invariant *)

Lemma wp_TasksRepository_remove env wh (Q : Res (option DbTask) -> World -> Prop) w :
  (forall e, Q (Throw e) w) ->
  (forall r,
     (forall j, j ∈ jobs w ->
        job_taskId j ∉ id <$> filter (fun t => TasksRepository.matches wh t = true)
                                (tasks w)) ->
     Q (Ok r)
       (set_tasks (filter (fun t => TasksRepository.matches wh t = false) (tasks w)) w)) ->
  wp (TasksRepository.remove env wh) Q w.
Proof.
  intros Hthrow Hok. unfold TasksRepository.remove. wp_steps; [done|].
  cbn zeta. case_bool_decide as Hex; wp_steps; [done|].
  apply Hok. intros j Hj Href. apply Hex, Exists_exists. by exists j.
Qed.

Lemma remove_keeps_store_ok env wh w :
  store_ok w -> store_ok (TasksService.remove env wh w).2.
Proof.
  intros Hok.
  change (wp (TasksService.remove env wh) (fun _ w' => store_ok w') w).
  unfold TasksService.remove.
  eapply (wp_bind_preserved (fun w' => w' = w));
    [pres|done|intros [task|] w' ->|by intros e w' ->];
    [|by apply wp_throw].
  apply wp_bind, wp_findByTaskId; [done|].
  apply wp_bind with (Q := fun r w' => store_ok w').
  eapply wp_mono with (Q := fun _ w' => store_ok w').
  { unfold TasksService.unschedule_dueTo.
    repeat case_match; try by wp_steps.
    apply wp_bind, wp_JobsService_unscheduleSingle. intros [r|e] w' Ht Hj;
      wp_steps; by apply (store_ok_removed w). }
  intros [[]|e] w2 Hok2; [|done].
  apply wp_bind. eapply wp_mono with (Q := fun _ w' => store_ok w').
  { unfold TasksService.unschedule_repeat.
    repeat case_match; try by wp_steps.
    apply wp_bind, wp_JobsService_unscheduleCron. intros [r|e] w' Ht Hj;
      wp_steps; by apply (store_ok_removed w2). }
  intros [[]|e] w3 Hok3; [|done].
  apply wp_bind, wp_TasksRepository_remove; [done|].
  intros r Hfree. wp_steps. destruct Hok3 as [Huniq Hfk]. split.
  - intros type taskId. apply Huniq.
  - intros j Hj. cbn in *.
    pose proof (Hfk j Hj) as Htask. apply list_elem_of_fmap in Htask as (t & Hid & Ht).
    apply list_elem_of_fmap. exists t. split; [done|].
    apply list_elem_of_filter. split; [|done].
    destruct (TasksRepository.matches wh t) eqn:Hmatch; [|done].
    exfalso. apply (Hfree j Hj). rewrite Hid. apply list_elem_of_fmap_2.
    by apply list_elem_of_filter.
Qed.

(** ** Every operation keeps the invariant *)

Lemma step_keeps_store_ok env op w : store_ok w -> store_ok (step env op w).
Proof.
  destruct op; cbn.
  - apply create_keeps_store_ok.
  - apply update_keeps_store_ok.
  - apply remove_keeps_store_ok.
Qed.

(** C2. From a state of the two tables in which no task has two bindings of
    one type (and, as the foreign key of the job store has it, every binding is
    of a task that exists), every sequence of create, update and remove, in any
    environment and whether the calls return or throw, leaves after each
    operation a state in which no task has two bindings of one type. *)
Theorem at_most_one_binding_of_each_type calls w :
  unique_bindings w ->
  foreign_keys w ->
  Forall (fun w' => unique_bindings w' /\ foreign_keys w') (history calls w).
Proof.
  intros Huniq Hfk. assert (store_ok w) as Hok by done. clear Huniq Hfk.
  revert w Hok. induction calls as [|[env op] calls IH]; intros w Hok; cbn.
  - constructor.
  - pose proof (step_keeps_store_ok env op w Hok) as Hok'.
    constructor; [done|]. by apply IH.
Qed.

Lemma store_ok_empty : unique_bindings Sample.empty /\ foreign_keys Sample.empty.
Proof.
  split.
  - intros type taskId. cbn. lia.
  - intros j Hj. by apply not_elem_of_nil in Hj.
Qed.

Lemma at_most_one_binding_of_each_type_witness :
  Forall (fun w' => unique_bindings w' /\ foreign_keys w')
    (history
       [(Sample.env, Create Sample.dto);
        (Sample.env', Update {| u_where := mkWhere "t1" (Some "u1");
                                u_fields := Some (Sample.with_dueTo (Val (Iso 9000))) |});
        (Sample.env', Remove (mkWhere "t1" (Some "u1")))]
       Sample.empty).
Proof.
  exact (at_most_one_binding_of_each_type _ Sample.empty
           (proj1 store_ok_empty) (proj2 store_ok_empty)).
Defined.

(** * The engine, beyond rescheduling *)

(** A world whose queue is put back is the same world. *)
Lemma set_queue_same w : set_queue (mkQueue (q_jobs (queue w)) (q_schedulers (queue w))) w = w.
Proof. by destruct w as [ts ss js [qj qs] b e]. Qed.

(** X1. In the engine, [unscheduleSingle] undoes [scheduleSingle]: when the
    queue takes the job under a new, non-empty id, unscheduling the id that
    [scheduleSingle] returned gives back the same handle, with the execution
    date that was asked for (computed from the time stamp and the delay of
    the job, the time stamp being the instant at which the delay was
    computed), and the queue is as it was before the job was scheduled. *)
Theorem unscheduleSingle_undoes_scheduleSingle env env' dto w :
  fails env QueueAdd = false ->
  fails env' QueueGetJob = false ->
  fails env' QueueJobRemove = false ->
  singleUuid env <> "" ->
  q_jobs (queue w) !! singleUuid env = None ->
  let scheduled := Engine.scheduleSingle env dto w in
  let handle := {| sj_id := singleUuid env; sj_name := ss_name dto;
                   sj_executionDate := ss_executionDate dto; sj_type := SINGLE |} in
  scheduled.1 = Ok handle /\
  Engine.unscheduleSingle env' (singleUuid env) scheduled.2 = (Ok handle, w).
Proof.
  intros Hadd Hget Hremove Hid Hfresh. cbn zeta.
  rewrite (scheduleSingle_any_date env dto w Hadd Hfresh). cbn [fst snd].
  rewrite or_else_truthy by done. split; [done|].
  unfold Engine.unscheduleSingle, try_catch, bind, Bull.getJob, Bull.remove,
    guard, get, modify, ret.
  rewrite Hget. cbn. rewrite lookup_insert_eq. cbn. rewrite Hremove. cbn.
  rewrite or_else_truthy by done.
  rewrite delete_insert_id by done.
  f_equal; [|by destruct w as [ts ss js [qj qs] b e]].
  do 2 f_equal. lia.
Qed.

Lemma unscheduleSingle_undoes_scheduleSingle_witness :
  let dto := {| ss_name := "jobs.schedule.single"; ss_executionDate := 5000;
                ss_ackEventName := "TASK_DUE"; ss_payload := ∅ |} in
  Engine.unscheduleSingle Sample.env' "j1" (Engine.scheduleSingle Sample.env dto Sample.empty).2
  = (Ok {| sj_id := "j1"; sj_name := "jobs.schedule.single";
           sj_executionDate := 5000; sj_type := SINGLE |}, Sample.empty).
Proof.
  intros dto.
  apply (unscheduleSingle_undoes_scheduleSingle Sample.env Sample.env' dto Sample.empty);
    done.
Defined.

(** X2. In the engine, [unscheduleCron] undoes [scheduleCron]: unscheduling
    the key that [scheduleCron] drew returns the handle of the recurring job
    (with ['no-pattern'] in place of an empty pattern) and leaves the
    schedulers of the queue as they were before, when the key was new. *)
Theorem unscheduleCron_undoes_scheduleCron env env' dto w :
  fails env QueueUpsertJobScheduler = false ->
  fails env' QueueGetJobScheduler = false ->
  fails env' QueueRemoveJobScheduler = false ->
  q_schedulers (queue w) !! cronUuid env = None ->
  let scheduled := Engine.scheduleCron env dto w in
  scheduled.1 = Ok {| cj_id := cronUuid env; cj_name := sc_name dto;
                      cj_cron := sc_cron dto; cj_type := CRON |} /\
  Engine.unscheduleCron env' (cronUuid env) scheduled.2 =
    (Ok {| cj_id := cronUuid env; cj_name := sc_name dto;
           cj_cron := or_else (sc_cron dto) "no-pattern"; cj_type := CRON |}, w).
Proof.
  intros Hup Hget Hremove Hfresh. cbn zeta.
  rewrite (scheduleCron_eq env dto w Hup). cbn [fst snd]. split; [done|].
  unfold Engine.unscheduleCron, try_catch, bind, Bull.getJobScheduler,
    Bull.removeJobScheduler, guard, get, put, ret.
  rewrite Hget. cbn. rewrite lookup_insert_eq. cbn. rewrite Hremove. cbn.
  rewrite delete_insert_id by done.
  f_equal. by destruct w as [ts ss js [qj qs] b e].
Qed.

Lemma unscheduleCron_undoes_scheduleCron_witness :
  let dto := {| sc_name := "jobs.schedule.cron"; sc_cron := "0 8 * * *";
                sc_ackEventName := "TASK_REPEATED"; sc_payload := ∅ |} in
  Engine.unscheduleCron Sample.env' "c1" (Engine.scheduleCron Sample.env dto Sample.empty).2
  = (Ok {| cj_id := "c1"; cj_name := "jobs.schedule.cron";
           cj_cron := "0 8 * * *"; cj_type := CRON |}, Sample.empty).
Proof.
  intros dto.
  exact (proj2 (unscheduleCron_undoes_scheduleCron Sample.env Sample.env' dto
                  Sample.empty eq_refl eq_refl eq_refl eq_refl)).
Defined.

(** X3. [rescheduleCron] of the engine: a key that the queue does not hold
    gives a [JobException] whose cause names the key, and the queue is as it
    was; for a key that it holds, the scheduler is put back under the same
    key with its name and its payload, only the pattern replaced, and neither
    the jobs of the queue nor any other scheduler changes. *)
Theorem rescheduleCron_replaces_the_pattern env dto w :
  fails env QueueGetJobScheduler = false ->
  fails env QueueUpsertJobScheduler = false ->
  queue_wf (queue w) ->
  Engine.rescheduleCron env dto w =
    match q_schedulers (queue w) !! rc_id dto with
    | None =>
        (Throw (JobException "error while rescheduling cron job"
                  (Error ("Cannot reschedule cron job with id " +:+ rc_id dto
                          +:+ ", because it does not exist"))
                  (rc_id dto)), w)
    | Some s =>
        (Ok {| cj_id := rc_id dto; cj_name := s_name s;
               cj_cron := rc_cron dto; cj_type := CRON |},
         set_queue
           (mkQueue (q_jobs (queue w))
              (<[rc_id dto := {| key := rc_id dto; s_name := s_name s;
                                 pattern := rc_cron dto;
                                 template_data := template_data s |}]>
                 (q_schedulers (queue w)))) w)
    end.
Proof.
  intros Hget Hup [_ Hkeys].
  unfold Engine.rescheduleCron, try_catch, bind, Bull.getJobScheduler,
    Bull.upsertJobScheduler, guard, get, modify, ret, throw.
  rewrite Hget. cbn.
  destruct (q_schedulers (queue w) !! rc_id dto) as [s|] eqn:Hs; cbn; [|done].
  rewrite Hup. cbn. by rewrite (Hkeys _ _ Hs).
Qed.

Lemma rescheduleCron_replaces_the_pattern_witness :
  Engine.rescheduleCron Sample.env' (mkRescheduleCron "c1" "0 9 * * 1") Sample.created =
    match q_schedulers (queue Sample.created) !! "c1" with
    | None =>
        (Throw (JobException "error while rescheduling cron job"
                  (Error ("Cannot reschedule cron job with id " +:+ "c1"
                          +:+ ", because it does not exist")) "c1"), Sample.created)
    | Some s =>
        (Ok {| cj_id := "c1"; cj_name := s_name s;
               cj_cron := "0 9 * * 1"; cj_type := CRON |},
         set_queue
           (mkQueue (q_jobs (queue Sample.created))
              (<["c1" := {| key := "c1"; s_name := s_name s; pattern := "0 9 * * 1";
                            template_data := template_data s |}]>
                 (q_schedulers (queue Sample.created)))) Sample.created)
    end.
Proof.
  exact (rescheduleCron_replaces_the_pattern Sample.env'
           (mkRescheduleCron "c1" "0 9 * * 1") Sample.created eq_refl eq_refl
           queue_wf_created).
Defined.

(** X4. [rescheduleSingle] of the engine takes the job out of the queue
    before it puts it back: when the queue then refuses the new job, the call
    throws and the job is gone, under its old date as well. *)
Theorem rescheduleSingle_loses_the_job_when_add_fails env dto w job :
  fails env QueueGetJob = false ->
  fails env QueueJobRemove = false ->
  fails env QueueAdd = true ->
  q_jobs (queue w) !! rs_id dto = Some job ->
  j_id job = rs_id dto ->
  now env < rs_executionDate dto ->
  let r := Engine.rescheduleSingle env dto w in
  r.1 = Throw (JobException "error while rescheduling single job"
                 (Infrastructure QueueAdd) (rs_id dto)) /\
  q_jobs (queue r.2) !! rs_id dto = None /\
  (forall k, k <> rs_id dto -> q_jobs (queue r.2) !! k = q_jobs (queue w) !! k).
Proof.
  intros Hget Hremove Hadd Hjob Hid Hfuture. cbn zeta.
  unfold Engine.rescheduleSingle, try_catch, bind, Bull.getJob, Bull.remove, Bull.add,
    guard, get, modify, ret, throw.
  rewrite Hget. cbn. rewrite Hjob. cbn.
  rewrite bool_decide_eq_false_2 by lia. cbn.
  rewrite Hremove. cbn. rewrite Hadd. cbn. rewrite Hid.
  split; [done|]. split; [apply lookup_delete_eq|].
  intros k Hk. by apply lookup_delete_ne.
Qed.

Lemma rescheduleSingle_loses_the_job_when_add_fails_witness :
  let env := {| now := 2000; taskUuid := "t2"; singleUuid := "j2"; cronUuid := "c2";
                fails := fun site => bool_decide (site = QueueAdd) |} in
  q_jobs (queue (Engine.rescheduleSingle env (mkRescheduleSingle "j1" 9000)
                   Sample.created).2) !! "j1" = None.
Proof.
  intros env.
  refine (proj1 (proj2 (rescheduleSingle_loses_the_job_when_add_fails env
            (mkRescheduleSingle "j1" 9000) Sample.created
            {| j_id := "j1"; j_name := "jobs.schedule.single";
               j_data := <["ackEventName" := "TASK_DUE"]>
                           (TasksService.job_payload "t1" "water the plants" "u1");
               j_opts := {| delay := 4000; jobId := "j1" |};
               j_timestamp := 1000 |}
            eq_refl eq_refl eq_refl _ eq_refl _))).
  - vm_compute. reflexivity.
  - cbn. lia.
Defined.

(** X5. Unscheduling is not idempotent in the engine.  [unscheduleSingle] of
    a job that the queue holds removes it and returns its handle, whose
    execution date is the time stamp of the job plus its delay; a second
    [unscheduleSingle] of the same id throws a [JobException] and leaves the
    queue as the first call left it.  The same holds for [unscheduleCron] and a
    scheduler. *)
Theorem unscheduling_twice_throws env env' jid w :
  fails env QueueGetJob = false -> fails env QueueJobRemove = false ->
  fails env' QueueGetJob = false ->
  fails env QueueGetJobScheduler = false -> fails env QueueRemoveJobScheduler = false ->
  fails env' QueueGetJobScheduler = false ->
  queue_wf (queue w) ->
  (forall job, q_jobs (queue w) !! jid = Some job ->
     let first := Engine.unscheduleSingle env jid w in
     first.1 = Ok {| sj_id := or_else jid "no-id"; sj_name := j_name job;
                     sj_executionDate := j_timestamp job + delay (j_opts job);
                     sj_type := SINGLE |} /\
     Engine.unscheduleSingle env' jid first.2 =
       (Throw (JobException "error while unscheduling single job"
                 (Error "Cannot reschedule single job, because it does not exist") jid),
        first.2)) /\
  (forall s, q_schedulers (queue w) !! jid = Some s ->
     let first := Engine.unscheduleCron env jid w in
     first.1 = Ok {| cj_id := jid; cj_name := s_name s;
                     cj_cron := or_else (pattern s) "no-pattern"; cj_type := CRON |} /\
     Engine.unscheduleCron env' jid first.2 =
       (Throw (JobException "error while unscheduling cron job"
                 (Error "Cannot unschedule cron job, because it does not exist") jid),
        first.2)).
Proof.
  intros Hg Hr Hg' Hgs Hrs Hgs' [Hjobs Hkeys]. split.
  - intros job Hjob. destruct (Hjobs _ _ Hjob) as [Hid _]. cbn zeta.
    unfold Engine.unscheduleSingle, try_catch, bind, Bull.getJob, Bull.remove,
      guard, get, modify, ret, throw.
    rewrite Hg, Hg'. cbn. rewrite Hjob. cbn. rewrite Hr. cbn.
    rewrite Hid. split; [done|]. by rewrite lookup_delete_eq.
  - intros s Hs. pose proof (Hkeys _ _ Hs) as Hkey. cbn in Hkey. cbn zeta.
    unfold Engine.unscheduleCron, try_catch, bind, Bull.getJobScheduler,
      Bull.removeJobScheduler, guard, get, put, ret, throw.
    rewrite Hgs, Hgs'. cbn. rewrite Hs. cbn. rewrite Hrs. cbn.
    rewrite Hkey. split; [done|]. by rewrite lookup_delete_eq.
Qed.

Lemma unscheduling_twice_throws_witness :
  let first := Engine.unscheduleSingle Sample.env' "j1" Sample.created in
  Engine.unscheduleSingle Sample.env' "j1" first.2 =
    (Throw (JobException "error while unscheduling single job"
              (Error "Cannot reschedule single job, because it does not exist") "j1"),
     first.2).
Proof.
  intros first.
  refine (proj2 (proj1 (unscheduling_twice_throws Sample.env' Sample.env' "j1"
            Sample.created eq_refl eq_refl eq_refl eq_refl eq_refl eq_refl
            queue_wf_created)
            {| j_id := "j1"; j_name := "jobs.schedule.single";
               j_data := <["ackEventName" := "TASK_DUE"]>
                           (TasksService.job_payload "t1" "water the plants" "u1");
               j_opts := {| delay := 4000; jobId := "j1" |};
               j_timestamp := 1000 |} _)).
  vm_compute. reflexivity.
Defined.

(** * The gRPC boundary of the engine *)

(** The failure of a call of the controller with a given message. *)
Lemma rpc_failure {A} (m : M A) message w :
  (forall e, (m w).1 = Throw e -> exists cause jid, e = JobException message cause jid) ->
  controller_failure message (JobsController.rpc m w).1.
Proof.
  intros Hm. unfold controller_failure, JobsController.rpc, try_catch, throw.
  destruct (m w) as [[a|e] w'] eqn:Hmw; cbn; [done|].
  destruct (Hm e) as (cause & jid & ->); [done|]. cbn. eauto.
Qed.

Lemma try_catch_throws {A} (m : M A) (h : Exception -> Exception) w e :
  (try_catch m (fun err => throw (h err)) w).1 = Throw e -> exists err, e = h err.
Proof.
  unfold try_catch, throw. destruct (m w) as [[a|err] w']; cbn; [done|].
  intros [= <-]. eauto.
Qed.

(** X6. Whatever goes wrong in the engine crosses its gRPC boundary as an
    [RpcException] with the code INTERNAL, whose message is the fixed message
    of the method and whose cause is the [JobException] of the engine: a job
    that does not exist, a date in the past and a queue out of reach are not
    told apart by the code. *)
Theorem engine_failures_are_INTERNAL env w :
  (forall dto, controller_failure "error while scheduling single job"
                 (JobsController.scheduleSingle env dto w).1) /\
  (forall dto, controller_failure "error while scheduling cron job"
                 (JobsController.scheduleCron env dto w).1) /\
  (forall dto, controller_failure "error while rescheduling single job"
                 (JobsController.rescheduleSingle env dto w).1) /\
  (forall dto, controller_failure "error while rescheduling cron job"
                 (JobsController.rescheduleCron env dto w).1) /\
  (forall jid, controller_failure "error while unscheduling single job"
                 (JobsController.unscheduleSingle env jid w).1) /\
  (forall jid, controller_failure "error while unscheduling cron job"
                 (JobsController.unscheduleCron env jid w).1).
Proof.
  repeat split; intros x; apply rpc_failure; intros e He;
    apply try_catch_throws in He as [err ->]; eauto.
Qed.

(** * The job store *)

Lemma filter_job_id_fresh (js : list DbJob) jid :
  jid ∉ job_id <$> js -> filter (fun j => job_id j = jid) js = [].
Proof.
  intros Hfresh. apply filter_none. intros j Hin Hid.
  apply Hfresh. rewrite <- Hid. by apply list_elem_of_fmap_2.
Qed.

Lemma filter_other_job_id_fresh (js : list DbJob) jid :
  jid ∉ job_id <$> js -> filter (fun j => job_id j <> jid) js = js.
Proof.
  intros Hfresh. induction js as [|j js IH]; [done|].
  rewrite filter_cons. cbn in Hfresh.
  rewrite decide_True.
  - f_equal. apply IH. intros Hin. apply Hfresh. by apply list_elem_of_further.
  - intros Hid. apply Hfresh. rewrite <- Hid. apply list_elem_of_here.
Qed.

(** X7. The table [jobs] through its repository: after [save] has returned,
    [findOne] of the id finds the row saved, and it is the only row with that
    id; [findByTaskId] of its task returns it after the rows that the task
    had; [remove] of the id answers true and the table is as it was before
    the row was saved. *)
Theorem save_findOne_remove_round_trip env env' jid type taskId w row :
  (JobsRepository.save env jid type taskId w).1 = Ok row ->
  fails env' JobsFindOne = false ->
  fails env' JobsFindByTaskId = false ->
  fails env' JobsRemove = false ->
  let w' := (JobsRepository.save env jid type taskId w).2 in
  row = mkDbJob jid type taskId /\
  JobsRepository.findOne env' jid w' = (Ok (Some row), w') /\
  filter (fun j => job_id j = jid) (jobs w') = [row] /\
  JobsRepository.findByTaskId env' taskId w' =
    (Ok (filter (fun j => job_taskId j = taskId) (jobs w) ++ [row]), w') /\
  JobsRepository.remove env' jid w' = (Ok true, w).
Proof.
  intros Hsave Hf Hft Hr. cbn zeta. revert Hsave.
  unfold JobsRepository.save, bind, guard, get, put, ret, throw.
  destruct (fails env JobsSave); cbn; [done|].
  case_bool_decide as Hfresh; cbn; [done|].
  case_bool_decide as Htask; cbn; [|done].
  intros [= <-]. split; [done|].
  assert (filter (fun j => job_id j = jid) (jobs w ++ [mkDbJob jid type taskId])
          = [mkDbJob jid type taskId]) as Hone.
  { rewrite filter_app, filter_job_id_fresh by done.
    rewrite filter_cons, decide_True by done. done. }
  unfold JobsRepository.findOne, JobsRepository.findByTaskId, JobsRepository.remove,
    bind, guard, get, put, ret.
  rewrite Hf, Hft, Hr. cbn. rewrite Hone. cbn.
  split; [done|]. split; [done|]. split.
  - rewrite filter_app, filter_cons, decide_True by done. done.
  - f_equal.
    + f_equal. apply bool_decide_eq_true_2. rewrite fmap_app. cbn.
      apply elem_of_app. right. apply list_elem_of_here.
    + rewrite filter_app, filter_other_job_id_fresh by done.
      rewrite filter_cons, decide_False by (cbn; tauto). cbn.
      rewrite app_nil_r. by destruct w.
Qed.

Lemma save_findOne_remove_round_trip_witness :
  JobsRepository.remove Sample.env' "j9"
    (JobsRepository.save Sample.env "j9" SINGLE "t1" Sample.created).2
  = (Ok true, Sample.created).
Proof.
  refine (proj2 (proj2 (proj2 (proj2
            (save_findOne_remove_round_trip Sample.env Sample.env' "j9" SINGLE "t1"
               Sample.created (mkDbJob "j9" SINGLE "t1") _ eq_refl eq_refl eq_refl))))).
  vm_compute. reflexivity.
Defined.

Lemma length_filter_by_type (js : list DbJob) :
  length js = (length (filter (fun j => job_type j = SINGLE) js) +
               length (filter (fun j => job_type j = CRON) js))%nat.
Proof.
  induction js as [|j js IH]; [done|].
  rewrite !filter_cons. destruct (job_type j) eqn:Htype.
  - rewrite decide_True, decide_False by done. cbn. lia.
  - rewrite decide_False, decide_True by done. cbn. lia.
Qed.

(** X8. [findByTaskId] returns at most two jobs, one SINGLE and one CRON, as
    the comment on it says, in every world in which no task has two bindings
    of one type; and so in every world that a sequence of [create], [update]
    and [remove] reaches from such a world that satisfies the foreign key of
    the job store. *)
Theorem findByTaskId_returns_at_most_two env taskId calls w :
  store_ok w ->
  Forall (fun w' =>
            forall l, (JobsService.findByTaskId env taskId w').1 = Ok l ->
                      (length l <= 2)%nat /\
                      (length (filter (fun j => job_type j = SINGLE) l) <= 1)%nat /\
                      (length (filter (fun j => job_type j = CRON) l) <= 1)%nat)
    (w :: history calls w).
Proof.
  intros Hok.
  assert (Forall store_ok (w :: history calls w)) as Hall.
  { constructor; [done|]. revert w Hok.
    induction calls as [|[env0 op] calls IH]; intros w Hok; [constructor|].
    cbn. constructor; [by apply step_keeps_store_ok|].
    by apply IH, step_keeps_store_ok. }
  eapply Forall_impl; [exact Hall|]. intros w' [Hunique _] l.
  unfold JobsService.findByTaskId, JobsRepository.findByTaskId, bind, guard, get, ret, throw.
  destruct (fails env JobsFindByTaskId); cbn; [done|]. intros [= <-].
  pose proof (Hunique SINGLE taskId) as H1. pose proof (Hunique CRON taskId) as H2.
  unfold bindings, task_jobs in H1, H2.
  rewrite (length_filter_by_type (filter _ (jobs w'))). lia.
Qed.

Lemma findByTaskId_returns_at_most_two_witness :
  Forall (fun w' =>
            forall l, (JobsService.findByTaskId Sample.env' "t1" w').1 = Ok l ->
                      (length l <= 2)%nat /\
                      (length (filter (fun j => job_type j = SINGLE) l) <= 1)%nat /\
                      (length (filter (fun j => job_type j = CRON) l) <= 1)%nat)
    (Sample.empty :: history [(Sample.env, Create Sample.dto)] Sample.empty).
Proof.
  exact (findByTaskId_returns_at_most_two Sample.env' "t1"
           [(Sample.env, Create Sample.dto)] Sample.empty store_ok_empty).
Defined.

(** * The facade *)

(** The facade after the engine has taken the job: the binding is saved. *)
Lemma JobsService_scheduleSingle_eq env payload taskId w :
  fails env QueueAdd = false ->
  q_jobs (queue w) !! singleUuid env = None ->
  JobsService.scheduleSingle env payload taskId w =
    let scheduled := Engine.scheduleSingle env payload w in
    let saved := JobsRepository.save env (or_else (singleUuid env) "no-id") SINGLE taskId
                   scheduled.2 in
    (match saved.1 with
     | Ok _ => scheduled.1
     | Throw e => Throw e
     end, saved.2).
Proof.
  intros Hadd Hfresh. cbn zeta.
  unfold JobsService.scheduleSingle, JobsController.scheduleSingle, JobsController.rpc,
    bind, try_catch.
  rewrite (scheduleSingle_any_date env payload w Hadd Hfresh). cbn [fst snd sj_id].
  by destruct (JobsRepository.save _ _ _ _ _) as [[row|e] w1].
Qed.

Lemma JobsService_scheduleCron_eq env payload taskId w :
  fails env QueueUpsertJobScheduler = false ->
  JobsService.scheduleCron env payload taskId w =
    let scheduled := Engine.scheduleCron env payload w in
    let saved := JobsRepository.save env (cronUuid env) CRON taskId scheduled.2 in
    (match saved.1 with
     | Ok _ => scheduled.1
     | Throw e => Throw e
     end, saved.2).
Proof.
  intros Hup. cbn zeta.
  unfold JobsService.scheduleCron, JobsController.scheduleCron, JobsController.rpc,
    bind, try_catch.
  rewrite (scheduleCron_eq env payload w Hup). cbn [fst snd cj_id].
  by destruct (JobsRepository.save _ _ _ _ _) as [[row|e] w1].
Qed.

(** A binding that the job store refuses. *)
Lemma save_refused env jid type taskId w :
  fails env JobsSave = true \/ taskId ∉ id <$> tasks w ->
  (exists cause, (JobsRepository.save env jid type taskId w).1
                 = Throw (DatabaseException "Failed to save job" cause)) /\
  (JobsRepository.save env jid type taskId w).2 = w.
Proof.
  intros Hsave. unfold JobsRepository.save, bind, guard, get, put, ret, throw.
  destruct (fails env JobsSave) eqn:Hf; cbn; [by eauto|].
  case_bool_decide; cbn; [by eauto|].
  case_bool_decide; cbn; [|by eauto].
  destruct Hsave as [?|Hno]; [done|by destruct Hno].
Qed.

(** X9. Scheduling through the facade is two writes, to the queue of the
    engine and to the job store, and the second can fail alone: when the job
    store refuses the binding (the database is out of reach, or the task does
    not exist), [scheduleSingle] and [scheduleCron] throw a
    [DatabaseException], the job store is as before, and the job, or the
    scheduler, stays in the queue of the engine. *)
Theorem scheduling_leaves_the_job_when_save_fails env taskId w :
  fails env JobsSave = true \/ taskId ∉ id <$> tasks w ->
  (forall payload,
     fails env QueueAdd = false ->
     q_jobs (queue w) !! singleUuid env = None ->
     let r := JobsService.scheduleSingle env payload taskId w in
     (exists cause, r.1 = Throw (DatabaseException "Failed to save job" cause)) /\
     jobs r.2 = jobs w /\
     is_Some (q_jobs (queue r.2) !! singleUuid env)) /\
  (forall payload,
     fails env QueueUpsertJobScheduler = false ->
     let r := JobsService.scheduleCron env payload taskId w in
     (exists cause, r.1 = Throw (DatabaseException "Failed to save job" cause)) /\
     jobs r.2 = jobs w /\
     is_Some (q_schedulers (queue r.2) !! cronUuid env)).
Proof.
  intros Hsave. split.
  - intros payload Hadd Hfresh. cbn zeta.
    rewrite (JobsService_scheduleSingle_eq env payload taskId w Hadd Hfresh). cbn zeta.
    rewrite (scheduleSingle_any_date env payload w Hadd Hfresh). cbn [fst snd].
    match goal with |- context [JobsRepository.save env ?j ?t taskId ?w0] =>
      destruct (save_refused env j t taskId w0) as [[cause Hthrow] Hworld]; [done|]
    end.
    rewrite Hthrow, Hworld. cbn. split; [by eauto|]. split; [done|].
    rewrite lookup_insert_eq. by eexists.
  - intros payload Hup. cbn zeta.
    rewrite (JobsService_scheduleCron_eq env payload taskId w Hup). cbn zeta.
    rewrite (scheduleCron_eq env payload w Hup). cbn [fst snd].
    match goal with |- context [JobsRepository.save env ?j ?t taskId ?w0] =>
      destruct (save_refused env j t taskId w0) as [[cause Hthrow] Hworld]; [done|]
    end.
    rewrite Hthrow, Hworld. cbn. split; [by eauto|]. split; [done|].
    rewrite lookup_insert_eq. by eexists.
Qed.

Lemma scheduling_leaves_the_job_when_save_fails_witness :
  let payload := {| ss_name := "jobs.schedule.single"; ss_executionDate := 5000;
                    ss_ackEventName := "TASK_DUE"; ss_payload := ∅ |} in
  let r := JobsService.scheduleSingle Sample.env payload "no such task" Sample.empty in
  jobs r.2 = [] /\ is_Some (q_jobs (queue r.2) !! "j1").
Proof.
  intros payload r.
  refine (proj2 (proj1 (scheduling_leaves_the_job_when_save_fails Sample.env
            "no such task" Sample.empty _) payload eq_refl eq_refl)).
  right. cbn. apply not_elem_of_nil.
Defined.

(** * Calls that fail half way *)

(** X10. A task whose job the engine no longer has cannot be removed: when
    the task has a due date and a SINGLE binding, and the queue holds no job
    under the id of the binding, [remove] throws the [RpcException] of the
    engine (job does not exist) and changes nothing: the row of the task and
    the binding stay.  The same holds for a repeating task without a due date
    whose scheduler the queue no longer holds. *)
Theorem remove_fails_when_the_engine_lost_the_job env wh w task b :
  fails env TasksFindOne = false ->
  fails env JobsFindByTaskId = false ->
  fails env QueueGetJob = false ->
  fails env QueueGetJobScheduler = false ->
  head (filter (fun t => TasksRepository.matches wh t = true) (tasks w)) = Some task ->
  (is_Some (dueTo task) ->
   TasksService.find_type SINGLE (task_jobs (w_id wh) w) = Some b ->
   q_jobs (queue w) !! job_id b = None ->
   TasksService.remove env wh w =
     (Throw (RpcException "error while unscheduling single job" INTERNAL
               (JobException "error while unscheduling single job"
                  (Error "Cannot reschedule single job, because it does not exist")
                  (job_id b))), w)) /\
  (dueTo task = None ->
   is_Some (TasksService.truthy_opt (repeat task)) ->
   TasksService.find_type CRON (task_jobs (w_id wh) w) = Some b ->
   q_schedulers (queue w) !! job_id b = None ->
   TasksService.remove env wh w =
     (Throw (RpcException "error while unscheduling cron job" INTERNAL
               (JobException "error while unscheduling cron job"
                  (Error "Cannot unschedule cron job, because it does not exist")
                  (job_id b))), w)).
Proof.
  intros Hf Hj Hg Hgs Hfound. split.
  - intros [due Hdue] Hb Hlost.
    unfold TasksService.remove, TasksRepository.findOne, JobsService.findByTaskId,
      JobsRepository.findByTaskId, TasksService.unschedule_dueTo,
      JobsService.unscheduleSingle, JobsController.unscheduleSingle, JobsController.rpc,
      Engine.unscheduleSingle, Bull.getJob, bind, try_catch, guard, get, ret, throw.
    rewrite Hf. cbn. rewrite Hfound. cbn. rewrite Hj. cbn.
    unfold task_jobs in Hb. rewrite Hdue, Hb. cbn.
    rewrite Hg. cbn. by rewrite Hlost.
  - intros Hdue [cron Hcron] Hb Hlost.
    unfold TasksService.remove, TasksRepository.findOne, JobsService.findByTaskId,
      JobsRepository.findByTaskId, TasksService.unschedule_dueTo,
      TasksService.unschedule_repeat,
      JobsService.unscheduleCron, JobsController.unscheduleCron, JobsController.rpc,
      Engine.unscheduleCron, Bull.getJobScheduler, bind, try_catch, guard, get, ret, throw.
    rewrite Hf. cbn. rewrite Hfound. cbn. rewrite Hj. cbn.
    unfold task_jobs in Hb. rewrite Hdue, Hcron, Hb. cbn.
    rewrite Hgs. cbn. by rewrite Hlost.
Qed.

Lemma remove_fails_when_the_engine_lost_the_job_witness :
  TasksService.remove Sample.env' (mkWhere "t1" None) queue_lost =
    (Throw (RpcException "error while unscheduling single job" INTERNAL
              (JobException "error while unscheduling single job"
                 (Error "Cannot reschedule single job, because it does not exist") "j1")),
     queue_lost).
Proof.
  unshelve refine (proj1 (remove_fails_when_the_engine_lost_the_job Sample.env'
            (mkWhere "t1" None) queue_lost _ (mkDbJob "j1" SINGLE "t1")
            eq_refl eq_refl eq_refl eq_refl _) _ _ _).
  - exact (TasksRepository.new_row Sample.env Sample.dto (Some 5000)).
  - vm_compute. reflexivity.
  - by eexists.
  - vm_compute. reflexivity.
  - vm_compute. reflexivity.
Defined.

(** X11. [update] writes the row before it reconciles the jobs, and does
    not take the write back: when a task that has a SINGLE binding is given a
    due date that is not in the future, the engine refuses to reschedule the
    job and [update] throws, but the row of the task has the new due date
    already, while the job in the queue still has its old delay. *)
Theorem update_to_a_past_date_writes_the_row_and_throws env dto w f ms b job t0 :
  healthy env ->
  u_fields dto = Some f ->
  f_dueTo f = Val (Iso ms) ->
  f_scheduleId f = None ->
  ms <= now env ->
  head (filter (fun t => TasksRepository.matches (u_where dto) t = true) (tasks w))
    = Some t0 ->
  TasksService.find_type SINGLE (task_jobs (w_id (u_where dto)) w) = Some b ->
  q_jobs (queue w) !! job_id b = Some job ->
  let r := TasksService.update env dto w in
  r.1 = Throw (RpcException "error while rescheduling single job" INTERNAL
                 (JobException "error while rescheduling single job"
                    (Error "Cannot reschedule single job with date in the past")
                    (job_id b))) /\
  tasks r.2 =
    (fun t => if TasksRepository.matches (u_where dto) t
              then TasksRepository.set_fields env (TasksService.db_fields (Some f)) t
              else t) <$> tasks w /\
  rows_satisfy (fun t => TasksRepository.matches (u_where dto) t = true ->
                         dueTo t = Some ms) r.2 /\
  jobs r.2 = jobs w /\ queue r.2 = queue w.
Proof.
  intros Henv Hf Hdue Hsid Hpast Hhit Hb Hjob. cbn zeta.
  assert (TasksRepository.no_values (TasksService.db_fields (Some f)) = false) as Hvalues.
  { unfold TasksRepository.no_values, TasksService.db_fields. cbn. rewrite Hdue. cbn.
    by destruct (f_description f). }
  unfold TasksService.update, TasksRepository.update, JobsService.findByTaskId,
    JobsRepository.findByTaskId, TasksService.reconcile_dueTo_set,
    JobsService.rescheduleSingle, JobsController.rescheduleSingle, JobsController.rpc,
    Engine.rescheduleSingle, Bull.getJob, TasksService.fields_scheduleId,
    TasksService.fields_dueTo, bind, try_catch, guard, get, put, ret, throw.
  rewrite Hf, Hsid, !Henv, Hvalues. cbn.
  destruct (filter _ (tasks w)) as [|t ts] eqn:Hfilter; [done|]. cbn.
  rewrite ?Hdue, ?Hsid. cbn. rewrite ?Hdue, ?Hsid. cbn.
  unfold task_jobs in Hb. rewrite Hb. cbn.
  rewrite Hjob. cbn. rewrite bool_decide_eq_true_2 by lia. cbn.
  split; [done|]. split; [done|]. split; [|done].
  unfold rows_satisfy. cbn. apply Forall_fmap, Forall_forall. intros t' _. cbn.
  destruct (TasksRepository.matches (u_where dto) t') eqn:Hm.
  - by intros _.
  - cbn. intros Hm'. by rewrite Hm in Hm'.
Qed.

Lemma update_to_a_past_date_writes_the_row_and_throws_witness :
  let dto := mkUpdateDto (mkWhere "t1" (Some "u1"))
               (Some (Sample.with_dueTo (Val (Iso 1500)))) in
  let r := TasksService.update Sample.env' dto Sample.created in
  dueTo <$> tasks r.2 = [Some 1500] /\
  delay <$> (j_opts <$> q_jobs (queue r.2) !! "j1") = Some 4000.
Proof.
  intros dto r.
  unshelve epose proof (update_to_a_past_date_writes_the_row_and_throws Sample.env' dto
            Sample.created (Sample.with_dueTo (Val (Iso 1500))) 1500
            (mkDbJob "j1" SINGLE "t1") _ _
            healthy_sample' eq_refl eq_refl eq_refl _ _ _ _) as (_ & Hrows & _ & _ & Hq).
  - exact {| j_id := "j1"; j_name := "jobs.schedule.single";
             j_data := <["ackEventName" := "TASK_DUE"]>
                         (TasksService.job_payload "t1" "water the plants" "u1");
             j_opts := {| delay := 4000; jobId := "j1" |};
             j_timestamp := 1000 |}.
  - exact (TasksRepository.new_row Sample.env Sample.dto (Some 5000)).
  - cbn. lia.
  - vm_compute. reflexivity.
  - vm_compute. reflexivity.
  - vm_compute. reflexivity.
  - fold r in Hrows, Hq. rewrite Hrows, Hq. split; vm_compute; reflexivity.
Defined.

(** * The rows of the table [tasks] *)

(** What [create] does to the table: nothing, or one new row at its end. *)
Lemma create_rows env dto w :
  let r := TasksService.create env dto w in
  let row := TasksRepository.new_row env dto (TasksService.truthy_date (c_dueTo dto)) in
  (tasks r.2 = tasks w /\ (exists e, r.1 = Throw e)) \/
  (tasks r.2 = tasks w ++ [row] /\ (id row ∉ id <$> tasks w) /\
   (r.1 = Ok (TasksMapper.dbToDomain row) \/ exists e, r.1 = Throw e)).
Proof.
  cbn zeta.
  set (row := TasksRepository.new_row env dto (TasksService.truthy_date (c_dueTo dto))).
  set (Q := fun (r : Res Task) w' =>
              (tasks w' = tasks w /\ (exists e, r = Throw e)) \/
              (tasks w' = tasks w ++ [row] /\ (id row ∉ id <$> tasks w) /\
               (r = Ok (TasksMapper.dbToDomain row) \/ exists e, r = Throw e))).
  change (wp (TasksService.create env dto) Q w).
  unfold TasksService.create.
  eapply (wp_bind_preserved (fun w' => w' = w));
    [pres|done|intros [dbSchedule|] w' ->|intros e w' ->; left; eauto];
    [|apply wp_throw; left; eauto].
  apply wp_bind, wp_TasksRepository_create; [intros e; left; eauto|].
  intros row' Hfresh. fold row in row'. subst row'.
  set (w1 := set_tasks (tasks w ++ [row]) w).
  assert (forall e w', tasks_are (tasks w ++ [row]) w' -> Q (Throw e) w') as Hthrow.
  { intros e w' Hw'. right. split; [done|]. split; [done|]. right. eauto. }
  eapply (wp_bind_preserved (tasks_are (tasks w ++ [row]))); [|done| |done].
  { destruct (dueTo row); pres. }
  intros _ w2 Hw2.
  eapply (wp_bind_preserved (tasks_are (tasks w ++ [row]))); [|done| |done].
  { destruct (TasksService.truthy_opt (repeat row)); pres. }
  intros _ w3 Hw3. apply wp_ret. right. split; [done|]. split; [done|]. by left.
Qed.

(** What [update] does to the table: nothing, or the patch of the rows
    selected. *)
Lemma update_rows env dto w :
  tasks (TasksService.update env dto w).2 = tasks w \/
  tasks (TasksService.update env dto w).2 = updated env dto (tasks w).
Proof.
  set (Q := fun (r : Res Task) w' =>
              tasks w' = tasks w \/ tasks w' = updated env dto (tasks w)).
  change (wp (TasksService.update env dto) Q w).
  unfold TasksService.update. cbn zeta.
  eapply (wp_bind_preserved (fun w' => w' = w));
    [pres|done|intros _ w' ->|intros e w' ->; by left].
  assert (forall (r : option DbTask) w1,
            tasks_are (updated env dto (tasks w)) w1 ->
            wp (match r with
                | Some updatedTask =>
                    do jobs <- JobsService.findByTaskId env (w_id (u_where dto));
                    run TasksService.reconcile_dueTo_set env updatedTask
                          (w_id (u_where dto)) (u_fields dto) jobs;
                    run TasksService.reconcile_dueTo_null env (u_fields dto) jobs;
                    run TasksService.reconcile_repeat_set env updatedTask
                          (w_id (u_where dto)) (u_fields dto) jobs;
                    run TasksService.reconcile_repeat_null env (u_fields dto) jobs;
                    ret (TasksMapper.dbToDomain updatedTask)
                | None => throw (TaskNotFoundException (w_id (u_where dto)))
                end) Q w1) as Hrest.
  { intros [updatedTask|] w1 Hw1; [|apply wp_throw; by right].
    eapply wp_mono.
    - apply (preserves_bind (tasks_are (updated env dto (tasks w))));
        [unfold JobsService.findByTaskId; pres| |done].
      intros jobs0.
      destruct (preserves_reconcile (tasks_are (updated env dto (tasks w))) env
                  updatedTask (w_id (u_where dto)) (u_fields dto) jobs0)
        as (H1 & H2 & H3 & H4).
      pres.
    - intros r' w' Hw'. by right. }
  apply wp_bind. unfold TasksRepository.update. wp_steps; [by left|].
  destruct (TasksRepository.no_values _); [wp_steps; by left|]. cbn zeta.
  apply wp_bind.
  destruct (df_scheduleId _) as [s|],
    (filter (fun t => TasksRepository.matches (u_where dto) t = true) (tasks w))
      as [|t ts];
    try case_bool_decide; wp_steps; try (by left); by apply Hrest.
Qed.

(** What [remove] does to the table: nothing, or the rows selected are
    gone. *)
Lemma remove_rows env wh w :
  tasks (TasksService.remove env wh w).2 = tasks w \/
  tasks (TasksService.remove env wh w).2 =
    filter (fun t => TasksRepository.matches wh t = false) (tasks w).
Proof.
  set (Q := fun (r : Res Task) w' =>
              tasks w' = tasks w \/
              tasks w' = filter (fun t => TasksRepository.matches wh t = false) (tasks w)).
  change (wp (TasksService.remove env wh) Q w).
  unfold TasksService.remove.
  eapply (wp_bind_preserved (tasks_are (tasks w))); [pres|done| |by left].
  intros [task|] w1 Hw1; [|apply wp_throw; by left].
  eapply (wp_bind_preserved (tasks_are (tasks w)));
    [unfold JobsService.findByTaskId; pres|done| |by left].
  intros jobs0 w2 Hw2.
  eapply (wp_bind_preserved (tasks_are (tasks w)));
    [unfold TasksService.unschedule_dueTo; pres|done| |by left].
  intros _ w3 Hw3.
  eapply (wp_bind_preserved (tasks_are (tasks w)));
    [unfold TasksService.unschedule_repeat; pres|done| |by left].
  intros _ w4 Hw4.
  apply wp_bind. unfold TasksRepository.remove. wp_steps; [by left|].
  cbn zeta. case_bool_decide; wp_steps; [by left|]. right. cbn. by rewrite Hw4.
Qed.

Lemma filter_matches_fresh wh (ts : list DbTask) :
  w_id wh ∉ id <$> ts ->
  filter (fun t => TasksRepository.matches wh t = true) ts = [].
Proof.
  intros Hfresh. apply filter_none. intros t Hin Hm.
  apply Hfresh. unfold TasksRepository.matches in Hm.
  apply andb_prop in Hm as [Hid _]. apply bool_decide_eq_true_1 in Hid.
  rewrite <- Hid. by apply list_elem_of_fmap_2.
Qed.

(** The task that [create] returned is the one that [findOne] finds. *)
Lemma created_task_is_found env env' dto w task :
  (TasksService.create env dto w).1 = Ok task ->
  fails env' TasksFindOne = false ->
  let w' := (TasksService.create env dto w).2 in
  t_id task = taskUuid env /\
  t_userId task = c_userId dto /\
  TasksService.findOne env' (mkWhere (t_id task) (Some (t_userId task))) w' = (Ok task, w') /\
  TasksService.findOne env' (mkWhere (t_id task) None) w' = (Ok task, w').
Proof.
  intros Hcreated Hfind. cbn zeta.
  destruct (create_rows env dto w) as [[_ [e He]]|(Hrows & Hfresh & [Hok|[e He]])];
    cbn zeta in *; try congruence.
  rewrite Hcreated in Hok. injection Hok as ->.
  set (row := TasksRepository.new_row env dto (TasksService.truthy_date (c_dueTo dto)))
    in *.
  split; [done|]. split; [done|].
  assert (forall u, (u = None \/ u = Some (userId row)) ->
            head (filter (fun t => TasksRepository.matches (mkWhere (id row) u) t = true)
                    (tasks (TasksService.create env dto w).2)) = Some row) as Hhead.
  { intros u Hu. rewrite Hrows, filter_app, filter_matches_fresh by done.
    rewrite app_nil_l, filter_cons, decide_True; [done|].
    destruct Hu as [->| ->]; [|apply matches_self].
    unfold TasksRepository.matches. cbn. by rewrite bool_decide_eq_true_2. }
  split; rewrite findOne_eq by done; cbn [t_id t_userId TasksMapper.dbToDomain];
    rewrite Hhead; auto.
Qed.

(** X12. A task that [create] has returned can be found: [findOne] with the
    id of the task, with or without the id of its user, returns the very task
    that [create] returned. *)
Theorem create_then_findOne env env' dto w task :
  (TasksService.create env dto w).1 = Ok task ->
  fails env' TasksFindOne = false ->
  let w' := (TasksService.create env dto w).2 in
  t_id task = taskUuid env /\
  t_userId task = c_userId dto /\
  TasksService.findOne env' (mkWhere (t_id task) (Some (t_userId task))) w' = (Ok task, w') /\
  TasksService.findOne env' (mkWhere (t_id task) None) w' = (Ok task, w').
Proof. exact (created_task_is_found env env' dto w task). Qed.

Lemma create_then_findOne_witness :
  TasksService.findOne Sample.env' (mkWhere "t1" (Some "u1")) Sample.created =
    (Ok (TasksMapper.dbToDomain
           (TasksRepository.new_row Sample.env Sample.dto (Some 5000))),
     Sample.created).
Proof.
  refine (proj1 (proj2 (proj2
            (create_then_findOne Sample.env Sample.env' Sample.dto Sample.empty
               (TasksMapper.dbToDomain
                  (TasksRepository.new_row Sample.env Sample.dto (Some 5000)))
               _ eq_refl)))).
  vm_compute. reflexivity.
Defined.

(** X13. [create] writes the row before it schedules the jobs, and does not
    take the row back: when the queue of the engine refuses the job of a task
    with a due date, [create] throws the [RpcException] of the engine, and the
    table has the new row all the same, with its due date, and no binding and
    no job for it. *)
Theorem create_keeps_the_row_when_scheduling_fails env dto w ms :
  fails env SchedulesFindOne = false ->
  fails env TasksCreate = false ->
  fails env QueueAdd = true ->
  c_scheduleId dto ∈ schedules w ->
  taskUuid env ∉ id <$> tasks w ->
  c_dueTo dto = Val (Iso ms) ->
  let r := TasksService.create env dto w in
  r.1 = Throw (RpcException "error while scheduling single job" INTERNAL
                 (JobException "error while scheduling single job"
                    (Infrastructure QueueAdd) (singleUuid env))) /\
  r.2 = set_tasks (tasks w ++ [TasksRepository.new_row env dto (Some ms)]) w.
Proof.
  intros Hs Hc Hadd Hschedule Hfresh Hdue. cbn zeta.
  unfold TasksService.create, SchedulesRepository.findOne, TasksRepository.create,
    JobsService.scheduleSingle, JobsController.scheduleSingle, JobsController.rpc,
    Engine.scheduleSingle, Bull.add, bind, try_catch, guard, get, put, ret, throw.
  rewrite Hs, Hc, Hdue. cbn.
  rewrite (bool_decide_eq_true_2 _ Hschedule).
  rewrite (bool_decide_eq_false_2 _ Hfresh).
  rewrite (bool_decide_eq_true_2 _ Hschedule). cbn.
  by rewrite Hadd.
Qed.

Lemma create_keeps_the_row_when_scheduling_fails_witness :
  let env := {| now := 1000; taskUuid := "t1"; singleUuid := "j1"; cronUuid := "c1";
                fails := fun site => bool_decide (site = QueueAdd) |} in
  let r := TasksService.create env Sample.dto Sample.empty in
  dueTo <$> tasks r.2 = [Some 5000] /\ jobs r.2 = [] /\ q_jobs (queue r.2) = ∅.
Proof.
  intros env r.
  unshelve epose proof (create_keeps_the_row_when_scheduling_fails env Sample.dto
                          Sample.empty 5000 eq_refl eq_refl eq_refl _ _ eq_refl)
    as [_ Hworld].
  - cbn. apply list_elem_of_here.
  - cbn. apply not_elem_of_nil.
  - fold r in Hworld. rewrite Hworld. done.
Defined.

(** X14. What [update] never writes.  Whatever the dto and whatever fails,
    after [update] the table has the same rows in the same order; a row that
    the [where] of the dto does not select is unchanged, and a row that it
    selects has kept its id, its user, its time of creation, and also its
    priority, its flag [fixed], its start time and its end time, which the
    dto can carry but [update] does not hand to the repository. *)
Theorem update_never_writes_these_columns env dto w :
  Forall2 (fun t t' =>
             same_fixed_columns t t' /\
             (TasksRepository.matches (u_where dto) t = false -> t' = t))
    (tasks w) (tasks (TasksService.update env dto w).2).
Proof.
  destruct (update_rows env dto w) as [-> | ->].
  - apply Forall2_same_length_lookup_2; [done|].
    intros i t t' Ht Ht'. rewrite Ht in Ht'. injection Ht' as <-.
    by repeat split.
  - unfold updated. apply Forall2_fmap_r, Forall_Forall2_diag, Forall_forall.
    intros t _. unfold same_fixed_columns. cbn.
    destruct (TasksRepository.matches (u_where dto) t) eqn:Hm; cbn; [|done].
    by repeat split.
Qed.

Lemma filter_others_updated env dto u (ts : list DbTask) :
  truthy u = true ->
  w_userId (u_where dto) = Some u ->
  filter (fun t => userId t <> u) (updated env dto ts) = filter (fun t => userId t <> u) ts.
Proof.
  intros Hu Hwhere. unfold updated.
  induction ts as [|t ts IH]; [done|].
  rewrite fmap_cons, !filter_cons, IH.
  destruct (TasksRepository.matches (u_where dto) t) eqn:Hm; [|done].
  unfold TasksRepository.matches in Hm. rewrite Hwhere, Hu in Hm.
  apply andb_prop in Hm as [_ Hm]. apply bool_decide_eq_true_1 in Hm.
  by rewrite !decide_False by (cbn; tauto).
Qed.

Lemma filter_others_removed wh u (ts : list DbTask) :
  truthy u = true ->
  w_userId wh = Some u ->
  filter (fun t => userId t <> u)
    (filter (fun t => TasksRepository.matches wh t = false) ts)
  = filter (fun t => userId t <> u) ts.
Proof.
  intros Hu Hwhere.
  induction ts as [|t ts IH]; [done|].
  rewrite !filter_cons.
  destruct (TasksRepository.matches wh t) eqn:Hm.
  - rewrite decide_False by done.
    unfold TasksRepository.matches in Hm. rewrite Hwhere, Hu in Hm.
    apply andb_prop in Hm as [_ Hm]. apply bool_decide_eq_true_1 in Hm.
    by rewrite decide_False by tauto.
  - rewrite decide_True by done. rewrite filter_cons. by rewrite IH.
Qed.

Lemma step_keeps_rows_of_others u env op w :
  truthy u = true -> acts_for u op ->
  rows_of_others u (step env op w) = rows_of_others u w.
Proof.
  intros Hu Hop. unfold rows_of_others. destruct op as [createDto|updateDto|where_]; cbn.
  - destruct (create_rows env createDto w) as [[-> _]|(-> & _ & _)]; [done|].
    rewrite filter_app, filter_cons, decide_False, app_nil_r; [done|].
    cbn in *. tauto.
  - destruct (update_rows env updateDto w) as [-> | ->]; [done|].
    by apply filter_others_updated.
  - destruct (remove_rows env where_ w) as [-> | ->]; [done|].
    by apply filter_others_removed.
Qed.

(** X15. The tasks of one user are out of reach of the others.  In a
    sequence of calls of [create], [update] and [remove] that all act for the
    user [u] (the task created is theirs; the task to update or to remove is
    selected with their non-empty id), whatever their results, the rows of
    every other user stay in the table as they are, in every world on the
    way. *)
Theorem rows_of_other_users_are_never_touched u calls w :
  truthy u = true ->
  Forall (fun call => acts_for u call.2) calls ->
  Forall (fun w' => rows_of_others u w' = rows_of_others u w) (history calls w).
Proof.
  intros Hu. revert w. induction calls as [|[env op] calls IH]; intros w Hcalls; [constructor|].
  apply Forall_cons in Hcalls as [Hop Hcalls]. cbn in *.
  pose proof (step_keeps_rows_of_others u env op w Hu Hop) as Hstep.
  constructor; [done|].
  rewrite <- Hstep. by apply IH.
Qed.

Lemma rows_of_other_users_are_never_touched_witness :
  Forall (fun w' => rows_of_others "u2" w' = rows_of_others "u2" Sample.created)
    (history [(Sample.env', Update (mkUpdateDto (mkWhere "t1" (Some "u2"))
                                      (Some (Sample.with_dueTo (Val (Iso 7000))))));
              (Sample.env', Remove (mkWhere "t1" (Some "u2")))]
       Sample.created).
Proof.
  apply (rows_of_other_users_are_never_touched "u2"); [reflexivity|].
  repeat constructor.
Defined.

Lemma updated_none env dto (ts : list DbTask) :
  filter (fun t => TasksRepository.matches (u_where dto) t = true) ts = [] ->
  updated env dto ts = ts.
Proof.
  intros Hnone. unfold updated.
  induction ts as [|t ts IH]; [done|].
  rewrite filter_cons in Hnone. cbn.
  destruct (TasksRepository.matches (u_where dto) t) eqn:Hm.
  - by rewrite decide_True in Hnone.
  - rewrite decide_False in Hnone by done. by rewrite IH.
Qed.

(** [update] for a schedule, or a task, that does not exist. *)
Lemma update_unknown env dto w :
  (forall sid,
     TasksService.fields_scheduleId (u_fields dto) = Some sid ->
     truthy sid = true ->
     sid ∉ schedules w ->
     fails env SchedulesFindOne = false ->
     TasksService.update env dto w = (Throw (ScheduleNotFoundException sid), w)) /\
  (filter (fun t => TasksRepository.matches (u_where dto) t = true) (tasks w) = [] ->
   fails env SchedulesFindOne = false ->
   fails env TasksUpdate = false ->
   (forall sid, TasksService.fields_scheduleId (u_fields dto) = Some sid ->
                truthy sid = true -> sid ∈ schedules w) ->
   TasksRepository.no_values (TasksService.db_fields (u_fields dto)) = false ->
   TasksService.update env dto w =
     (Throw (TaskNotFoundException (w_id (u_where dto))), w)).
Proof.
  split.
  - intros sid Hsid Htruthy Hno Hf.
    unfold TasksService.update, SchedulesRepository.findOne, bind, guard, get, ret, throw.
    rewrite Hsid, Htruthy, Hf. cbn. by rewrite bool_decide_eq_false_2.
  - intros Hnone Hf Hu Hschedule Hvalues.
    pose proof (updated_none env dto (tasks w) Hnone) as Hsame. unfold updated in Hsame.
    assert (set_tasks (tasks w) w = w) as Hw by (by destruct w).
    assert (TasksRepository.update env (u_where dto)
              (TasksService.db_fields (u_fields dto)) w = (Ok None, w)) as Hrow.
    { unfold TasksRepository.update, bind, guard, get, put, ret, throw.
      rewrite Hu, Hvalues, Hnone. cbn. rewrite Hsame, Hw.
      by destruct (df_scheduleId _). }
    unfold TasksService.update, SchedulesRepository.findOne, bind, guard, get, ret, throw.
    rewrite Hf.
    destruct (TasksService.fields_scheduleId (u_fields dto)) as [sid|] eqn:Hsid; cbn;
      [|by rewrite Hrow].
    destruct (truthy sid) eqn:Htruthy; cbn; [|by rewrite Hrow].
    rewrite bool_decide_eq_true_2 by auto. cbn. by rewrite Hrow.
Qed.

(** X16. What [update] answers for a key that does not exist, and in which
    order it looks.  A schedule id that is given, not empty and not the id of
    a schedule gives [ScheduleNotFoundException], whether the task exists or
    not; otherwise, when the dto sets at least one column and no row matches,
    [update] gives [TaskNotFoundException] with the id asked for.  In both
    cases nothing has changed. *)
Theorem update_of_an_unknown_key env dto w :
  (forall sid,
     TasksService.fields_scheduleId (u_fields dto) = Some sid ->
     truthy sid = true ->
     sid ∉ schedules w ->
     fails env SchedulesFindOne = false ->
     TasksService.update env dto w = (Throw (ScheduleNotFoundException sid), w)) /\
  (filter (fun t => TasksRepository.matches (u_where dto) t = true) (tasks w) = [] ->
   fails env SchedulesFindOne = false ->
   fails env TasksUpdate = false ->
   (forall sid, TasksService.fields_scheduleId (u_fields dto) = Some sid ->
                truthy sid = true -> sid ∈ schedules w) ->
   TasksRepository.no_values (TasksService.db_fields (u_fields dto)) = false ->
   TasksService.update env dto w =
     (Throw (TaskNotFoundException (w_id (u_where dto))), w)).
Proof. exact (update_unknown env dto w). Qed.

Lemma update_of_an_unknown_key_witness :
  TasksService.update Sample.env'
    (mkUpdateDto (mkWhere "t9" None) (Some (Sample.with_dueTo (Val (Iso 7000)))))
    Sample.created
  = (Throw (TaskNotFoundException "t9"), Sample.created).
Proof.
  refine (proj2 (update_of_an_unknown_key Sample.env'
            (mkUpdateDto (mkWhere "t9" None) (Some (Sample.with_dueTo (Val (Iso 7000)))))
            Sample.created) _ eq_refl eq_refl _ eq_refl).
  - vm_compute. reflexivity.
  - intros sid [=].
Defined.

(** * The reach of the event handlers *)

Global Instance schedules_are_job_queue_blind ss : JobQueueBlind (schedules_are ss).
Proof. by intros q w ?. Qed.
Global Instance schedules_are_schedulers_blind ss : SchedulersBlind (schedules_are ss).
Proof. by intros q w ?. Qed.
Global Instance schedules_are_jobs_blind ss : JobsBlind (schedules_are ss).
Proof. by intros js w ?. Qed.
Global Instance schedules_are_tasks_blind ss : TasksBlind (schedules_are ss).
Proof. by intros ts w ?. Qed.

Lemma only_status_written_refl w : only_status_written w w.
Proof.
  repeat split. apply Forall_Forall2_diag, Forall_forall. intros t _.
  by destruct t.
Qed.

Lemma only_status_written_errors w w' l :
  only_status_written w w' -> only_status_written w (set_errors l w').
Proof. by intros (? & ? & ? & ?). Qed.

Lemma only_status_written_bus w w' b :
  only_status_written w w' -> only_status_written w (set_bus b w').
Proof. by intros (? & ? & ? & ?). Qed.

Lemma only_status_written_publish env name p w w' :
  only_status_written w w' ->
  only_status_written w (EventsService.publish env name p w').2.
Proof.
  intros Hw'. unfold EventsService.publish, logger_error, modify.
  destruct (fails env BrokerPublish); cbn [snd].
  - by apply only_status_written_errors.
  - by apply only_status_written_bus.
Qed.

Lemma only_status_written_logger_error message w w' :
  only_status_written w w' ->
  only_status_written w (logger_error message w').2.
Proof. intros Hw'. by apply only_status_written_errors. Qed.

(** [update] with nothing but a status. *)
Lemma update_status_only_status_written env wh s w :
  only_status_written w
    (TasksService.update env
       {| u_where := wh; u_fields := Some (TaskEventsController.status_fields s) |} w).2.
Proof.
  set (dto := {| u_where := wh; u_fields := Some (TaskEventsController.status_fields s) |}).
  destruct (update_undefined_touches_no_job env dto w) as [Hjobs Hqueue]; [done|done|].
  split; [done|]. split; [done|]. split.
  - apply (preserves_TasksService_update (schedules_are (schedules w))); [|done].
    by apply preserves_TasksRepository_update, _.
  - destruct (update_rows env dto w) as [-> | ->].
    + apply Forall_Forall2_diag, Forall_forall. intros t _. by destruct t.
    + unfold updated. apply Forall2_fmap_r, Forall_Forall2_diag, Forall_forall.
      intros t _. cbn. destruct (TasksRepository.matches wh t); by destruct t.
Qed.

(** X17. The reach of the two event handlers.  Whatever the payload and
    whatever fails, [handleDue] and [handleRepetition] leave the job store, the
    queue of the engine and the schedules as they are, and change nothing in
    the table [tasks] but the status and the time of update of rows: no
    acknowledgement of a job schedules, reschedules or unschedules a job, or
    removes a task. *)
Theorem handlers_write_nothing_but_the_status env payload w :
  only_status_written w (TaskEventsController.handleDue env payload w).2 /\
  only_status_written w (TaskEventsController.handleRepetition env payload w).2.
Proof.
  pose proof (findOne_world env (mkWhere (p_taskId payload) None) w) as Hw.
  split.
  - unfold TaskEventsController.handleDue, try_catch, bind.
    destruct (TasksService.findOne env _ w) as [[task|e] w1]; cbn in Hw; subst w1;
      [|apply only_status_written_logger_error, only_status_written_refl].
    destruct (bool_decide (t_status task = NOT_STARTED) ||
              bool_decide (t_status task = IN_PROGRESS)).
    + pose proof (update_status_only_status_written env
                    (mkWhere (t_id task) (Some (t_userId task))) FAILED w) as Hupdate.
      destruct (TasksService.update env _ w) as [[t|e] w2]; cbn [fst snd ret] in *.
      * pose proof (only_status_written_publish env TaskEvent.DUE
                      {| ev_task_id := t_id task; ev_task_userId := t_userId task |}
                      w w2 Hupdate) as Hpublish.
        destruct (EventsService.publish env _ _ w2) as [[[]|e] w3]; [done|].
        by apply only_status_written_logger_error.
      * by apply only_status_written_logger_error.
    + cbn [fst snd ret].
      pose proof (only_status_written_publish env TaskEvent.DUE
                    {| ev_task_id := t_id task; ev_task_userId := t_userId task |}
                    w w (only_status_written_refl w)) as Hpublish.
      destruct (EventsService.publish env _ _ w) as [[[]|e] w3]; [done|].
      by apply only_status_written_logger_error.
  - unfold TaskEventsController.handleRepetition, try_catch, bind.
    destruct (TasksService.findOne env _ w) as [[task|e] w1]; cbn in Hw; subst w1;
      [|apply only_status_written_logger_error, only_status_written_refl].
    pose proof (update_status_only_status_written env
                  (mkWhere (t_id task) (Some (t_userId task))) NOT_STARTED w) as Hupdate.
    destruct (TasksService.update env _ w) as [[t|e] w2]; cbn [fst snd ret] in *.
    + pose proof (only_status_written_publish env TaskEvent.REPEATED
                    {| ev_task_id := t_id task; ev_task_userId := t_userId task |}
                    w w2 Hupdate) as Hpublish.
      destruct (EventsService.publish env _ _ w2) as [[[]|e] w3]; [done|].
      by apply only_status_written_logger_error.
    + by apply only_status_written_logger_error.
Qed.

(** * Queries *)

(** The query as [TasksService.find] can run it. *)
Lemma TasksService_find_eq q dto w :
  select_error q = None ->
  TasksService'.find q dto w =
    (Ok (TasksMapper.dbToDomain <$>
           take 100 (ordered q by_createdAt desc
                       (filter (fun t => TasksRepository'.condition q (fd_where dto) t = true)
                          (tasks w)))), w).
Proof.
  intros Hq.
  unfold TasksService'.find, TasksRepository'.find, TasksService'.as_options,
    bind, try_catch, get, ret.
  cbn. rewrite Hq. cbn. done.
Qed.

(** X18. The paging and the order that a caller of [find] asks for are
    ignored.  [TasksService.find] hands its dto to the repository as it is,
    and the repository looks for [limit], [page], [orderBy] and [sortBy] beside
    [where], where a dto does not have them: the answer of the service, and of
    the controller above it, is the same for every choice of these options; it
    is the first hundred of the tasks selected, in descending order of their
    time of creation. *)
Theorem find_ignores_paging_and_order q w :
  (forall dto options,
     TasksService'.find q dto w =
     TasksService'.find q {| fd_options := options; fd_where := fd_where dto |} w) /\
  (forall request options,
     TasksController.find q request w =
     TasksController.find q
       (Some {| fr_options := options; fr_where := request ≫= fr_where |}) w) /\
  (forall dto,
     select_error q = None ->
     TasksService'.find q dto w =
       (Ok (TasksMapper.dbToDomain <$>
              take 100 (ordered q by_createdAt desc
                          (filter (fun t => TasksRepository'.condition q (fd_where dto) t
                                            = true) (tasks w)))), w)).
Proof.
  split; [done|]. split; [|intros dto Hq; by apply TasksService_find_eq].
  intros request options. unfold TasksController.find. f_equal.
Qed.

Lemma find_ignores_paging_and_order_witness :
  TasksService'.find table_order
    {| fd_options := Some (mkFindDtoOptions (Some 1) (Some 3) (Some by_name) (Some asc));
       fd_where := Some (where_userId (Some "u1")) |} Sample.created
  = (Ok [TasksMapper.dbToDomain
           (TasksRepository.new_row Sample.env Sample.dto (Some 5000))],
     Sample.created).
Proof.
  rewrite (proj2 (proj2 (find_ignores_paging_and_order table_order Sample.created))
             _ eq_refl).
  vm_compute. reflexivity.
Defined.

Lemma condition_userId q u t :
  truthy u = true ->
  TasksRepository'.condition q (Some (where_userId (Some u))) t = true <-> userId t = u.
Proof.
  intros Hu. unfold TasksRepository'.condition, TasksRepository'.and_,
    TasksRepository'.eq_if_truthy. cbn. rewrite Hu. cbn.
  rewrite andb_true_r. apply bool_decide_eq_true.
Qed.

(** X19. What [find] returns, when the database answers and returns the rows
    it has selected in some order: at most a hundred tasks, each of them a row
    of the table that satisfies every condition of [where]; all of them, when
    no more than a hundred rows satisfy the conditions; the table is not
    changed.  With the [where] that the controller builds, the id of a user,
    these are tasks of that user only. *)
Theorem find_returns_rows_that_match q dto w :
  select_error q = None ->
  (forall o s rows, ordered q o s rows ≡ₚ rows) ->
  exists rows,
    TasksService'.find q dto w = (Ok (TasksMapper.dbToDomain <$> rows), w) /\
    (length rows <= 100)%nat /\
    (forall t, t ∈ rows ->
               t ∈ tasks w /\ TasksRepository'.condition q (fd_where dto) t = true) /\
    ((length (filter (fun t => TasksRepository'.condition q (fd_where dto) t = true)
                (tasks w)) <= 100)%nat ->
     rows ≡ₚ filter (fun t => TasksRepository'.condition q (fd_where dto) t = true)
               (tasks w)) /\
    (forall u, truthy u = true -> fd_where dto = Some (where_userId (Some u)) ->
               forall t, t ∈ rows -> userId t = u).
Proof.
  intros Hq Hperm. eexists. split; [by apply TasksService_find_eq|].
  set (selected := filter _ (tasks w)).
  assert (forall t, t ∈ take 100 (ordered q by_createdAt desc selected) ->
            t ∈ tasks w /\ TasksRepository'.condition q (fd_where dto) t = true) as Hin.
  { intros t Ht. apply subseteq_take in Ht. rewrite Hperm in Ht.
    apply list_elem_of_filter in Ht. tauto. }
  split; [|split; [done|split]].
  - rewrite length_take. lia.
  - intros Hfew. rewrite take_ge; [done|]. by rewrite Hperm.
  - intros u Hu Hwhere t Ht. apply Hin in Ht as [_ Ht].
    rewrite Hwhere in Ht. by apply condition_userId in Ht.
Qed.

Lemma find_returns_rows_that_match_witness :
  exists rows,
    TasksService'.find table_order (mkFindDto None (Some (where_userId (Some "u1"))))
      Sample.created = (Ok (TasksMapper.dbToDomain <$> rows), Sample.created) /\
    forall t, t ∈ rows -> userId t = "u1".
Proof.
  destruct (find_returns_rows_that_match table_order
              (mkFindDto None (Some (where_userId (Some "u1")))) Sample.created
              eq_refl (fun _ _ rows => reflexivity rows))
    as (rows & Hfind & _ & _ & _ & Huser).
  exists rows. split; [exact Hfind|]. exact (Huser "u1" eq_refl eq_refl).
Defined.

(** * The mapper between the domain and the contract *)

Lemma null_if_empty_default (o : option string) :
  TasksMapper'.null_if_empty (default "" o) = o <-> o <> Some "".
Proof.
  unfold TasksMapper'.null_if_empty. destruct o as [s|]; cbn; [|done].
  case_bool_decide as Hlen.
  - destruct s; [|done]. split; [done|]. by intros [].
  - split; [|done]. intros _ [= ->]. by apply Hlen.
Qed.

Lemma null_if_empty_date_default (o : option IsoString) :
  TasksMapper'.null_if_empty_date (default IsoEmpty o) = o <-> o <> Some IsoEmpty.
Proof.
  destruct o as [[|ms]|]; cbn; [|done|done]. split; [done|]. by intros [].
Qed.

Lemma default_null_if_empty s : default "" (TasksMapper'.null_if_empty s) = s.
Proof.
  unfold TasksMapper'.null_if_empty. case_bool_decide as Hlen; [|done].
  by destruct s.
Qed.

Lemma default_null_if_empty_date s :
  default IsoEmpty (TasksMapper'.null_if_empty_date s) = s.
Proof. by destruct s. Qed.

Lemma status_round_trip :
  (forall s, TasksMapper'.clientToDomainStatus (TasksMapper'.domainToClientStatus s) = s) /\
  (forall c, TasksMapper'.domainToClientStatus (TasksMapper'.clientToDomainStatus c) = c).
Proof. split; by intros []. Qed.

Lemma Some_default_is_Some (o : option string) : Some (default "" o) = o <-> is_Some o.
Proof.
  destruct o as [s|]; cbn; [by split; eauto|].
  split; [done|]. by intros [? ?].
Qed.

(** X20. The mapper between a task of the domain and a task of the contract
    is not a bijection, and this says where.  From the domain to the contract
    and back, a task comes back as it was exactly when none of its
    description, due date and repetition is the empty string, and both its
    start time and its end time are set: null becomes the empty string on the
    way out, the empty string becomes null on the way back for the first
    three, and stays the empty string for the two times.  From the contract to
    the domain and back, a task comes back as it was exactly when its start
    time and its end time are not null.  The status always comes back. *)
Theorem domain_and_client_round_trips :
  (forall task,
     TasksMapper'.clientToDomain (TasksMapper'.domainToClient task) = task <->
     t_description task <> Some "" /\ t_dueTo task <> Some IsoEmpty /\
     t_repeat task <> Some "" /\
     is_Some (t_startTime task) /\ is_Some (t_endTime task)) /\
  (forall clientTask,
     TasksMapper'.domainToClient (TasksMapper'.clientToDomain clientTask) = clientTask <->
     is_Some (ct_startTime clientTask) /\ is_Some (ct_endTime clientTask)) /\
  (forall task,
     t_status (TasksMapper'.clientToDomain (TasksMapper'.domainToClient task))
     = t_status task).
Proof.
  destruct status_round_trip as [Hdc Hcd].
  split; [|split].
  - intros task. unfold TasksMapper'.clientToDomain, TasksMapper'.domainToClient. cbn.
    rewrite Hdc.
    rewrite <- (null_if_empty_default (t_description task)).
    rewrite <- (null_if_empty_default (t_repeat task)).
    rewrite <- (null_if_empty_date_default (t_dueTo task)).
    rewrite <- (Some_default_is_Some (t_startTime task)).
    rewrite <- (Some_default_is_Some (t_endTime task)).
    destruct task; cbn. split.
    + intros H. by injection H.
    + intros (-> & -> & -> & -> & ->). done.
  - intros c. unfold TasksMapper'.clientToDomain, TasksMapper'.domainToClient. cbn.
    rewrite Hcd, !default_null_if_empty, default_null_if_empty_date.
    rewrite <- (Some_default_is_Some (ct_startTime c)).
    rewrite <- (Some_default_is_Some (ct_endTime c)).
    destruct c; cbn. split.
    + intros H. by injection H.
    + intros (-> & ->). done.
  - intros task. cbn. apply Hdc.
Qed.

(** X21. Ordering by name cannot be asked for through the contract.  The two
    mappings between the order of the contract and the column of the domain
    are inverse to each other, but [findRequestToFindDto] tests the order of
    the request for truth before it maps it, and [NAME] is the member with the
    number 0: a request to order by NAME becomes a dto with no order at all,
    the same dto as for a request without an order, while every other order
    arrives.  So a dto that orders by name does not survive the way to a
    request and back. *)
Theorem orderBy_NAME_is_lost_in_the_request :
  (forall orderBy,
     TasksMapper'.clientOrderByToDomain (TasksMapper'.domainOrderByToClient orderBy)
     = orderBy) /\
  (forall clientOrderBy,
     TasksMapper'.domainOrderByToClient (TasksMapper'.clientOrderByToDomain clientOrderBy)
     = clientOrderBy) /\
  (forall options where_,
     let request := fun orderBy =>
       Some {| fr_options := Some {| cfo_limit := cfo_limit options;
                                     cfo_page := cfo_page options;
                                     cfo_orderBy := orderBy;
                                     cfo_sortBy := cfo_sortBy options |};
               fr_where := where_ |} in
     TasksMapper'.findRequestToFindDto (request (Some TasksOrderBy.NAME)) =
     TasksMapper'.findRequestToFindDto (request None) /\
     forall clientOrderBy,
       clientOrderBy <> TasksOrderBy.NAME ->
       fd_options (TasksMapper'.findRequestToFindDto (request (Some clientOrderBy)))
         ≫= fdo_orderBy = Some (TasksMapper'.clientOrderByToDomain clientOrderBy)) /\
  (forall dto,
     fd_options (TasksMapper'.findRequestToFindDto
                   (Some (TasksMapper'.findDtoToFindRequest (Some dto)))) ≫= fdo_orderBy
     = match fd_options dto ≫= fdo_orderBy with
       | Some by_name => None
       | o => o
       end).
Proof.
  split; [by intros []|]. split; [by intros []|]. split.
  - intros options where_. cbn zeta. split; [done|]. by intros [].
  - intros [[options|] where_]; cbn; [|done].
    by destruct (fdo_orderBy options) as [[]|].
Qed.

(** * The controller of the tasks *)

(** When [update] returns: the task returned is the first of the rows
    selected, patched, and the table holds the patched rows. *)
Lemma update_result env dto w task :
  (TasksService.update env dto w).1 = Ok task ->
  exists t,
    head (filter (fun t => TasksRepository.matches (u_where dto) t = true) (tasks w))
      = Some t /\
    task = TasksMapper.dbToDomain
             (TasksRepository.set_fields env (TasksService.db_fields (u_fields dto)) t) /\
    tasks (TasksService.update env dto w).2 = updated env dto (tasks w).
Proof.
  set (Q := fun (r : Res Task) w' =>
              match r with
              | Ok task =>
                  exists t,
                    head (filter (fun t => TasksRepository.matches (u_where dto) t = true)
                            (tasks w)) = Some t /\
                    task = TasksMapper.dbToDomain
                             (TasksRepository.set_fields env
                                (TasksService.db_fields (u_fields dto)) t) /\
                    tasks w' = updated env dto (tasks w)
              | Throw _ => True
              end).
  assert (wp (TasksService.update env dto) Q w) as Hwp.
  { unfold TasksService.update. cbn zeta.
    eapply (wp_bind_preserved (fun w' => w' = w));
      [pres|done|intros _ w' ->|by intros e w' ->].
    assert (forall (r : option DbTask) w1,
              tasks_are (updated env dto (tasks w)) w1 ->
              r = head (TasksRepository.set_fields env
                          (TasksService.db_fields (u_fields dto)) <$>
                        filter (fun t => TasksRepository.matches (u_where dto) t = true)
                          (tasks w)) ->
              wp (match r with
                  | Some updatedTask =>
                      do jobs <- JobsService.findByTaskId env (w_id (u_where dto));
                      run TasksService.reconcile_dueTo_set env updatedTask
                            (w_id (u_where dto)) (u_fields dto) jobs;
                      run TasksService.reconcile_dueTo_null env (u_fields dto) jobs;
                      run TasksService.reconcile_repeat_set env updatedTask
                            (w_id (u_where dto)) (u_fields dto) jobs;
                      run TasksService.reconcile_repeat_null env (u_fields dto) jobs;
                      ret (TasksMapper.dbToDomain updatedTask)
                  | None => throw (TaskNotFoundException (w_id (u_where dto)))
                  end) Q w1) as Hrest.
    { intros [updatedTask|] w1 Hw1 Hr; [|by apply wp_throw].
      destruct (filter _ (tasks w)) as [|t ts]; [done|]. cbn in Hr.
      injection Hr as ->.
      eapply (wp_bind_preserved (tasks_are (updated env dto (tasks w))));
        [unfold JobsService.findByTaskId; pres|done| |done].
      intros jobs0 w2 Hw2.
      destruct (preserves_reconcile (tasks_are (updated env dto (tasks w))) env
                  (TasksRepository.set_fields env (TasksService.db_fields (u_fields dto)) t)
                  (w_id (u_where dto)) (u_fields dto) jobs0) as (H1 & H2 & H3 & H4).
      eapply (wp_bind_preserved (tasks_are _)); [done|done| |done]. intros _ w3 Hw3.
      eapply (wp_bind_preserved (tasks_are _)); [done|done| |done]. intros _ w4 Hw4.
      eapply (wp_bind_preserved (tasks_are _)); [done|done| |done]. intros _ w5 Hw5.
      eapply (wp_bind_preserved (tasks_are _)); [done|done| |done]. intros _ w6 Hw6.
      apply wp_ret. exists t. by repeat split. }
    apply wp_bind. unfold TasksRepository.update. wp_steps; [done|].
    destruct (TasksRepository.no_values _); [by wp_steps|]. cbn zeta.
    apply wp_bind.
    destruct (df_scheduleId _) as [s|],
      (filter (fun t => TasksRepository.matches (u_where dto) t = true) (tasks w))
        as [|t ts] eqn:Hhit;
      try case_bool_decide; wp_steps; try done; by apply Hrest. }
  unfold wp, Q in Hwp. intros Htask. by rewrite Htask in Hwp.
Qed.

Lemma respond_Answer {A B} (m : M A) (f : A -> B) h w b w' :
  TasksController.respond m f h w = (Answer b, w') ->
  exists a, m w = (Ok a, w') /\ b = f a.
Proof.
  unfold TasksController.respond. destruct (m w) as [[a|e] w1]; [|done].
  intros [= <- <-]. eauto.
Qed.

(** X22. An update through the controller always writes the status.  The
    mapper puts a status into every dto, NOT_STARTED when the request has none
    (or has NOT_STARTED, the member with the number 0): whenever [update] of
    the controller answers, every row that the request selects has the status
    of the request, or NOT_STARTED if it has none, and so has the task in the
    answer.  A request that only renames a task that is DONE makes it
    NOT_STARTED. *)
Theorem controller_update_always_writes_the_status env request w answer w' :
  TasksController.update env request w = (Answer answer, w') ->
  let s := TasksMapper'.status_or_NOT_STARTED (ur_fields request ≫= cuf_status) in
  ct_status answer = s /\
  rows_satisfy (fun t => TasksRepository.matches (ur_where request) t = true ->
                         status t = TasksMapper'.clientToDomainStatus s) w' /\
  (ur_fields request ≫= cuf_status = None -> s = ClientTaskStatus.NOT_STARTED).
Proof.
  intros Hanswer. cbn zeta.
  apply respond_Answer in Hanswer as (task & Hupdate & ->).
  pose proof (update_result env (TasksMapper'.updateRequestToUpdateDto request) w task)
    as (t & Hhead & -> & Hrows); [by rewrite Hupdate|].
  rewrite Hupdate in Hrows. cbn [snd] in Hrows.
  split; [|split].
  - cbn. apply (proj2 status_round_trip).
  - unfold rows_satisfy. rewrite Hrows. unfold updated.
    apply Forall_fmap, Forall_forall. intros t' _. cbn.
    destruct (TasksRepository.matches (ur_where request) t') eqn:Hm; cbn; [done|].
    intros Hm'. by rewrite Hm in Hm'.
  - by intros ->.
Qed.

Lemma controller_update_always_writes_the_status_witness :
  let finished := (TasksService.update Sample.env'
                 (mkUpdateDto (mkWhere "t1" None)
                    (Some (TaskEventsController.status_fields DONE))) Sample.created).2 in
  let rename := {| ur_where := mkWhere "t1" (Some "u1");
                   ur_fields := Some {| cuf_name := Some "water the garden";
                                        cuf_description := None; cuf_scheduleId := None;
                                        cuf_dueTo := None; cuf_repeat := None;
                                        cuf_status := None; cuf_priority := None;
                                        cuf_fixed := None; cuf_startTime := Undefined;
                                        cuf_endTime := Undefined |} |} in
  status <$> tasks finished = [DONE] /\
  exists answer w',
    TasksController.update Sample.env' rename finished = (Answer answer, w') /\
    ct_status answer = ClientTaskStatus.NOT_STARTED /\
    status <$> tasks w' = [NOT_STARTED].
Proof.
  intros finished rename. split; [vm_compute; reflexivity|].
  destruct (TasksController.update Sample.env' rename finished) as [answer w'] eqn:Hanswer.
  assert (exists a, answer = Answer a) as [a ->].
  { vm_compute in Hanswer. injection Hanswer as <- _. eauto. }
  exists a, w'. split; [done|].
  destruct (controller_update_always_writes_the_status Sample.env' rename finished a w'
              Hanswer) as (Hs & _ & _).
  split; [exact Hs|].
  vm_compute in Hanswer. by injection Hanswer as _ <-.
Defined.

Global Instance bindings_kept_job_queue_blind js : JobQueueBlind (bindings_kept js).
Proof. by intros q w ?. Qed.
Global Instance bindings_kept_schedulers_blind js : SchedulersBlind (bindings_kept js).
Proof. by intros q w ?. Qed.
Global Instance bindings_kept_tasks_blind js : TasksBlind (bindings_kept js).
Proof. by intros ts w ?. Qed.

Lemma preserves_bindings_kept_scheduleSingle js env req taskId :
  preserves (bindings_kept js) (JobsService.scheduleSingle env req taskId).
Proof.
  intros w Hw. apply wp_JobsService_scheduleSingle.
  - intros r w' _ Hj. unfold bindings_kept. by rewrite Hj.
  - intros r jid w' _ Hj _. unfold bindings_kept. rewrite Hj.
    by apply prefix_app_r.
Qed.

Lemma preserves_bindings_kept_scheduleCron js env req taskId :
  preserves (bindings_kept js) (JobsService.scheduleCron env req taskId).
Proof.
  intros w Hw. apply wp_JobsService_scheduleCron.
  - intros r w' _ Hj. unfold bindings_kept. by rewrite Hj.
  - intros r jid w' _ Hj _. unfold bindings_kept. rewrite Hj.
    by apply prefix_app_r.
Qed.

(** An [update] that has no null for [dueTo] or [repeat] deletes no
    binding. *)
Lemma update_keeps_bindings env dto w :
  TasksService.fields_dueTo (u_fields dto) <> Null ->
  TasksService.fields_repeat (u_fields dto) <> Null ->
  bindings_kept (jobs w) (TasksService.update env dto w).2.
Proof.
  intros Hdue Hrepeat.
  assert (preserves (bindings_kept (jobs w)) (TasksService.update env dto)) as Hpres.
  { unfold TasksService.update. cbn zeta.
    apply preserves_bind; [pres|intros _].
    apply preserves_bind; [by apply preserves_TasksRepository_update, _|].
    intros [updatedTask|]; [|pres].
    apply preserves_bind; [unfold JobsService.findByTaskId; pres|intros jobs0].
    pose proof (preserves_bindings_kept_scheduleSingle (jobs w) env) as Hs.
    pose proof (preserves_bindings_kept_scheduleCron (jobs w) env) as Hc.
    pose proof (preserves_JobsService_rescheduleSingle (bindings_kept (jobs w)) env) as Hrs.
    pose proof (preserves_JobsService_rescheduleCron (bindings_kept (jobs w)) env) as Hrc.
    unfold TasksService.reconcile_dueTo_set, TasksService.reconcile_dueTo_null,
      TasksService.reconcile_repeat_set, TasksService.reconcile_repeat_null.
    destruct (TasksService.fields_dueTo (u_fields dto)) as [| |due] eqn:Hd; [|done|];
      destruct (TasksService.fields_repeat (u_fields dto)) as [| |cron] eqn:Hr;
      try done; cbn; pres. }
  apply Hpres. unfold bindings_kept. reflexivity.
Qed.

Lemma updated_nothing_cleared env dto (ts : list DbTask) :
  TasksService.fields_repeat (u_fields dto) <> Null ->
  match u_fields dto with Some f => f_description f <> Null | None => True end ->
  Forall2 nothing_cleared ts (updated env dto ts).
Proof.
  intros Hrepeat Hdescription. unfold updated.
  apply Forall2_fmap_r, Forall_Forall2_diag, Forall_forall. intros t _. cbn.
  destruct (TasksRepository.matches (u_where dto) t); [|by repeat split].
  unfold nothing_cleared, TasksService.db_fields, TasksService.fields_repeat in *.
  destruct (u_fields dto) as [f|]; cbn; [|by repeat split].
  repeat split.
  - by destruct (f_description f).
  - by destruct (TasksService.truthy_date (f_dueTo f)).
  - by destruct (f_repeat f).
Qed.

(** X23. What an update through the controller cannot do.  In the contract
    the description, the due date and the repetition of a task are strings or
    absent, never null, so the dto that the mapper builds never asks to clear
    one of them: whatever the request and whatever fails, [update] of the
    controller deletes no binding of the job store (it never unschedules a
    job), and no row loses its description, its due date or its repetition. *)
Theorem controller_update_never_clears env request w :
  let w' := (TasksController.update env request w).2 in
  bindings_kept (jobs w) w' /\
  Forall2 nothing_cleared (tasks w) (tasks w').
Proof.
  cbn zeta.
  set (dto := TasksMapper'.updateRequestToUpdateDto request).
  assert ((TasksController.update env request w).2 = (TasksService.update env dto w).2)
    as ->.
  { unfold TasksController.update, TasksController.respond. fold dto.
    by destruct (TasksService.update env dto w) as [[a|e] w']. }
  assert (TasksService.fields_dueTo (u_fields dto) <> Null) as Hdue.
  { cbn. by destruct (ur_fields request ≫= cuf_dueTo). }
  assert (TasksService.fields_repeat (u_fields dto) <> Null) as Hrepeat.
  { cbn. by destruct (ur_fields request ≫= cuf_repeat). }
  split; [by apply update_keeps_bindings|].
  destruct (update_rows env dto w) as [-> | ->].
  - apply Forall_Forall2_diag, Forall_forall. intros t _. by repeat split.
  - apply updated_nothing_cleared; [done|].
    cbn. by destruct (ur_fields request ≫= cuf_description).
Qed.

Lemma no_values_with_status f :
  is_Some (f_status f) ->
  TasksRepository.no_values (TasksService.db_fields (Some f)) = false.
Proof.
  intros [s Hs]. unfold TasksRepository.no_values, TasksService.db_fields. cbn.
  rewrite Hs. by repeat case_match.
Qed.

(** X24. A task that does not exist is answered with NOT_FOUND.  When no row
    matches the [where] of the request and the database answers, [findOne],
    [remove] and [update] of the controller all fail with
    [GrpcNotFoundException] and the message 'task not found', and nothing has
    changed; for [update] this is so for every request whose schedule, if it
    names one, exists, since the dto of the mapper always sets a column.  An
    [update] that names a schedule that does not exist fails with the message
    'schedule not found' instead, whether the task exists or not. *)
Theorem controller_answers_NOT_FOUND env wh w :
  fails env TasksFindOne = false ->
  fails env TasksUpdate = false ->
  fails env SchedulesFindOne = false ->
  (filter (fun t => TasksRepository.matches wh t = true) (tasks w) = [] ->
   TasksController.findOne env wh w =
     (Failure (GrpcNotFoundException "task not found"), w) /\
   TasksController.remove env wh w =
     (Failure (GrpcNotFoundException "task not found"), w) /\
   (forall fields,
      (forall sid, fields ≫= cuf_scheduleId = Some sid -> truthy sid = true ->
                   sid ∈ schedules w) ->
      TasksController.update env {| ur_where := wh; ur_fields := fields |} w =
        (Failure (GrpcNotFoundException "task not found"), w))) /\
  (forall fields sid,
     fields ≫= cuf_scheduleId = Some sid -> truthy sid = true -> sid ∉ schedules w ->
     TasksController.update env {| ur_where := wh; ur_fields := fields |} w =
       (Failure (GrpcNotFoundException "schedule not found"), w)).
Proof.
  intros Hf Hu Hs. split.
  - intros Hnone. split; [|split].
    + unfold TasksController.findOne, TasksController.respond.
      rewrite findOne_eq by done. by rewrite Hnone.
    + unfold TasksController.remove, TasksController.respond, TasksService.remove,
        TasksRepository.findOne, bind, guard, get, ret, throw.
      rewrite Hf. cbn. by rewrite Hnone.
    + intros fields Hschedule.
      unfold TasksController.update, TasksController.respond.
      rewrite (proj2 (update_unknown env _ w)); try done.
      by apply no_values_with_status.
  - intros fields sid Hsid Htruthy Hno.
    unfold TasksController.update, TasksController.respond.
    rewrite (proj1 (update_unknown env _ w) sid); done.
Qed.

Lemma controller_answers_NOT_FOUND_witness :
  TasksController.remove Sample.env' (mkWhere "t1" (Some "u2")) Sample.created =
    (Failure (GrpcNotFoundException "task not found"), Sample.created).
Proof.
  refine (proj1 (proj2 (proj1 (controller_answers_NOT_FOUND Sample.env'
            (mkWhere "t1" (Some "u2")) Sample.created eq_refl eq_refl eq_refl) _))).
  vm_compute. reflexivity.
Defined.

(** * The jobs of a new task *)

#[local] Arguments JobsService.scheduleSingle : simpl never.
#[local] Arguments JobsService.scheduleCron : simpl never.
#[local] Arguments JobsRepository.save : simpl never.

(** X25. What [create] does when nothing fails and the ids drawn are new: it
    returns the row as a task; the table has the row at its end; the job store
    has a SINGLE binding for the task exactly when the row has a due date, and
    then the queue has one job more, under the id of the binding, that fires at
    the due date (its delay is the due date minus now, which [create] does
    not compare with zero) and
    carries the id, the name and the user of the task and the event TASK_DUE;
    the job store has a CRON binding exactly when the row has a non-empty
    repetition, and then the queue has a scheduler under the id of that
    binding, with the repetition as its pattern and the event
    TASK_REPEATED. *)
Theorem create_schedules_the_jobs_of_the_task env dto w :
  healthy env ->
  c_scheduleId dto ∈ schedules w ->
  taskUuid env ∉ id <$> tasks w ->
  singleUuid env <> "" ->
  singleUuid env <> cronUuid env ->
  singleUuid env ∉ job_id <$> jobs w ->
  cronUuid env ∉ job_id <$> jobs w ->
  q_jobs (queue w) !! singleUuid env = None ->
  let row := TasksRepository.new_row env dto (TasksService.truthy_date (c_dueTo dto)) in
  TasksService.create env dto w = (Ok (TasksMapper.dbToDomain row), with_task env row w).
Proof.
  intros Henv Hschedule Hfresh Hid Hne Hsingle Hcron Hqueue. cbn zeta.
  assert (forall ts : list DbTask, taskUuid env ∈ id <$> ts ++
            [TasksRepository.new_row env dto (TasksService.truthy_date (c_dueTo dto))])
    as Hrow.
  { intros ts. rewrite fmap_app. apply elem_of_app. right. apply list_elem_of_here. }
  unfold TasksService.create, SchedulesRepository.findOne, TasksRepository.create,
    bind, guard, get, put, ret, throw.
  rewrite !Henv. cbn.
  rewrite (bool_decide_eq_true_2 _ Hschedule).
  rewrite (bool_decide_eq_false_2 _ Hfresh). cbn.
  rewrite (bool_decide_eq_true_2 _ Hschedule). cbn.
  unfold with_task. cbn.
  destruct (TasksService.truthy_date (c_dueTo dto)) as [due|] eqn:Hdue.
  - rewrite JobsService_scheduleSingle_eq by (by rewrite ?Henv). cbn zeta.
    rewrite scheduleSingle_any_date by (by rewrite ?Henv). cbn [fst snd].
    rewrite or_else_truthy by done.
    unfold JobsRepository.save at 1 2. unfold bind, guard, get, put, ret, throw.
    rewrite !Henv. cbn.
    rewrite (bool_decide_eq_false_2 _ Hsingle).
    rewrite (bool_decide_eq_true_2 _ (Hrow _)). cbn.
    destruct (TasksService.truthy_opt (TasksRepository.or_null (c_repeat dto)))
      as [cron|] eqn:Hrepeat; [|done].
    rewrite JobsService_scheduleCron_eq by (by rewrite ?Henv). cbn zeta.
    rewrite scheduleCron_eq by (by rewrite ?Henv). cbn [fst snd].
    unfold JobsRepository.save at 1 2. unfold bind, guard, get, put, ret, throw.
    rewrite !Henv. cbn.
    rewrite bool_decide_eq_false_2.
    + rewrite (bool_decide_eq_true_2 _ (Hrow _)). cbn. by rewrite <- app_assoc.
    + rewrite fmap_app. intros Hin. apply elem_of_app in Hin as [Hin|Hin]; [done|].
      cbn in Hin. apply list_elem_of_singleton in Hin. congruence.
  - cbn.
    destruct (TasksService.truthy_opt (TasksRepository.or_null (c_repeat dto)))
      as [cron|] eqn:Hrepeat; [|rewrite ?app_nil_r; by destruct w as [ts ss js [qj qs] b e]].
    rewrite JobsService_scheduleCron_eq by (by rewrite ?Henv). cbn zeta.
    rewrite scheduleCron_eq by (by rewrite ?Henv). cbn [fst snd].
    unfold JobsRepository.save at 1 2. unfold bind, guard, get, put, ret, throw.
    rewrite !Henv. cbn.
    rewrite (bool_decide_eq_false_2 _ Hcron).
    by rewrite (bool_decide_eq_true_2 _ (Hrow _)).
Qed.

Lemma create_schedules_the_jobs_of_the_task_witness :
  TasksService.create Sample.env Sample.dto Sample.empty =
    (Ok (TasksMapper.dbToDomain (TasksRepository.new_row Sample.env Sample.dto (Some 5000))),
     with_task Sample.env (TasksRepository.new_row Sample.env Sample.dto (Some 5000))
       Sample.empty).
Proof.
  apply (create_schedules_the_jobs_of_the_task Sample.env Sample.dto Sample.empty
           healthy_sample); cbn; try done.
  - apply list_elem_of_here.
  - apply not_elem_of_nil.
  - apply not_elem_of_nil.
  - apply not_elem_of_nil.
Defined.

(** X26. The first due date of a task.  When nothing fails, [update] of a
    task that has no SINGLE binding with a due date (and no word on its
    repetition or its schedule) patches the row, schedules a job in the engine
    and saves its binding: the queue has one job more, that fires at the due
    date and carries the id of the task, its name after the update and its
    user.  The date is not compared with the clock: unlike for a task that has
    a binding already, a due date in the past is scheduled, with a delay that
    is not positive. *)
Theorem update_schedules_the_first_due_date env dto w f ms t :
  healthy env ->
  u_fields dto = Some f ->
  f_dueTo f = Val (Iso ms) ->
  f_repeat f = Undefined ->
  f_scheduleId f = None ->
  filter (fun t => TasksRepository.matches (u_where dto) t = true) (tasks w) = [t] ->
  TasksService.find_type SINGLE (task_jobs (w_id (u_where dto)) w) = None ->
  singleUuid env <> "" ->
  singleUuid env ∉ job_id <$> jobs w ->
  q_jobs (queue w) !! singleUuid env = None ->
  let row := TasksRepository.set_fields env (TasksService.db_fields (Some f)) t in
  TasksService.update env dto w =
    (Ok (TasksMapper.dbToDomain row),
     {| tasks := updated env dto (tasks w);
        schedules := schedules w;
        jobs := jobs w ++ [mkDbJob (singleUuid env) SINGLE (id t)];
        queue := {| q_jobs := <[singleUuid env := due_job env row ms]> (q_jobs (queue w));
                    q_schedulers := q_schedulers (queue w) |};
        bus := bus w;
        errors := errors w |}).
Proof.
  intros Henv Hf Hdue Hrepeat Hsid Hhit Hnone Hid Hfresh Hqueue. cbn zeta.
  assert (TasksRepository.no_values (TasksService.db_fields (Some f)) = false) as Hvalues.
  { unfold TasksRepository.no_values, TasksService.db_fields. cbn. rewrite Hdue. cbn.
    by destruct (f_description f). }
  assert (id t = w_id (u_where dto)) as Hidt.
  { assert (t ∈ filter (fun t => TasksRepository.matches (u_where dto) t = true) (tasks w))
      as Hin by (rewrite Hhit; apply list_elem_of_here).
    apply list_elem_of_filter in Hin as [Hm _]. unfold TasksRepository.matches in Hm.
    apply andb_prop in Hm as [Hm _]. by apply bool_decide_eq_true_1 in Hm. }
  assert (w_id (u_where dto) ∈ id <$> updated env dto (tasks w)) as Hrow.
  { assert (t ∈ tasks w) as Hin.
    { assert (t ∈ filter (fun t => TasksRepository.matches (u_where dto) t = true)
                    (tasks w)) as Hin by (rewrite Hhit; apply list_elem_of_here).
      by apply list_elem_of_filter in Hin as [_ Hin]. }
    unfold updated. rewrite <- list_fmap_compose.
    apply list_elem_of_fmap. exists t. split; [|done]. cbn.
    by destruct (TasksRepository.matches (u_where dto) t). }
  unfold TasksService.update, TasksRepository.update, JobsService.findByTaskId,
    JobsRepository.findByTaskId, TasksService.reconcile_dueTo_set,
    TasksService.reconcile_dueTo_null, TasksService.reconcile_repeat_set,
    TasksService.reconcile_repeat_null, TasksService.fields_scheduleId,
    TasksService.fields_dueTo, TasksService.fields_repeat,
    bind, guard, get, put, ret, throw.
  rewrite Hf, Hsid, !Henv, Hvalues, Hhit. cbn.
  rewrite ?Hdue, ?Hsid, ?Hrepeat. cbn. rewrite ?Hdue, ?Hsid, ?Hrepeat. cbn.
  unfold task_jobs in Hnone. rewrite Hnone. cbn.
  rewrite JobsService_scheduleSingle_eq by (by rewrite ?Henv). cbn zeta.
  rewrite scheduleSingle_any_date by (by rewrite ?Henv). cbn [fst snd].
  rewrite or_else_truthy by done.
  unfold JobsRepository.save at 1 2. unfold bind, guard, get, put, ret, throw.
  rewrite !Henv. cbn.
  rewrite (bool_decide_eq_false_2 _ Hfresh).
  unfold updated, TasksService.db_fields in Hrow. rewrite Hf in Hrow. cbn in Hrow.
  rewrite ?Hdue, ?Hsid, ?Hrepeat in Hrow. cbn in Hrow.
  rewrite (bool_decide_eq_true_2 _ Hrow). cbn.
  unfold updated, TasksService.db_fields. rewrite Hf. cbn.
  rewrite ?Hdue, ?Hsid, ?Hrepeat. cbn.
  unfold due_job, Engine.with_ack. cbn. by rewrite Hidt.
Qed.

Lemma update_schedules_the_first_due_date_witness :
  let dto := mkUpdateDto (mkWhere "t1" (Some "u1"))
               (Some (Sample.with_dueTo (Val (Iso 500)))) in
  delay <$> (j_opts <$> q_jobs (queue (TasksService.update Sample.env' dto undated).2) !! "j2")
  = Some (-1500).
Proof.
  intros dto.
  assert (filter (fun t => TasksRepository.matches (u_where dto) t = true) (tasks undated)
          = [TasksRepository.new_row Sample.env call_home None]) as Hhit
    by (vm_compute; reflexivity).
  assert (TasksService.find_type SINGLE (task_jobs (w_id (u_where dto)) undated) = None)
    as Hnone by (vm_compute; reflexivity).
  assert (singleUuid Sample.env' ∉ job_id <$> jobs undated) as Hfresh
    by (cbn; apply not_elem_of_nil).
  assert (q_jobs (queue undated) !! singleUuid Sample.env' = None) as Hqueue
    by (vm_compute; reflexivity).
  rewrite (update_schedules_the_first_due_date Sample.env' dto undated
             (Sample.with_dueTo (Val (Iso 500))) 500
             (TasksRepository.new_row Sample.env call_home None) healthy_sample'
             eq_refl eq_refl eq_refl eq_refl Hhit Hnone ltac:(discriminate) Hfresh Hqueue).
  vm_compute. reflexivity.
Defined.

(** * The pages of a query *)

Lemma page_of_eq q where_ orderBy sortBy limit page w :
  select_error q = None -> 0 <= limit ->
  page_of q where_ orderBy sortBy limit page w =
    take (Z.to_nat limit)
      (drop (page * Z.to_nat limit)
         (ordered q (default by_createdAt orderBy) (default desc sortBy)
            (filter (fun t => TasksRepository'.condition q where_ t = true) (tasks w)))).
Proof.
  intros Hq Hlimit. unfold page_of, TasksRepository'.find, try_catch, bind, get, ret.
  cbn. rewrite Hq.
  rewrite bool_decide_eq_false_2 by lia.
  rewrite bool_decide_eq_false_2 by nia. cbn.
  do 2 f_equal. lia.
Qed.

(** X27. The pages of [TasksRepository.find] tile the selection.  For a
    limit that is not negative, with the database answering and ordering the
    same selection in the same way, the pages 0, 1, ..., n-1 of a query, one
    after the other, are the first n times limit rows of the selection in its
    order: no row is on two pages and none is left out between them; with
    the limit 0 every page is empty. *)
Theorem pages_of_find_tile_the_selection q where_ orderBy sortBy limit n w :
  select_error q = None ->
  0 <= limit ->
  concat ((fun page => page_of q where_ orderBy sortBy limit page w) <$> seq 0 n) =
    take (n * Z.to_nat limit)
      (ordered q (default by_createdAt orderBy) (default desc sortBy)
         (filter (fun t => TasksRepository'.condition q where_ t = true) (tasks w))).
Proof.
  intros Hq Hlimit. induction n as [|n IH]; [done|].
  rewrite seq_S, fmap_app, concat_app, IH. cbn.
  rewrite app_nil_r, page_of_eq by done.
  rewrite take_take_drop. f_equal. lia.
Qed.

Lemma pages_of_find_tile_the_selection_witness :
  concat ((fun page => page_of table_order None None None 1 page Sample.created)
          <$> seq 0 3) = tasks Sample.created.
Proof.
  rewrite (pages_of_find_tile_the_selection table_order None None None 1 3
             Sample.created eq_refl ltac:(lia)).
  vm_compute. reflexivity.
Defined.

(** * Creating a task through the controller *)

Lemma respond_eq {A B} (m : M A) (f : A -> B) h w a w' :
  m w = (Ok a, w') -> TasksController.respond m f h w = (Answer (f a), w').
Proof. intros Hm. unfold TasksController.respond. by rewrite Hm. Qed.

(** X28. Creating a task through the controller.  When [create] of the
    controller answers, the task in the answer has the id that the database
    drew, the user of the request and the status of the request, NOT_STARTED
    if it has none; [findOne] of the controller, asked for that id and that
    user, then answers with the same task.  When the schedule of the request
    does not exist, [create] fails with [GrpcNotFoundException] and the
    message 'schedule not found', and nothing has changed. *)
Theorem controller_create_then_findOne env env' request w :
  (forall answer w',
     TasksController.create env request w = (Answer answer, w') ->
     fails env' TasksFindOne = false ->
     ct_id answer = taskUuid env /\
     ct_userId answer = cr_userId request /\
     ct_status answer = TasksMapper'.status_or_NOT_STARTED (cr_status request) /\
     TasksController.findOne env' (mkWhere (ct_id answer) (Some (ct_userId answer))) w'
       = (Answer answer, w')) /\
  (fails env SchedulesFindOne = false ->
   cr_scheduleId request ∉ schedules w ->
   TasksController.create env request w =
     (Failure (GrpcNotFoundException "schedule not found"), w)).
Proof.
  split.
  - intros answer w' Hanswer Hfind.
    apply respond_Answer in Hanswer as (task & Hcreate & ->).
    set (dto := TasksMapper'.createRequestToCreateDto request) in *.
    assert ((TasksService.create env dto w).1 = Ok task) as Hok by (by rewrite Hcreate).
    destruct (created_task_is_found env env' dto w task Hok Hfind)
      as (Hid & Huser & Hfound & _).
    rewrite Hcreate in Hfound. cbn [snd] in Hfound.
    split; [done|]. split; [done|]. split.
    + destruct (create_rows env dto w) as [[_ [e He]]|(_ & _ & [Hrow|[e He]])];
        cbn zeta in *; try congruence.
      rewrite Hok in Hrow. injection Hrow as ->. cbn.
      apply (proj2 status_round_trip).
    + unfold TasksController.findOne. cbn [ct_id ct_userId TasksMapper'.domainToClient].
      by apply respond_eq.
  - intros Hs Hno.
    unfold TasksController.create, TasksController.respond, TasksService.create,
      SchedulesRepository.findOne, bind, guard, get, ret, throw.
    rewrite Hs. cbn. by rewrite bool_decide_eq_false_2.
Qed.

Lemma controller_create_then_findOne_witness :
  let request s := {| cr_userId := "u1"; cr_scheduleId := s; cr_name := "call home";
                      cr_description := Undefined; cr_dueTo := Undefined;
                      cr_repeat := Undefined; cr_status := None; cr_priority := None;
                      cr_fixed := None; cr_startTime := Undefined;
                      cr_endTime := Undefined |} in
  (exists answer w',
     TasksController.create Sample.env (request "s1") Sample.empty = (Answer answer, w') /\
     ct_status answer = ClientTaskStatus.NOT_STARTED /\
     TasksController.findOne Sample.env' (mkWhere "t1" (Some "u1")) w' =
       (Answer answer, w')) /\
  TasksController.create Sample.env (request "s9") Sample.empty =
    (Failure (GrpcNotFoundException "schedule not found"), Sample.empty).
Proof.
  intros request. split.
  - destruct (TasksController.create Sample.env (request "s1") Sample.empty)
      as [reply w'] eqn:Hcreate.
    assert (exists answer, reply = Answer answer) as [answer ->].
    { vm_compute in Hcreate. injection Hcreate as <- _. by eexists. }
    destruct (proj1 (controller_create_then_findOne Sample.env Sample.env'
                       (request "s1") Sample.empty) answer w' Hcreate eq_refl)
      as (Hid & Huser & Hstatus & Hfound).
    exists answer, w'. rewrite Hid, Huser in Hfound. by repeat split.
  - refine (proj2 (controller_create_then_findOne Sample.env Sample.env' (request "s9")
                     Sample.empty) eq_refl _).
    cbn. intros Hin. apply list_elem_of_singleton in Hin. discriminate.
Defined.
